(** * Top 10 Pony Videos: vote processing

    A shallow embedding of the date utilities ([functions/date.py]), the
    ranking engine ([functions/top_10_calc.py]) and the yt-dlp fetch
    service ([classes/fetch_services.py]), with the properties of the
    specification proved about them.

    Conventions of the embedding.
    - Text that the program parses is a list of Unicode code points
      ([str]); text that is only used as a dictionary key or copied
      around is a [string], which holds it in UTF-8.
    - A Python function that may raise returns a [result]; the exception
      carries the values the source interpolates into its message.
    - Python [int] is [Z] (unbounded); [float] percentages are exact
      rationals ([Qc]): on every realistic ballot box the map
      [count |-> count / n * 100] is injective in both, so grouping by
      equal percentage is the same.
    - Dictionaries whose iteration order feeds later computation are
      insertion-ordered association lists; dictionaries that are only
      looked up are [gmap]s. *)

From Stdlib Require Import ZArith List String Ascii Lia QArith Qcanon.
From Stdlib Require Import Sorting.Sorted Sorting.Permutation.
From stdpp Require Import base option list strings gmap numbers sorting pretty.

Set Warnings "-hiding-delimiting-key".

Local Open Scope Z_scope.
Local Open Scope list_scope.

(** ** Python primitives *)

Module Py.

(** A character is a Unicode code point, as in a Python [str]; the
    literal ["/"%char] is the code point of an ASCII character. *)
Abbreviation char := N.
Abbreviation str := (list char).

Definition char_of_byte (b : Byte.byte) : char := Byte.to_N b.
Definition byte_of_char (c : char) : option Byte.byte := Byte.of_N c.

Declare Scope char_code_scope.
String Notation N char_of_byte byte_of_char : char_code_scope.
Delimit Scope char_code_scope with char.
#[add_bottom] Bind Scope char_code_scope with N.

(** A [string] holds a text in UTF-8: [chars] reads its characters and
    [text] writes them.  A byte that starts no well-formed sequence is
    read as the character of its own number. *)
Definition continuation (b : N) : bool := (128 <=? b)%N && (b <? 192)%N.

Fixpoint utf8_decode (bytes : list N) : str :=
  match bytes with
  | [] => []
  | b :: rest =>
      if (b <? 128)%N then b :: utf8_decode rest
      else
        match rest with
        | b1 :: rest1 =>
            if (192 <=? b)%N && (b <? 224)%N && continuation b1
            then ((b - 192) * 64 + (b1 - 128))%N :: utf8_decode rest1
            else
              match rest1 with
              | b2 :: rest2 =>
                  if (224 <=? b)%N && (b <? 240)%N
                     && continuation b1 && continuation b2
                  then ((b - 224) * 4096 + (b1 - 128) * 64 + (b2 - 128))%N
                       :: utf8_decode rest2
                  else
                    match rest2 with
                    | b3 :: rest3 =>
                        if (240 <=? b)%N && (b <? 248)%N && continuation b1
                           && continuation b2 && continuation b3
                        then ((b - 240) * 262144 + (b1 - 128) * 4096
                              + (b2 - 128) * 64 + (b3 - 128))%N
                             :: utf8_decode rest3
                        else b :: utf8_decode rest
                    | [] => b :: utf8_decode rest
                    end
              | [] => b :: utf8_decode rest
              end
        | [] => [b]
        end
  end.

Definition chars (s : string) : str :=
  utf8_decode (map N_of_ascii (list_ascii_of_string s)).

Definition utf8_encode (c : char) : list N :=
  if (c <? 128)%N then [c]
  else if (c <? 2048)%N then [192 + c / 64; 128 + c mod 64]%N
  else if (c <? 65536)%N
  then [224 + c / 4096; 128 + (c / 64) mod 64; 128 + c mod 64]%N
  else [240 + c / 262144; 128 + (c / 4096) mod 64; 128 + (c / 64) mod 64;
        128 + c mod 64]%N.

Definition text (s : str) : string :=
  string_of_list_ascii (map ascii_of_N (concat (map utf8_encode s))).

(** The messages of the exceptions the modelled code raises. *)
Inductive error_message :=
| InvalidLiteralForInt (text : str)
| NotEnoughValuesToUnpack (got : nat)
| TooManyValuesToUnpack
| CannotParseVotesCsvTimestamp (timestamp : str)
| TimeDataDoesNotMatchFormat (text : str)
| UnconvertedDataRemains (rest : str)
| FieldOutOfRange (field : string) (value : Z)
| OnlyVotesIncluded (vote_count : nat) (ballot_line : nat)
| ZipArgumentLengthMismatch
| SubstringNotFound.

(** Dictionary keys, for the [KeyError]s. *)
Inductive key :=
| KStr (s : string)
| KNum (q : Qc)
| KPair (a b : Z).

Inductive exn :=
| ValueError (msg : error_message)
| KeyError (k : key)
| IndexError
| AttributeError
| ZeroDivisionError
| FetchRequestError (url : str).

Inductive result (A : Type) :=
| Ok (a : A)
| Raise (e : exn).
Arguments Ok {A} a.
Arguments Raise {A} e.

Definition bind {A B} (m : result A) (k : A -> result B) : result B :=
  match m with
  | Ok a => k a
  | Raise e => Raise e
  end.

Definition is_ok {A} (m : result A) : bool :=
  match m with Ok _ => true | Raise _ => false end.

(** [str.isspace] for one character, which is also the class [\s] of
    [re]: the whitespace of the Unicode database (version 14.0, the one
    of the interpreter 3.11). *)
Definition whitespace : list char :=
  [
   9; 10; 11; 12; 13; 28; 29; 30; 31; 32; 133; 160; 5760; 8192; 8193;
   8194; 8195; 8196; 8197; 8198; 8199; 8200; 8201; 8202; 8232; 8233;
   8239; 8287; 12288]%N.

Definition is_space (c : char) : bool := bool_decide (c ∈ whitespace).

(** The decimal digits (category [Nd]), which are the class [\d] of [re]
    and the digits [int] reads: in every script they are the ten
    characters from its digit zero on. *)
Definition digit_zeros : list char :=
  [
   48; 1632; 1776; 1984; 2406; 2534; 2662; 2790; 2918; 3046; 3174;
   3302; 3430; 3558; 3664; 3792; 3872; 4160; 4240; 6112; 6160; 6470;
   6608; 6784; 6800; 6992; 7088; 7232; 7248; 42528; 43216; 43264;
   43472; 43504; 43600; 44016; 65296; 66720; 68912; 69734; 69872;
   69942; 70096; 70384; 70736; 70864; 71248; 71360; 71472; 71904;
   72016; 72784; 73040; 73120; 92768; 92864; 93008; 120782; 120792;
   120802; 120812; 120822; 123200; 123632; 125264; 130032]%N.

Definition in_digits_from (c zero : char) : bool :=
  (zero <=? c)%N && (c <? zero + 10)%N.

Definition is_digit (c : char) : bool :=
  existsb (in_digits_from c) digit_zeros.

Definition digit_value (c : char) : Z :=
  match find (in_digits_from c) digit_zeros with
  | Some zero => Z.of_N (c - zero)
  | None => 0
  end.

(** The whitespace that [int] skips: of the ASCII characters only TAB..CR
    and the space, not FS..US. *)
Definition is_int_space (c : char) : bool :=
  is_space c && negb ((28 <=? c)%N && (c <=? 31)%N).

(** Removing the leading and the trailing characters of a class. *)
Fixpoint lstrip_by (blank : char -> bool) (s : str) : str :=
  match s with
  | c :: s' => if blank c then lstrip_by blank s' else s
  | [] => []
  end.

Definition rstrip_by (blank : char -> bool) (s : str) : str :=
  rev (lstrip_by blank (rev s)).

Definition strip_by (blank : char -> bool) (s : str) : str :=
  rstrip_by blank (lstrip_by blank s).

Definition lstrip : str -> str := lstrip_by is_space.

Definition rstrip : str -> str := rstrip_by is_space.

(** [s.strip()] *)
Definition strip : str -> str := strip_by is_space.

(** [s.startswith(p)] *)
Fixpoint startswith (p s : str) : bool :=
  match p, s with
  | [], _ => true
  | a :: p', b :: s' => if N.eq_dec a b then startswith p' s' else false
  | _ :: _, [] => false
  end.

(** [s.endswith(p)] *)
Definition endswith (p s : str) : bool := startswith (rev p) (rev s).

(** [c in s] for a one-character [c]. *)
Definition contains (c : char) (s : str) : bool :=
  bool_decide (c ∈ s).

(** [s.split(sep)] for a one-character separator. *)
Fixpoint split (sep : char) (s : str) : list str :=
  match s with
  | [] => [[]]
  | c :: s' =>
      if N.eq_dec c sep then [] :: split sep s'
      else match split sep s' with
           | part :: parts => (c :: part) :: parts
           | [] => [[c]]
           end
  end.

(** [a, b = parts] *)
Definition unpack2 (parts : list str) : result (str * str) :=
  match parts with
  | [a; b] => Ok (a, b)
  | [] => Raise (ValueError (NotEnoughValuesToUnpack 0))
  | [_] => Raise (ValueError (NotEnoughValuesToUnpack 1))
  | _ => Raise (ValueError TooManyValuesToUnpack)
  end.

(** [s.replace(c, "")] for a one-character [c]. *)
Definition remove_char (c : char) (s : str) : str :=
  filter (fun x => x <> c) s.

(** The digits of an [int] literal after the first one: decimal digits,
    single underscores allowed between two digits. *)
Fixpoint int_digits (acc : Z) (s : str) : option Z :=
  match s with
  | [] => Some acc
  | c :: s' =>
      if is_digit c then int_digits (acc * 10 + digit_value c) s'
      else if N.eq_dec c "_"%char
      then match s' with
           | d :: s'' =>
               if is_digit d then int_digits (acc * 10 + digit_value d) s''
               else None
           | [] => None
           end
      else None
  end.

Definition int_unsigned (s : str) : option Z :=
  match s with
  | c :: s' => if is_digit c then int_digits (digit_value c) s' else None
  | [] => None
  end.

(** [int(s)] in base ten: surrounding whitespace is ignored, one sign is
    allowed, and the digits of every script count.  The interpreter's
    limit on the number of digits is a run-time setting and is not
    modelled. *)
Definition int_literal (t : str) : option Z :=
  match t with
  | "+"%char :: r => int_unsigned r
  | "-"%char :: r => Z.opp <$> int_unsigned r
  | _ => int_unsigned t
  end.

Definition int (s : str) : result Z :=
  match int_literal (strip_by is_int_space s) with
  | Some z => Ok z
  | None => Raise (ValueError (InvalidLiteralForInt s))
  end.

(** [s.zfill(width)]: zeros go after a leading sign. *)
Definition zfill (width : nat) (s : str) : str :=
  let pad := replicate (width - length s) "0"%char in
  match s with
  | c :: r =>
      if N.eq_dec c "+"%char then c :: pad ++ r
      else if N.eq_dec c "-"%char then c :: pad ++ r
      else pad ++ s
  | [] => pad
  end.

(** [s.rfind(c)]: the last index of [c], or -1. *)
Fixpoint rfind_from (c : char) (s : str) (i : Z) (found : Z) : Z :=
  match s with
  | [] => found
  | x :: s' => rfind_from c s' (i + 1) (if N.eq_dec x c then i else found)
  end.

Definition rfind (c : char) (s : str) : Z := rfind_from c s 0 (-1).

(** A slice bound, as Python normalises it: a negative bound counts from
    the end, and every bound is clipped to the text. *)
Definition slice_bound (s : str) (i : Z) : nat :=
  let n := Z.of_nat (length s) in
  Z.to_nat (Z.min n (Z.max 0 (if i <? 0 then n + i else i))).

(** [s[lo:hi]] *)
Definition slice (s : str) (lo hi : Z) : str :=
  let a := slice_bound s lo in
  let b := slice_bound s hi in
  take (b - a) (drop a s).

(** [s[lo:]] *)
Definition slice_from (s : str) (lo : Z) : str := drop (slice_bound s lo) s.

Definition to_upper (c : char) : char :=
  if (97 <=? c)%N && (c <=? 122)%N then (c - 32)%N else c.

Definition to_lower (c : char) : char :=
  if (65 <=? c)%N && (c <=? 90)%N then (c + 32)%N else c.

(** [s.capitalize()], for the letters of ASCII, of which the names of the
    sites are made; other characters are kept. *)
Definition capitalize (s : str) : str :=
  match s with
  | c :: r => to_upper c :: map to_lower r
  | [] => []
  end.

(** A loop whose body may raise. *)
Fixpoint foldM {A B} (f : B -> A -> result B) (l : list A) (acc : B)
  : result B :=
  match l with
  | [] => Ok acc
  | x :: l' =>
      match f acc x with
      | Ok acc' => foldM f l' acc'
      | Raise e => Raise e
      end
  end.

(** A list comprehension whose element expression may raise. *)
Fixpoint comprehension {A B} (f : A -> result B) (l : list A)
  : result (list B) :=
  match l with
  | [] => Ok []
  | x :: l' =>
      match f x with
      | Ok y =>
          match comprehension f l' with
          | Ok ys => Ok (y :: ys)
          | Raise e => Raise e
          end
      | Raise e => Raise e
      end
  end.

(** Values of the dynamically typed records (yt-dlp responses, video
    data): [None], a text or a number. *)
Inductive pyval :=
| PNone
| PStr (s : string)
| PInt (z : Z).

(** An insertion-ordered [dict]: assigning to a present key keeps its
    place, a new key goes last. *)
Section Dict.
Context {K V : Type} `{EqDecision K}.

Fixpoint dict_get (k : K) (d : list (K * V)) : option V :=
  match d with
  | [] => None
  | (k', v) :: d' => if decide (k' = k) then Some v else dict_get k d'
  end.

Fixpoint dict_set (k : K) (v : V) (d : list (K * V)) : list (K * V) :=
  match d with
  | [] => [(k, v)]
  | (k', v') :: d' =>
      if decide (k' = k) then (k, v) :: d' else (k', v') :: dict_set k v d'
  end.

Fixpoint dict_del (k : K) (d : list (K * V)) : list (K * V) :=
  match d with
  | [] => []
  | (k', v') :: d' =>
      if decide (k' = k) then d' else (k', v') :: dict_del k d'
  end.

Definition dict_keys (d : list (K * V)) : list K := d.*1.

(** [d[k]] *)
Definition getitem (as_key : K -> key) (d : list (K * V)) (k : K)
  : result V :=
  match dict_get k d with
  | Some v => Ok v
  | None => Raise (KeyError (as_key k))
  end.
End Dict.


(** *** Further primitives *)

(** The exceptions that the functions below raise beside those of [exn];
    the messages are the ones of the interpreter or of the source. *)
Inductive raised :=
| Exn (e : exn)
| TypeError (message : string)
| ValueErrorAbout (message : string) (text : str).

Inductive outcome (A : Type) :=
| Returns (a : A)
| Raises (e : raised).
Arguments Returns {A} a.
Arguments Raises {A} e.

Definition lift {A} (r : result A) : outcome A :=
  match r with
  | Ok a => Returns a
  | Raise e => Raises (Exn e)
  end.

Definition outcome_bind {A B} (m : outcome A) (k : A -> outcome B) : outcome B :=
  match m with
  | Returns a => k a
  | Raises e => Raises e
  end.

Definition digit_char (d : N) : char := (48 + d)%N.

(** The decimal digits of [n], most significant first, in front of
    [acc]; [fuel] bounds the number of digits. *)
Fixpoint digits_of (fuel : nat) (n : N) (acc : str) : str :=
  match fuel with
  | O => acc
  | S fuel' =>
      let acc' := digit_char (n mod 10)%N :: acc in
      if (n / 10 =? 0)%N then acc' else digits_of fuel' (n / 10)%N acc'
  end.

(** [str(z)] for an integer: a number has no more decimal digits than
    binary ones. *)
Definition str_of_int (z : Z) : str :=
  let n := Z.to_N (Z.abs z) in
  let digits := digits_of (S (N.to_nat (N.log2 n))) n [] in
  if z <? 0 then "-"%char :: digits else digits.

(** [p in s] for a text [p]. *)
Fixpoint contains_text (p s : str) : bool :=
  startswith p s
  || match s with
     | [] => false
     | _ :: s' => contains_text p s'
     end.

(** [sep.join(parts)] *)
Fixpoint join (sep : str) (parts : list str) : str :=
  match parts with
  | [] => []
  | [part] => part
  | part :: parts' => part ++ sep ++ join sep parts'
  end.

(** [l[::2]] *)
Fixpoint every_second {A} (l : list A) : list A :=
  match l with
  | x :: _ :: l' => x :: every_second l'
  | _ => l
  end.

End Py.

Import Py.

#[global] Instance result_ret : MRet result := @Ok.
#[global] Instance result_bind : MBind result := fun A B k m => Py.bind m k.
#[global] Instance outcome_ret : MRet outcome := @Returns.
#[global] Instance outcome_mbind : MBind outcome :=
  fun A B k m => Py.outcome_bind m k.

(** ** Regular expressions, as far as the program uses them

    [run re s] lists every way [re] matches a prefix of [s], as the pair of
    the matched text and the rest, in the order a backtracking matcher
    tries them; [re.match] takes the first. *)

Module Re.

Inductive regex :=
| Class (p : char -> bool)     (* one character of a class *)
| Plus (p : char -> bool)      (* one or more, greedy *)
| Seq (a b : regex)
| Alt (a b : regex)
| Eos.                          (* [$] *)

Definition Lit (c : char) : regex :=
  Class (fun x => bool_decide (x = c)).

Definition Range (lo hi : char) : regex :=
  Class (fun x => (lo <=? x)%N && (x <=? hi)%N).

Definition Digit : regex := Class is_digit.

Fixpoint plus_run (p : char -> bool) (s : str) : list (str * str) :=
  match s with
  | c :: r =>
      if p c
      then map (fun mr => (c :: fst mr, snd mr)) (plus_run p r) ++ [([c], r)]
      else []
  | [] => []
  end.

Fixpoint run (re : regex) (s : str) : list (str * str) :=
  match re with
  | Class p =>
      match s with
      | c :: r => if p c then [([c], r)] else []
      | [] => []
      end
  | Plus p => plus_run p s
  | Seq a b =>
      mr1 ← run a s;
      mr2 ← run b (snd mr1);
      [(fst mr1 ++ fst mr2, snd mr2)]
  | Alt a b => run a s ++ run b s
  | Eos =>
      match s with
      | [] => [([], [])]
      | [c] => if N.eq_dec c "010"%char then [([], s)] else []
      | _ => []
      end
  end.

(** A pattern is a sequence of items; a match records the text of each. *)
Fixpoint run_items (items : list regex) (s : str) : list (list str * str) :=
  match items with
  | [] => [([], s)]
  | re :: items' =>
      mr ← run re s;
      gr ← run_items items' (snd mr);
      [(fst mr :: fst gr, snd gr)]
  end.

(** [re.match(pattern, s)]: the first match, if any. *)
Definition match_items (items : list regex) (s : str) : option (list str * str) :=
  head (run_items items s).

End Re.

(** ** functions/date.py *)

Module Date.

Import Re.

(** A fixed-offset time zone, as [pytz] gives for the names [Etc/GMT+N]. *)
Record tzinfo := { tzname : string; utcoffset_minutes : Z }.

(** [timezone("Etc/GMT-14")]: the zone data inverts the sign of the
    name, so this is UTC+14:00. *)
Definition Etc_GMT_minus_14 : tzinfo :=
  {| tzname := "Etc/GMT-14"; utcoffset_minutes := 14 * 60 |}.

(** [timezone("Etc/GMT+12")]: UTC-12:00. *)
Definition Etc_GMT_plus_12 : tzinfo :=
  {| tzname := "Etc/GMT+12"; utcoffset_minutes := -12 * 60 |}.

Record datetime := {
  year : Z; month : Z; day : Z;
  hour : Z; minute : Z; second : Z; microsecond : Z;
  tzinfo_of : option tzinfo
}.

Definition is_leap (y : Z) : bool :=
  (y mod 4 =? 0) && (negb (y mod 100 =? 0) || (y mod 400 =? 0)).

Definition days_in_month (y m : Z) : Z :=
  if m =? 2 then (if is_leap y then 29 else 28)
  else if (m =? 4) || (m =? 6) || (m =? 9) || (m =? 11) then 30
  else 31.

Definition check_field (field : string) (lo hi v : Z) : result unit :=
  if (lo <=? v) && (v <=? hi) then Ok ()
  else Raise (ValueError (FieldOutOfRange field v)).

(** [datetime(y, m, d, H, M, S, us, tzinfo=tz)]: the constructor checks
    the date fields, then the time fields. *)
Definition datetime_of (y m d H M S us : Z) (tz : option tzinfo)
  : result datetime :=
  _ ← check_field "year" 1 9999 y;
  _ ← check_field "month" 1 12 m;
  _ ← check_field "day" 1 (days_in_month y m) d;
  _ ← check_field "hour" 0 23 H;
  _ ← check_field "minute" 0 59 M;
  _ ← check_field "second" 0 59 S;
  _ ← check_field "microsecond" 0 999999 us;
  Ok {| year := y; month := m; day := d;
        hour := H; minute := M; second := S; microsecond := us;
        tzinfo_of := tz |}.

(** [datetime(y, m, d, H, M, S, tzinfo=tz)]: the microsecond is left at
    its default, 0. *)
Definition datetime_new (y m d H M S : Z) (tz : option tzinfo)
  : result datetime :=
  datetime_of y m d H M S 0 tz.

(** [dt.replace(year=y, month=m, tzinfo=tz)]: a new, checked value with
    the other fields of [dt]. *)
Definition replace (dt : datetime) (y m : Z) (tz : option tzinfo)
  : result datetime :=
  datetime_of y m (day dt) (hour dt) (minute dt) (second dt)
    (microsecond dt) tz.

(** [dt.replace(tzinfo=None)] *)
Definition replace_tzinfo (dt : datetime) (tz : option tzinfo) : datetime :=
  {| year := year dt; month := month dt; day := day dt;
     hour := hour dt; minute := minute dt; second := second dt;
     microsecond := microsecond dt; tzinfo_of := tz |}.

(** The directives of [strptime], as [_strptime.py] compiles them. *)
Definition re_m : regex :=
  Alt (Seq (Lit "1") (Range "0" "2"))
    (Alt (Seq (Lit "0") (Range "1" "9")) (Range "1" "9")).
Definition re_d : regex :=
  Alt (Seq (Lit "3") (Range "0" "1"))
    (Alt (Seq (Range "1" "2") Digit)
       (Alt (Seq (Lit "0") (Range "1" "9"))
          (Alt (Range "1" "9") (Seq (Lit " ") (Range "1" "9"))))).
Definition re_Y : regex := Seq Digit (Seq Digit (Seq Digit Digit)).
Definition re_H : regex :=
  Alt (Seq (Lit "2") (Range "0" "3")) (Alt (Seq (Range "0" "1") Digit) Digit).
Definition re_M : regex := Alt (Seq (Range "0" "5") Digit) Digit.
Definition re_S : regex :=
  Alt (Seq (Lit "6") (Range "0" "1")) (Alt (Seq (Range "0" "5") Digit) Digit).

(** The format ["%m/%d/%Y %H:%M:%S"]; its blank is compiled to [\s+]. *)
Definition timestamp_format : list regex :=
  [re_m; Lit "/"; re_d; Lit "/"; re_Y; Plus is_space;
   re_H; Lit ":"; re_M; Lit ":"; re_S].

(** [datetime.strptime(data, "%m/%d/%Y %H:%M:%S")] *)
Definition strptime (data : str) : result datetime :=
  match match_items timestamp_format data with
  | None => Raise (ValueError (TimeDataDoesNotMatchFormat data))
  | Some (groups, rest) =>
      match rest with
      | _ :: _ => Raise (ValueError (UnconvertedDataRemains rest))
      | [] =>
          match groups with
          | [g_m; _; g_d; _; g_Y; _; g_H; _; g_M; _; g_S] =>
              year ← int g_Y; month ← int g_m; day ← int g_d;
              hour ← int g_H; minute ← int g_M; second ← int g_S;
              datetime_new year month day hour minute second None
          | _ => Raise (ValueError (TimeDataDoesNotMatchFormat data))
          end
      end
  end.

(** The pattern [^(\d+)/(\d+)/(\d+) (\d+):(\d+):(\d+)$]. *)
Definition timestamp_pattern : list regex :=
  [Plus is_digit; Lit "/"; Plus is_digit; Lit "/"; Plus is_digit; Lit " ";
   Plus is_digit; Lit ":"; Plus is_digit; Lit ":"; Plus is_digit; Eos].

(** [match.groups()]: the six captured texts; [None] has no groups. *)
Definition groups (found : option (list str * str)) : option (list str) :=
  match found with
  | Some ([a; _; b; _; c; _; d; _; e; _; f; _], _) => Some [a; b; c; d; e; f]
  | _ => None
  end.

Definition join_timestamp (month day year hour minute second : str) : str :=
  month ++ "/"%char :: day ++ "/"%char :: year ++ " "%char ::
  hour ++ ":"%char :: minute ++ ":"%char :: second.

Definition parse_votes_csv_timestamp (timestamp : str) : result datetime :=
  let timestamp := strip timestamp in
  match groups (match_items timestamp_pattern timestamp) with
  | None => Raise (ValueError (CannotParseVotesCsvTimestamp timestamp))
  | Some date_components =>
      match date_components with
      | [month; day; year; hour; minute; second] =>
          let month := zfill 2 month in
          let day := zfill 2 day in
          let year := zfill 4 year in
          let hour := zfill 2 hour in
          let minute := zfill 2 minute in
          let second := zfill 2 second in
          let processed_timestamp :=
            join_timestamp month day year hour minute second in
          dt ← strptime processed_timestamp;
          Ok (replace_tzinfo dt None)
      | _ => Raise (ValueError (CannotParseVotesCsvTimestamp timestamp))
      end
  end.

Definition convert_iso8601_duration_to_seconds (iso8601_duration : str)
  : result Z :=
  let iso8601_duration :=
    if startswith (chars "PT") iso8601_duration
    then slice_from iso8601_duration 2 else iso8601_duration in
  '(hours, iso8601_duration) ←
    (if contains "H" iso8601_duration
     then '(hours_part, rest) ← unpack2 (split "H" iso8601_duration);
          hours ← int hours_part; Ok (hours, rest)
     else Ok (0, iso8601_duration));
  '(minutes, iso8601_duration) ←
    (if contains "M" iso8601_duration
     then '(minutes_part, rest) ← unpack2 (split "M" iso8601_duration);
          minutes ← int minutes_part; Ok (minutes, rest)
     else Ok (0, iso8601_duration));
  seconds ←
    (if contains "S" iso8601_duration
     then int (remove_char "S" iso8601_duration)
     else Ok 0);
  Ok (hours * 3600 + minutes * 60 + seconds).

Definition get_month_year_bounds (month year : Z) (lenient : bool)
  : result (datetime * datetime) :=
  let lower_timezone := if lenient then Some Etc_GMT_minus_14 else None in
  let upper_timezone := if lenient then Some Etc_GMT_plus_12 else None in
  lower_bound ← datetime_new year month 1 0 0 0 lower_timezone;
  upper_bound ←
    (if month <? 12
     then replace lower_bound (Date.year lower_bound)
            (Date.month lower_bound + 1) upper_timezone
     else replace lower_bound (Date.year lower_bound + 1) 1 upper_timezone);
  Ok (lower_bound, upper_bound).

End Date.

(** ** classes/typing.py *)

Module Typing.

(** Modelled from the spec: [classes/typing.py] is not part of the
    sources; section 6 gives the two record shapes.  The values of a
    [VideoData] are whatever the fetch service found, [None] included. *)
Record VideoData := {
  title : pyval;
  uploader : pyval;
  upload_date : pyval;
  duration : pyval;
  platform : pyval
}.

(** All fields of an archive record are text, as read from the CSV. *)
Record ArchiveRecord := {
  month : string;
  year : string;
  archive_title : string;
  archive_uploader : string;
  url : string;
  percentage : string;
  total_votes : string;
  notes : string
}.

End Typing.

(** ** functions/messages.py *)

Module Messages.

(** The diagnostics the modelled code prints with [err]; printing does
    not interrupt the computation.  [NoHistoricalEntriesFound] carries
    the month and year that the message names. *)
Inductive diagnostic :=
| NoHistoricalEntriesFound (month anni_year : Z)
| SeveralVideosDurationIgnored
| NewgroundsHasNoDuration
| BlueskyHasNoDuration.

#[global] Instance diagnostic_eq_dec : EqDecision diagnostic.
Proof. solve_decision. Defined.

End Messages.


(** ** functions/general.py *)

Module General.

(** Modelled from the spec: [sample_item_without_replacement] of
    [functions/general.py] is not part of the sources.  Following section
    4.5 it removes the item at a random position of the list and returns
    it.  The random source is the function [rand], whose [k]-th value
    decides the [k]-th draw; every position can be drawn.  The result is
    the item, the list without it, and the number of the next draw. *)
Definition sample_item_without_replacement
    (rand : nat -> nat) (k : nat) (items : list string)
  : result (string * list string * nat) :=
  let i := (rand k mod length items)%nat in
  match items !! i with
  | Some item => Ok (item, delete i items, S k)
  | None => Raise IndexError
  end.


(** Modelled from the spec: [get_freq_table] of [functions/general.py] is
    not part of the sources.  Following section 4.4 (the dates are
    bucketed, the bucket seen first wins a tie) it counts the occurrences
    of each item in a dictionary that is ordered by first occurrence. *)
Definition count_item {K} `{EqDecision K} (counts : list (K * nat)) (item : K)
  : list (K * nat) :=
  match dict_get item counts with
  | None => dict_set item 1%nat counts
  | Some count => dict_set item (count + 1)%nat counts
  end.

Definition get_freq_table {K} `{EqDecision K} (items : list K)
  : list (K * nat) :=
  fold_left count_item items [].

End General.

(** ** functions/top_10_calc.py *)

Module Top10Calc.

Import Typing General.

Definition get_titles_to_urls_row
    (titles_to_urls : list (string * string)) (title_row url_row : list string)
  : list (string * string) :=
  fold_left (fun d tu => dict_set tu.1 tu.2 d) (zip title_row url_row)
    titles_to_urls.

(** The outer loop runs over [zip(title_rows, url_rows, strict=True)],
    which raises when one table ends before the other; the inner [zip]
    stops at the shorter row. *)
Fixpoint get_titles_to_urls_rows
    (titles_to_urls : list (string * string))
    (title_rows url_rows : list (list string))
  : result (list (string * string)) :=
  match title_rows, url_rows with
  | [], [] => Ok titles_to_urls
  | title_row :: title_rows', url_row :: url_rows' =>
      get_titles_to_urls_rows
        (get_titles_to_urls_row titles_to_urls title_row url_row)
        title_rows' url_rows'
  | _, _ => Raise (ValueError ZipArgumentLengthMismatch)
  end.

Definition get_titles_to_urls_mapping
    (title_rows url_rows : list (list string))
  : result (list (string * string)) :=
  get_titles_to_urls_rows [] title_rows url_rows.

(** The body of the loop over [titles_to_urls.items()]. *)
Definition set_uploader (videos_data : gmap string (option VideoData))
    (titles_to_uploaders : list (string * pyval)) (tu : string * string)
  : result (list (string * pyval)) :=
  match videos_data !! tu.2 with
  | None => Raise (KeyError (KStr tu.2))
  | Some video_data =>
      Ok (dict_set tu.1
            (match video_data with
             | Some video_data => uploader video_data
             | None => PNone
             end)
            titles_to_uploaders)
  end.

Definition get_titles_to_uploaders
    (titles_to_urls : list (string * string))
    (videos_data : gmap string (option VideoData))
  : result (list (string * pyval)) :=
  foldM (set_uploader videos_data) titles_to_urls [].

(** One step of the tally: [title_counts[title] += 1], from zero. *)
Definition count_title (title_counts : list (string * nat)) (title : string)
  : list (string * nat) :=
  let title_counts :=
    match dict_get title title_counts with
    | None => dict_set title 0%nat title_counts
    | Some _ => title_counts
    end in
  dict_set title (default 0%nat (dict_get title title_counts) + 1)%nat
    title_counts.

Definition count_titles (title_rows : list (list string))
  : list (string * nat) :=
  fold_left (fun title_counts title_row =>
               fold_left count_title title_row title_counts)
    title_rows [].

(** [len(list(filter(lambda title: title, title_row)))] *)
Definition vote_count (title_row : list string) : nat :=
  length (filter (fun title => title <> ""%string) title_row).

(** The validation loop, from ballot [i] on. *)
Fixpoint count_voters (i : nat) (title_rows : list (list string))
    (counted_voters : nat) : result nat :=
  match title_rows with
  | [] => Ok counted_voters
  | title_row :: title_rows' =>
      let vote_count := vote_count title_row in
      if (5 <=? vote_count)%nat
      then count_voters (S i) title_rows' (counted_voters + 1)%nat
      else if negb (vote_count =? 0)%nat
      then Raise (ValueError (OnlyVotesIncluded vote_count (i + 2)))
      else count_voters (S i) title_rows' counted_voters
  end.

Definition Qc_of_nat (n : nat) : Qc := Q2Qc (inject_Z (Z.of_nat n)).

(** [(count / counted_voters) * 100] *)
Definition percentage_of (count counted_voters : nat) : result Qc :=
  match counted_voters with
  | O => Raise ZeroDivisionError
  | S _ => Ok (Qc_of_nat count / Qc_of_nat counted_voters * Qc_of_nat 100)%Qc
  end.

Definition group_title (percentage_groups : list (Qc * list string))
    (tp : string * Qc) : list (Qc * list string) :=
  let percentage_groups :=
    match dict_get tp.2 percentage_groups with
    | None => dict_set tp.2 [] percentage_groups
    | Some _ => percentage_groups
    end in
  dict_set tp.2 (default [] (dict_get tp.2 percentage_groups) ++ [tp.1])
    percentage_groups.

(** [sorted(keys, reverse=True)]; the keys of a dictionary are distinct,
    so the order of the result does not depend on the sorting method. *)
Definition sorted_reverse (keys : list Qc) : list Qc :=
  merge_sort (flip Qcle) keys.

Record ranking := {
  draws : nat;
  ranked_titles : list string;
  tie_broken : gmap string bool
}.

(** The [while len(percentage_group) > 0] loop.  Each round removes one
    title from the group, so [length percentage_group] rounds empty it. *)
Fixpoint sample_group (rand : nat -> nat) (rounds : nat)
    (tie_break_needed : bool) (percentage_group : list string) (st : ranking)
  : result ranking :=
  match rounds, percentage_group with
  | S rounds', _ :: _ =>
      '(sampled_title, percentage_group', k) ←
        sample_item_without_replacement rand (draws st) percentage_group;
      let tie_broken := <[sampled_title := false]> (tie_broken st) in
      let tie_broken :=
        if tie_break_needed then <[sampled_title := true]> tie_broken
        else tie_broken in
      sample_group rand rounds' tie_break_needed percentage_group'
        {| draws := k;
           ranked_titles := ranked_titles st ++ [sampled_title];
           tie_broken := tie_broken |}
  | _, _ => Ok st
  end.

Definition rank_group (rand : nat -> nat)
    (percentage_groups : list (Qc * list string)) (st : ranking)
    (percentage : Qc) : result ranking :=
  percentage_group ← getitem KNum percentage_groups percentage;
  let tie_break_needed := (1 <? length percentage_group)%nat in
  sample_group rand (length percentage_group) tie_break_needed
    percentage_group st.

Record RankedRecord := {
  Title : string;
  Uploader : pyval;
  Percentage : Qc;   (* rendered by the source with four decimals *)
  Total_Votes : nat;
  URL : string;
  Notes : string
}.

(** The body of the loop that builds the records. *)
Definition ranked_record
    (title_counts : list (string * nat))
    (title_percentages : list (string * Qc))
    (titles_to_urls : list (string * string))
    (titles_to_uploaders : list (string * pyval))
    (tie_broken : gmap string bool) (title : string)
  : result RankedRecord :=
  uploader ← getitem KStr titles_to_uploaders title;
  percentage ← getitem KStr title_percentages title;
  count ← getitem KStr title_counts title;
  url ← getitem KStr titles_to_urls title;
  tie ← match tie_broken !! title with
        | Some b => Ok b
        | None => Raise (KeyError (KStr title))
        end;
  Ok {| Title := title;
        Uploader := match uploader with PNone => PStr "" | _ => uploader end;
        Percentage := percentage;
        Total_Votes := count;
        URL := url;
        Notes := if tie : bool then "Tie broken randomly by computer"
                 else "" |}.

Definition calc_ranked_records (rand : nat -> nat)
    (title_rows : list (list string))
    (titles_to_urls : list (string * string))
    (titles_to_uploaders : list (string * pyval))
  : result (list RankedRecord) :=
  let title_counts := count_titles title_rows in
  let title_counts := dict_del ""%string title_counts in
  counted_voters ← count_voters 0 title_rows 0;
  title_percentages ←
    comprehension
      (fun tc => p ← percentage_of tc.2 counted_voters; Ok (tc.1, p))
      title_counts;
  let percentage_groups := fold_left group_title title_percentages [] in
  let sorted_percentages := sorted_reverse (dict_keys percentage_groups) in
  st ← foldM (rank_group rand percentage_groups) sorted_percentages
         {| draws := 0; ranked_titles := []; tie_broken := ∅ |};
  comprehension
    (ranked_record title_counts title_percentages titles_to_urls
       titles_to_uploaders (tie_broken st))
    (ranked_titles st).

Definition index_archive_record
    (month_year_records : gmap (Z * Z) (list ArchiveRecord))
    (archive_record : ArchiveRecord)
  : result (gmap (Z * Z) (list ArchiveRecord)) :=
  m ← int (chars (month archive_record));
  y ← int (chars (year archive_record));
  let month_year := (m, y) in
  let month_year_records :=
    match month_year_records !! month_year with
    | None => <[month_year := []]> month_year_records
    | Some _ => month_year_records
    end in
  Ok (<[month_year :=
          default [] (month_year_records !! month_year) ++ [archive_record]]>
        month_year_records).

(** The state of the anniversary loop: what has been answered, and the
    diagnostics printed so far. *)
Record history := {
  history_records : gmap Z (list ArchiveRecord);
  printed : list Messages.diagnostic
}.

(** One anniversary.  A missing bucket is a [KeyError] that the source
    catches; the handler builds [datetime(anni_year, month, 1)] to name the
    month in its warning, and that constructor may raise in turn. *)
Definition get_anniversary (month year : Z)
    (month_year_records : gmap (Z * Z) (list ArchiveRecord))
    (st : history) (num_years : Z) : result history :=
  let anni_year := year - num_years in
  match month_year_records !! (month, anni_year) with
  | Some records =>
      Ok {| history_records := <[num_years := records]> (history_records st);
            printed := printed st |}
  | None =>
      anni_date ← Date.datetime_new anni_year month 1 0 0 0 None;
      Ok {| history_records := history_records st;
            printed := printed st ++
              [Messages.NoHistoricalEntriesFound
                 (Date.month anni_date) (Date.year anni_date)] |}
  end.

Definition get_history (archive_records : list ArchiveRecord)
    (from_date : Date.datetime) (anniversaries : list Z) : result history :=
  let month := Date.month from_date in
  let year := Date.year from_date in
  month_year_records ← foldM index_archive_record archive_records ∅;
  foldM (get_anniversary month year month_year_records) anniversaries
    {| history_records := ∅; printed := [] |}.


(** [rows[1:]], then [row[2::2]] for every row. *)
Definition process_shifted_voting_data (rows : list (list string))
  : list (list string) :=
  let data_rows := drop 1 rows in
  let data_rows := map (fun row => every_second (drop 2 row)) data_rows in
  data_rows.

End Top10Calc.

(** ** classes/fetch_services.py *)

Module FetchServices.

Import Typing Messages.

(** What [extract_info] returns: the data of one video, or a collection
    with an ["entries"] list. *)
Inductive extraction :=
| Video (response : gmap string pyval)
| Entries (entries : list (gmap string pyval)).

(** [response.get(k)] *)
Definition get (response : gmap string pyval) (k : string) : pyval :=
  default PNone (response !! k).

(** A value inside an f-string. *)
Definition format (v : pyval) : string :=
  match v with
  | PNone => "None"
  | PStr s => s
  | PInt z => pretty z
  end.

(** Truth value of a response field. *)
Definition truthy (v : pyval) : bool :=
  match v with
  | PNone => false
  | PStr s => negb (bool_decide (s = ""%string))
  | PInt z => negb (z =? 0)
  end.

(** [s.index(c)] *)
Fixpoint index (c : char) (s : str) : result nat :=
  match s with
  | [] => Raise (ValueError SubstringNotFound)
  | x :: s' => if N.eq_dec x c then Ok O else i ← index c s'; Ok (S i)
  end.

Section YtDlpFetchService.

(** The libraries the service calls are parameters of the model:
    [netloc url] is [urlparse(url).netloc], [extract_info url] is what
    [YoutubeDL(ydl_opts).extract_info(url, download=False)] returns
    ([None] when it raises), and [sha256_hexdigest] is
    [hashlib.sha256(s.encode()).hexdigest()]. *)
Variable netloc : str -> str.
Variable extract_info : str -> option extraction.
Variable sha256_hexdigest : string -> string.

Definition hash_str (v : pyval) : result string :=
  match v with
  | PStr s => Ok (String.substring 0 5 (sha256_hexdigest s))
  | _ => Raise AttributeError
  end.

(** [site = netloc.split("."); site[0] if len(site) == 2 else site[1]] *)
Definition site_of (url : str) : result str :=
  let site := split "." (netloc url) in
  match site !! (if bool_decide (length site = 2%nat) then 0 else 1)%nat with
  | Some label => Ok label
  | None => Raise IndexError
  end.

(** The [try] block: every exception inside becomes a
    [FetchRequestError]. *)
Definition extract (url : str) : result (gmap string pyval) :=
  match extract_info url with
  | Some (Video response) => Ok response
  | Some (Entries (response :: _)) => Ok response
  | Some (Entries []) => Raise (FetchRequestError url)
  | None => Raise (FetchRequestError url)
  end.

(** The [match site] statement: the site label, the response and the
    diagnostics printed. *)
Definition handle_site (url : str) (site : str) (response : gmap string pyval)
  : result (str * gmap string pyval * list diagnostic) :=
  match text site with
  | "twitter" | "x" =>
      let site := chars "twitter" in
      let response := <["channel" := get response "uploader_id"]> response in
      h ← hash_str (get response "title");
      let response :=
        <["title" := PStr ("X post by " +:+ format (get response "uploader_id")
                           +:+ " (" +:+ h +:+ ")")]> response in
      if endswith (chars "/video") (slice url 0 (rfind "/" url))
      then
        video_index ← int (slice_from url (rfind "/" url + 1));
        if bool_decide (video_index <> 1)
        then Ok (site, <["duration" := PNone]> response,
                 [SeveralVideosDurationIgnored])
        else Ok (site, response, [])
      else Ok (site, response, [])
  | "newgrounds" =>
      let response := <["channel" := get response "uploader"]> response in
      Ok (site, response, [NewgroundsHasNoDuration])
  | "tiktok" =>
      let response := <["channel" := get response "uploader"]> response in
      h ← hash_str (get response "title");
      let response :=
        <["title" := PStr ("Tiktok video by " +:+ format (get response "uploader")
                           +:+ " (" +:+ h +:+ ")")]> response in
      Ok (site, response, [])
  | "bilibili" =>
      let response := <["channel" := get response "uploader"]> response in
      Ok (site, response, [])
  | "bsky" =>
      let site := chars "bluesky" in
      let uploader := get response "uploader_id" in
      channel ←
        (if truthy uploader
         then match uploader with
              | PStr s =>
                  i ← index "." (chars s);
                  Ok (PStr (text (take i (chars s))))
              | _ => Raise AttributeError
              end
         else Ok PNone);
      let response := <["channel" := channel]> response in
      title ← match response !! "title" with
              | Some v => Ok v
              | None => Raise (KeyError (KStr "title"))
              end;
      h ← hash_str title;
      let response :=
        <["title" := PStr ("Bluesky post by " +:+ format channel
                           +:+ " (" +:+ h +:+ ")")]> response in
      Ok (site, response, [BlueskyHasNoDuration])
  | "pony" => Ok (chars "PonyTube", response, [])
  | "thishorsie" => Ok (chars "ThisHorsieRocks", response, [])
  | _ => Ok (site, response, [])
  end.

(** [YtDlpFetchService.request]: the video data and the diagnostics. *)
Definition request (url : str) : result (VideoData * list diagnostic) :=
  site ← site_of url;
  response ← extract url;
  '(site, response, printed) ← handle_site url site response;
  Ok ({| title := get response "title";
         uploader := get response "channel";
         upload_date := get response "upload_date";
         duration := get response "duration";
         platform := PStr (text (capitalize site)) |},
      printed).

End YtDlpFetchService.


(** [YouTubeFetchService.can_fetch] *)
Definition youtube_can_fetch (url : str) : bool :=
  contains_text (chars "youtube.com") url || contains_text (chars "youtu.be") url.

(** [YtDlpFetchService.can_fetch]:
    [any(domain in url for domain in self.accepted_domains)] *)
Definition can_fetch (accepted_domains : list str) (url : str) : bool :=
  existsb (fun domain => contains_text domain url) accepted_domains.

(** The format ["%Y%m%d"]. *)
Definition upload_date_format : list Re.regex :=
  [Date.re_Y; Date.re_m; Date.re_d].

(** [datetime.strptime(data, "%Y%m%d")] *)
Definition strptime_upload_date (data : str) : result Date.datetime :=
  match Re.match_items upload_date_format data with
  | None => Raise (ValueError (TimeDataDoesNotMatchFormat data))
  | Some (groups, rest) =>
      match rest with
      | _ :: _ => Raise (ValueError (UnconvertedDataRemains rest))
      | [] =>
          match groups with
          | [g_Y; g_m; g_d] =>
              year ← int g_Y; month ← int g_m; day ← int g_d;
              Date.datetime_new year month day 0 0 0 None
          | _ => Raise (ValueError (TimeDataDoesNotMatchFormat data))
          end
      end
  end.

(** [pytz.utc] *)
Definition UTC : Date.tzinfo :=
  {| Date.tzname := "UTC"; Date.utcoffset_minutes := 0 |}.

(** What [parse] returns: the upload date is a date now. *)
Record ParsedVideoData := {
  parsed_title : pyval;
  parsed_uploader : pyval;
  parsed_upload_date : Date.datetime;
  parsed_duration : pyval;
  parsed_platform : pyval
}.

(** [YtDlpFetchService.parse]: [strptime] wants a text, and
    [pytz.utc.localize] puts the naive date in UTC. *)
Definition parse (video_data : VideoData) : outcome ParsedVideoData :=
  upload_date ←
    match upload_date video_data with
    | PStr text => lift (strptime_upload_date (chars text))
    | _ => Raises (TypeError "strptime() argument 1 must be str")
    end;
  let upload_date := Date.replace_tzinfo upload_date (Some UTC) in
  Returns {| parsed_title := title video_data;
             parsed_uploader := uploader video_data;
             parsed_upload_date := upload_date;
             parsed_duration := duration video_data;
             parsed_platform := platform video_data |}.

End FetchServices.

(** ** functions/date.py, the remaining functions

    They stand in a module of their own because they need
    [get_freq_table] and the further primitives. *)

Module DateRest.

Import Date.


Definition format_votes_csv_timestamp (dt : datetime) : str :=
  let month := str_of_int (month dt) in
  let day := str_of_int (day dt) in
  let year := str_of_int (year dt) in
  let hour := str_of_int (hour dt) in
  let minute := zfill 2 (str_of_int (minute dt)) in
  let second := zfill 2 (str_of_int (second dt)) in
  join_timestamp month day year hour minute second.

Definition get_preceding_month_date (date : datetime) : result datetime :=
  let preceding_month := if month date >? 1 then month date - 1 else 12 in
  let preceding_year := if month date >? 1 then year date else year date - 1 in
  datetime_new preceding_year preceding_month 1 0 0 0 (tzinfo_of date).

(** [dt.toordinal()]: the days since the last day of year 0. *)
Definition days_before_year (y : Z) : Z :=
  let p := y - 1 in p * 365 + p / 4 - p / 100 + p / 400.

Definition days_before_month (y m : Z) : Z :=
  fold_right Z.add 0
    (map (fun k => days_in_month y (Z.of_nat k)) (seq 1 (Z.to_nat (m - 1)))).

Definition toordinal (dt : datetime) : Z :=
  days_before_year (year dt) + days_before_month (year dt) (month dt) + day dt.

(** The fields of a date, compared from the year down. *)
Definition fields (dt : datetime) : list Z :=
  [year dt; month dt; day dt; hour dt; minute dt; second dt; microsecond dt].

Fixpoint compare_fields (a b : list Z) : comparison :=
  match a, b with
  | x :: a', y :: b' =>
      match x ?= y with
      | Eq => compare_fields a' b'
      | c => c
      end
  | [], [] => Eq
  | [], _ :: _ => Lt
  | _ :: _, [] => Gt
  end.

Definition utcoffset (dt : datetime) : option Z :=
  utcoffset_minutes <$> tzinfo_of dt.

(** The seconds of a date on the UTC time line. *)
Definition utc_seconds (dt : datetime) (offset_minutes : Z) : Z :=
  toordinal dt * 86400 + hour dt * 3600 + minute dt * 60 + second dt
  - offset_minutes * 60.

Definition utc_microseconds (dt : datetime) (offset_minutes : Z) : Z :=
  utc_seconds dt offset_minutes * 1000000 + microsecond dt.

(** The comparison of two dates: by their fields when both have the
    same UTC offset or none, by their place on the UTC time line when
    both have an offset, and not at all when only one has. *)
Definition datetime_cmp (a b : datetime) : outcome comparison :=
  match utcoffset a, utcoffset b with
  | None, None => Returns (compare_fields (fields a) (fields b))
  | Some oa, Some ob =>
      if oa =? ob then Returns (compare_fields (fields a) (fields b))
      else Returns (utc_microseconds a oa ?= utc_microseconds b ob)
  | _, _ =>
      Raises (TypeError "can't compare offset-naive and offset-aware datetimes")
  end.

(** [a >= b] and [a < b] *)
Definition datetime_ge (a b : datetime) : outcome bool :=
  c ← datetime_cmp a b;
  Returns (match c with Lt => false | _ => true end).

Definition datetime_lt (a b : datetime) : outcome bool :=
  c ← datetime_cmp a b;
  Returns (match c with Lt => true | _ => false end).

(** [date >= lower_bound and date < upper_bound]: the second comparison
    is made only when the first one holds. *)
Definition is_date_between (date lower_bound upper_bound : datetime)
  : outcome bool :=
  ge ← datetime_ge date lower_bound;
  if ge : bool then datetime_lt date upper_bound else Returns false.

(** [sorted(keys, key=count, reverse=True)]: by descending count; keys of
    equal count keep their order. *)
Fixpoint insert_by_count {K} (count : K -> nat) (x : K) (l : list K) : list K :=
  match l with
  | [] => [x]
  | y :: l' =>
      if (count x <? count y)%nat then y :: insert_by_count count x l'
      else x :: l
  end.

Definition sorted_by_count_reverse {K} (count : K -> nat) (keys : list K)
  : list K :=
  fold_right (insert_by_count count) [] keys.

Definition get_most_common_month_year (dates : list datetime)
  : result (Z * Z * bool) :=
  let month_years := map (fun date => (month date, year date)) dates in
  let month_year_counts := General.get_freq_table month_years in
  let sorted_month_years :=
    sorted_by_count_reverse
      (fun my => default 0%nat (dict_get my month_year_counts))
      (dict_keys month_year_counts) in
  match sorted_month_years with
  | [] => Raise IndexError
  | most_common_month_year :: _ =>
      let is_unanimous := bool_decide (length sorted_month_years = 1%nat) in
      Ok (most_common_month_year.1, most_common_month_year.2, is_unanimous)
  end.

(** Modelled from the spec: [Ballot] of [classes/voting.py] is not part of
    the sources; section 3 says that a ballot is an ordered list of title
    slots and carries a submission timestamp. *)
Record Ballot := {
  timestamp : datetime;
  votes : list string
}.

Definition guess_voting_month_year (ballots : list Ballot)
  : result (Z * Z * bool) :=
  let ballot_timestamps := map timestamp ballots in
  get_most_common_month_year ballot_timestamps.

Definition rel_anni_date_to_abs (rel_date : str) (from_date : datetime)
  : outcome datetime :=
  let rel_date_words := split " " rel_date in
  match rel_date_words with
  | [first; second; third] =>
      match int first with
      | Raise _ =>
          Raises (ValueErrorAbout
                    "first word of relative date must be an integer number of years"
                    rel_date)
      | Ok years_ago =>
          let ending := join (chars " ") [second; third] in
          if bool_decide (ending ∈ [chars "year ago"; chars "years ago"])
          then lift (replace from_date (year from_date - years_ago)
                       (month from_date) (tzinfo_of from_date))
          else Raises (ValueErrorAbout
                         "date must end in year ago or years ago"
                         rel_date)
      end
  | _ =>
      Raises (ValueErrorAbout
                "date must be given in form N year ago or N years ago"
                rel_date)
  end.

End DateRest.

(** ** Vocabulary of the specification *)

Module Spec.

Import Date Top10Calc.

(** A number as the specification writes it: one or more decimal digits. *)
Definition is_number (ds : str) : bool :=
  negb (bool_decide (ds = [])) && forallb is_digit ds.

(** Its value. *)
Definition decimal (ds : str) : Z :=
  fold_left (fun acc c => acc * 10 + digit_value c) ds 0.

(** A component of an ISO-8601 duration: a number and its designator, or
    nothing. *)
Definition component (designator : char) (amount : option str) : str :=
  match amount with
  | Some ds => ds ++ [designator]
  | None => []
  end.

Definition component_ok (amount : option str) : bool :=
  match amount with
  | Some ds => is_number ds
  | None => true
  end.

Definition component_value (amount : option str) : Z :=
  match amount with
  | Some ds => decimal ds
  | None => 0
  end.

(** The duration marker, then hours, minutes and seconds in this order. *)
Definition iso8601_duration (h m s : option str) : str :=
  chars "PT" ++ component "H" h ++ component "M" m ++ component "S" s.

(** The shape [number/number/number number:number:number]. *)
Definition timestamp_shape (t : str) : Prop :=
  exists a b c d e f,
    is_number a = true /\ is_number b = true /\ is_number c = true /\
    is_number d = true /\ is_number e = true /\ is_number f = true /\
    t = join_timestamp a b c d e f.

(** A text that writes the number [v] in decimal, with leading zeros or
    none, in at most [width] characters. *)
Definition zero_padded (width : nat) (t : str) (v : Z) : bool :=
  bool_decide
    (t = replicate (length t - length (str_of_int v)) "0"%char
         ++ str_of_int v)
  && (length t <=? width)%nat.

(** The first instant of a month. *)
Definition first_instant (y m : Z) (tz : option tzinfo) : datetime :=
  {| year := y; month := m; day := 1;
     hour := 0; minute := 0; second := 0; microsecond := 0; tzinfo_of := tz |}.

Definition following_month (m y : Z) : Z * Z :=
  if m =? 12 then (1, y + 1) else (m + 1, y).


(** The month and year of an archive record, when both are integers. *)
Definition month_year_of (r : Typing.ArchiveRecord) : option (Z * Z) :=
  match int (chars (Typing.month r)), int (chars (Typing.year r)) with
  | Ok m, Ok y => Some (m, y)
  | _, _ => None
  end.

(** The archive records of one month of one year, in archive order. *)
Definition bucket (archive : list Typing.ArchiveRecord) (month_year : Z * Z)
  : list Typing.ArchiveRecord :=
  filter (fun r => month_year_of r = Some month_year) archive.


(** A link to the second video of a post, and fixed answers of the
    libraries for it. *)
Definition example_url : str := chars "https://x.com/u/status/1/video/2".

Definition example_netloc (url : str) : str := chars "x.com".

Definition example_response : gmap string pyval :=
  {[ "title" := PStr "a post"; "duration" := PInt 12 ]}.

Definition example_extract_info (url : str)
  : option FetchServices.extraction :=
  Some (FetchServices.Video example_response).

Definition example_sha256 (s : string) : string := "0123456789abcdef".


(** The tally without the blank title. *)
Definition title_counts (title_rows : list (list string))
  : list (string * nat) :=
  dict_del ""%string (count_titles title_rows).

(** A ballot passes the validation when it is blank or has five votes. *)
Definition ballot_ok (title_row : list string) : Prop :=
  vote_count title_row = 0%nat \/ (5 <= vote_count title_row)%nat.

(** The number of counted ballots. *)
Definition counted (title_rows : list (list string)) : nat :=
  length (filter (fun title_row => 5 <= vote_count title_row)%nat title_rows).

(** The percentage of [count] votes among [n] counted ballots. *)
Definition percent (count n : nat) : Qc :=
  (Qc_of_nat count / Qc_of_nat n * Qc_of_nat 100)%Qc.

Definition title_percentages (title_rows : list (list string)) (n : nat)
  : list (string * Qc) :=
  map (fun tc => (tc.1, percent tc.2 n)) (title_counts title_rows).

(** The titles that share a percentage, in tally order. *)
Definition group_of (tp : list (string * Qc)) (p : Qc) : list string :=
  (filter (fun x => x.2 = p) tp).*1.

(** Descending order. *)
Definition descending (l : list Qc) : Prop :=
  StronglySorted (fun a b => (b <= a)%Qc) l.

Definition tie_note : string := "Tie broken randomly by computer".


(** The percentage of a tallied title. *)
Definition percentage_of_title (tp : list (string * Qc)) (title : string) : Qc :=
  default (Qc_of_nat 0) (dict_get title tp).

(** The titles ranked under a percentage. *)
Definition group_at (groups : list (Qc * list string)) (p : Qc) : list string :=
  default [] (dict_get p groups).


(** Four ballots, one of them blank, and the two mappings for their
    titles. *)
Definition example_title_rows : list (list string) :=
  [["a"; "b"; "c"; "d"; "e"]; ["a"; "b"; "c"; "d"; "f"];
   [""; ""; ""; ""; ""]; ["a"; "b"; "c"; "d"; "e"; "g"]]%string.

Definition example_titles_to_urls : list (string * string) :=
  [("a", "ua"); ("b", "ub"); ("c", "uc"); ("d", "ud");
   ("e", "ue"); ("f", "uf"); ("g", "ug")]%string.

Definition example_videos_data : gmap string (option Typing.VideoData) :=
  let video (name : string) :=
    Some {| Typing.title := PStr name; Typing.uploader := PStr "uploader";
            Typing.upload_date := PStr "20240401"; Typing.duration := PInt 60;
            Typing.platform := PStr "Site" |} in
  {[ "ua" := video "a"; "ub" := None; "uc" := video "c"; "ud" := video "d";
     "ue" := video "e"; "uf" := video "f"; "ug" := video "g" ]}%string.

Definition example_titles_to_uploaders : list (string * pyval) :=
  match get_titles_to_uploaders example_titles_to_urls example_videos_data with
  | Ok titles_to_uploaders => titles_to_uploaders
  | Raise _ => []
  end.

Definition example_rand (k : nat) : nat := k.

Definition example_records : list RankedRecord :=
  match calc_ranked_records example_rand example_title_rows
          example_titles_to_urls example_titles_to_uploaders with
  | Ok records => records
  | Raise _ => []
  end.


(** The uploader that the fetched data give for a URL: [None] when the
    data of the URL are [None]. *)
Definition uploader_of (video_data : option (option Typing.VideoData)) : pyval :=
  match video_data with
  | Some (Some v) => Typing.uploader v
  | _ => PNone
  end.

(** The uploader as a record shows it. *)
Definition shown_uploader (u : pyval) : pyval :=
  match u with
  | PNone => PStr ""
  | _ => u
  end.

End Spec.

(** ** Vocabulary for the remaining functions *)

Module SpecRest.

Import Date DateRest Top10Calc Spec.

(** A date that the [datetime] constructor accepts. *)
Definition is_datetime (dt : datetime) : bool :=
  is_ok (datetime_of (year dt) (month dt) (day dt)
           (hour dt) (minute dt) (second dt) (microsecond dt) (tzinfo_of dt)).

(** What the round trip needs to know about the text of a year. *)
Definition year_check (k : nat) : bool :=
  let y := Z.of_nat k in
  let text := zfill 4 (str_of_int y) in
  Spec.is_number (str_of_int y)
  && match int text with Ok z => z =? y | Raise _ => false end
  && (length text =? 4)%nat
  && forallb is_digit text.

(** What the reader needs from the text of a field: it reads as the
    value, starts with a digit, and the directive takes all of it
    whatever follows. *)
Definition field_ok (re : Re.regex) (text : str) (v : Z) : Prop :=
  int text = Ok v
  /\ (exists c r, text = c :: r /\ is_digit c = true)
  /\ forall rest, head (Re.run re (text ++ rest)) = Some (text, rest).

(** How often an item occurs in a list. *)
Definition occurrences {K} `{EqDecision K} (k : K) (items : list K) : nat :=
  length (filter (fun x => x = k) items).

(** A row of a shifted votes CSV: the timestamp and its annotation, then
    every title with its annotation. *)
Definition shifted_row (row : string * string * list (string * string))
  : list string :=
  row.1.1 :: row.1.2 :: concat (map (fun cell => [cell.1; cell.2]) row.2).

(** The URL that stands with the last occurrence of a title among the
    paired cells. *)
Definition last_url (pairs : list (string * string)) (title : string)
  : option string :=
  snd <$> last (filter (fun pair => pair.1 = title) pairs).

(** One ballot that gives every title another number of votes. *)
Definition example_untied_rows : list (list string) :=
  [["a"; "a"; "a"; "b"; "b"; "c"]]%string.

Definition example_untied_records : list RankedRecord :=
  match calc_ranked_records example_rand example_untied_rows
          example_titles_to_urls example_titles_to_uploaders with
  | Ok records => records
  | Raise _ => []
  end.

(** The URL table of the four ballots, and fetched data that also have a
    key for the blank cells. *)
Definition example_url_rows : list (list string) :=
  [["ua"; "ub"; "uc"; "ud"; "ue"]; ["ua"; "ub"; "uc"; "ud"; "uf"];
   [""; ""; ""; ""; ""]; ["ua"; "ub"; "uc"; "ud"; "ue"; "ug"]]%string.

Definition example_fetched_data : gmap string (option Typing.VideoData) :=
  <[""%string := None]> example_videos_data.

(** An archive record of April 2019, and one whose month is a word. *)
Definition example_archive_record : Typing.ArchiveRecord :=
  {| Typing.month := "4"; Typing.year := "2019"; Typing.archive_title := "A";
     Typing.archive_uploader := "B"; Typing.url := "C";
     Typing.percentage := "50.0000%"; Typing.total_votes := "5";
     Typing.notes := "" |}.

Definition example_malformed_record : Typing.ArchiveRecord :=
  {| Typing.month := "April"; Typing.year := "2019";
     Typing.archive_title := "A"; Typing.archive_uploader := "B";
     Typing.url := "C"; Typing.percentage := "50.0000%";
     Typing.total_votes := "5"; Typing.notes := "" |}.

(** Sites whose response is passed on as it is: the site, the platform
    of the record, the key of the response that gives the uploader, and
    the diagnostics printed. *)
Definition passed_on_sites
  : list (string * string * string * list Messages.diagnostic) :=
  [("pony", "Ponytube", "channel", []);
   ("thishorsie", "Thishorsierocks", "channel", []);
   ("newgrounds", "Newgrounds", "uploader", [Messages.NewgroundsHasNoDuration]);
   ("bilibili", "Bilibili", "uploader", [])]%string.

(** A response of Bluesky. *)
Definition example_bluesky_response : gmap string pyval :=
  {[ "title" := PStr "a post"; "uploader_id" := PStr "alice.bsky.social";
     "duration" := PInt 12 ]}.

(** The data of a video as [request] returns them. *)
Definition example_video_data : Typing.VideoData :=
  {| Typing.title := PStr "a"; Typing.uploader := PStr "uploader";
     Typing.upload_date := PStr "20240401"; Typing.duration := PInt 60;
     Typing.platform := PStr "Site" |}.

End SpecRest.

(** ** Facts about the Python primitives *)

Module PyFacts.

Import Spec.

(** The characters of a text literal, and the text of its characters. *)
Ltac eval_chars :=
  repeat match goal with
  | |- context [text (chars (String ?a ?s))] =>
      let v := eval vm_compute in (text (chars (String a s))) in
      change (text (chars (String a s))) with v
  | |- context [chars (String ?a ?s)] =>
      let v := eval vm_compute in (chars (String a s)) in
      change (chars (String a s)) with v
  end.

Ltac eval_chars_in H :=
  repeat match type of H with
  | context [chars (String ?a ?s)] =>
      let v := eval vm_compute in (chars (String a s)) in
      change (chars (String a s)) with v in H
  end.

Lemma is_space_spec c : is_space c = true <-> c ∈ whitespace.
Proof. unfold is_space. apply bool_decide_eq_true. Qed.

Lemma digit_not_space c : is_digit c = true -> is_space c = false.
Proof.
  intros Hc. destruct (is_space c) eqn:Hs; [|done].
  apply is_space_spec in Hs. unfold whitespace in Hs.
  repeat (apply elem_of_cons in Hs as [->|Hs]; [by vm_compute in Hc|]).
  by apply elem_of_nil in Hs.
Qed.

Lemma digit_not_int_space c : is_digit c = true -> is_int_space c = false.
Proof. intros Hc. unfold is_int_space. by rewrite digit_not_space. Qed.

Lemma digit_not_sign c :
  is_digit c = true -> c <> "+"%char /\ c <> "-"%char /\ c <> "_"%char.
Proof. intros Hc. repeat split; intros ->; by vm_compute in Hc. Qed.

Lemma digit_not_letter c :
  is_digit c = true ->
  c <> "H"%char /\ c <> "M"%char /\ c <> "S"%char /\ c <> "/"%char
  /\ c <> ":"%char /\ c <> " "%char /\ c <> "010"%char.
Proof. intros Hc. repeat split; intros ->; by vm_compute in Hc. Qed.

(** The value of a digit is a number from 0 to 9. *)
Lemma digit_value_range c : 0 <= digit_value c <= 9.
Proof.
  unfold digit_value. destruct (find _ _) as [zero|] eqn:Hfind; [|lia].
  apply find_some in Hfind as [_ Hin]. unfold in_digits_from in Hin.
  apply andb_prop in Hin as [?%N.leb_le ?%N.ltb_lt]. lia.
Qed.

Lemma is_number_spec ds :
  is_number ds = true <-> ds <> [] /\ Forall (fun c => is_digit c = true) ds.
Proof.
  unfold is_number. rewrite andb_true_iff, negb_true_iff, bool_decide_eq_false.
  rewrite forallb_forall, Forall_forall.
  split; intros [? H]; split; auto; intros c Hc; apply H;
    by apply list_elem_of_In.
Qed.

Lemma is_number_cons ds :
  is_number ds = true ->
  exists c ds', ds = c :: ds' /\ is_digit c = true
                /\ Forall (fun c => is_digit c = true) ds'.
Proof.
  rewrite is_number_spec. intros [Hne Hall].
  destruct ds as [|c ds']; [done|].
  inversion Hall; subst. eauto.
Qed.

Section Strip.

Variable blank : char -> bool.

Lemma lstrip_by_id c s : blank c = false -> lstrip_by blank (c :: s) = c :: s.
Proof. intros H. simpl. by rewrite H. Qed.

Lemma rstrip_by_id s c :
  blank c = false -> rstrip_by blank (s ++ [c]) = s ++ [c].
Proof.
  intros H. unfold rstrip_by. rewrite rev_app_distr. simpl.
  rewrite H. simpl. by rewrite rev_involutive.
Qed.

Lemma strip_by_id c s d :
  blank c = false -> blank d = false ->
  strip_by blank (c :: s ++ [d]) = c :: s ++ [d].
Proof.
  intros Hc Hd. unfold strip_by. rewrite lstrip_by_id by done.
  change (c :: s ++ [d]) with ((c :: s) ++ [d]). by apply rstrip_by_id.
Qed.

Lemma strip_by_singleton c : blank c = false -> strip_by blank [c] = [c].
Proof.
  intros H. unfold strip_by. rewrite lstrip_by_id by done.
  by apply (rstrip_by_id [] c).
Qed.

Lemma lstrip_by_head s c r : lstrip_by blank s = c :: r -> blank c = false.
Proof.
  induction s as [|x s IH]; simpl; [done|].
  destruct (blank x) eqn:Hx; [done|]. by intros [= <- _].
Qed.

Lemma strip_by_last s u c : strip_by blank s = u ++ [c] -> blank c = false.
Proof.
  unfold strip_by, rstrip_by. intros H.
  apply (f_equal (@rev char)) in H. rewrite rev_involutive, rev_unit in H.
  by eapply lstrip_by_head.
Qed.

Lemma lstrip_by_keeps_last s c :
  blank c = false -> exists u, lstrip_by blank (s ++ [c]) = u ++ [c].
Proof.
  intros Hc. induction s as [|x s IH]; cbn [lstrip_by app].
  - rewrite Hc. by exists [].
  - destruct (blank x); [done|]. by exists (x :: s).
Qed.

End Strip.

Lemma lstrip_id c s : is_space c = false -> lstrip (c :: s) = c :: s.
Proof. apply lstrip_by_id. Qed.

Lemma rstrip_id s c : is_space c = false -> rstrip (s ++ [c]) = s ++ [c].
Proof. apply rstrip_by_id. Qed.

(** Stripping leaves a text alone when it starts and ends with a
    non-blank character. *)
Lemma strip_id c s d :
  is_space c = false -> is_space d = false ->
  strip (c :: s ++ [d]) = c :: s ++ [d].
Proof. apply strip_by_id. Qed.

Lemma strip_singleton c : is_space c = false -> strip [c] = [c].
Proof. apply strip_by_singleton. Qed.

Lemma number_ends ds :
  is_number ds = true ->
  (exists c, ds = [c] /\ is_digit c = true)
  \/ (exists c s d, ds = c :: s ++ [d] /\ is_digit c = true /\ is_digit d = true).
Proof.
  intros H. destruct (is_number_cons _ H) as (c & ds' & -> & Hc & Hall).
  destruct ds' as [|x ds'] using rev_ind; [left; eauto|].
  right. exists c, ds', x. repeat split; auto.
  apply Forall_app in Hall as [_ Hx]. by inversion Hx.
Qed.

Lemma strip_by_number blank ds :
  (forall c, is_digit c = true -> blank c = false) ->
  is_number ds = true -> strip_by blank ds = ds.
Proof.
  intros Hblank H.
  destruct (number_ends _ H) as [(c & -> & Hc)|(c & s & d & -> & Hc & Hd)].
  - by apply strip_by_singleton, Hblank.
  - by apply strip_by_id; apply Hblank.
Qed.

Lemma strip_number ds : is_number ds = true -> strip ds = ds.
Proof. apply strip_by_number, digit_not_space. Qed.

Lemma int_digits_decimal ds acc :
  Forall (fun c => is_digit c = true) ds ->
  int_digits acc ds = Some (fold_left (fun a c => a * 10 + digit_value c) ds acc).
Proof.
  intros H. revert acc. induction H as [|c ds Hc _ IH]; intros acc; [done|].
  simpl. rewrite Hc. apply IH.
Qed.

(** A text that starts with neither sign is read as it stands. *)
Lemma int_literal_unsigned c r :
  c <> "+"%char -> c <> "-"%char ->
  int_literal (c :: r) = int_unsigned (c :: r).
Proof.
  intros Hplus Hminus. unfold int_literal.
  destruct c as [|p]; [done|].
  do 7 (try reflexivity; try congruence; destruct p as [p|p|]);
    try reflexivity; congruence.
Qed.

(** [int] reads a number as its decimal value. *)
Lemma int_number ds : is_number ds = true -> int ds = Ok (decimal ds).
Proof.
  intros H. unfold int.
  rewrite (strip_by_number _ _ digit_not_int_space H).
  destruct (is_number_cons _ H) as (c & ds' & -> & Hc & Hall).
  destruct (digit_not_sign _ Hc) as (Hplus & Hminus & _).
  rewrite int_literal_unsigned by done.
  simpl. rewrite Hc. unfold decimal. simpl. by rewrite int_digits_decimal.
Qed.

Lemma split_no_sep sep s : sep ∉ s -> split sep s = [s].
Proof.
  induction s as [|c s IH]; intros H; [done|].
  apply not_elem_of_cons in H as [Hne Hs]. simpl.
  destruct (N.eq_dec c sep); [congruence|]. by rewrite IH.
Qed.

Lemma split_at_sep sep a b :
  sep ∉ a -> split sep (a ++ sep :: b) = a :: split sep b.
Proof.
  induction a as [|c a IH]; intros H; simpl.
  - by destruct (N.eq_dec sep sep).
  - apply not_elem_of_cons in H as [Hne Ha].
    destruct (N.eq_dec c sep); [congruence|]. by rewrite IH.
Qed.

Lemma contains_true c s : c ∈ s -> contains c s = true.
Proof. intros. by apply bool_decide_eq_true. Qed.

Lemma contains_false c s : c ∉ s -> contains c s = false.
Proof. intros. by apply bool_decide_eq_false. Qed.

Lemma remove_char_end c ds : c ∉ ds -> remove_char c (ds ++ [c]) = ds.
Proof.
  intros H. unfold remove_char. rewrite filter_app.
  rewrite (filter_cons_False _ c []) by tauto. rewrite filter_nil, app_nil_r.
  induction ds as [|x ds IH]; [done|].
  apply not_elem_of_cons in H as [Hne Hds].
  rewrite filter_cons_True by congruence. by rewrite IH.
Qed.


Lemma rfind_from_absent c s i found : c ∉ s -> rfind_from c s i found = found.
Proof.
  revert i found. induction s as [|x s IH]; intros i found H; [done|].
  apply not_elem_of_cons in H as [Hne Hs]. simpl.
  destruct (N.eq_dec x c); [congruence|]. by apply IH.
Qed.

Lemma rfind_from_last c pre post i found :
  c ∉ post ->
  rfind_from c (pre ++ c :: post) i found = i + Z.of_nat (length pre).
Proof.
  intros Hpost. revert i found.
  induction pre as [|x pre IH]; intros i found; simpl.
  - destruct (N.eq_dec c c); [|done]. rewrite rfind_from_absent by done. lia.
  - rewrite IH. lia.
Qed.

(** [rfind] gives the position of the last occurrence. *)
Lemma rfind_last c pre post :
  c ∉ post -> rfind c (pre ++ c :: post) = Z.of_nat (length pre).
Proof. intros H. unfold rfind. by rewrite rfind_from_last. Qed.

Lemma slice_bound_in_range (s : str) (i : nat) :
  (i <= length s)%nat -> slice_bound s (Z.of_nat i) = i.
Proof.
  intros H. unfold slice_bound.
  destruct (Z.ltb_spec (Z.of_nat i) 0); lia.
Qed.

(** [(pre ++ post)[0:len(pre)]] and [(pre ++ post)[len(pre):]] *)
Lemma slice_prefix (pre post : str) :
  slice (pre ++ post) 0 (Z.of_nat (length pre)) = pre.
Proof.
  unfold slice. rewrite (slice_bound_in_range _ (length pre))
    by (rewrite length_app; lia).
  change 0 with (Z.of_nat 0). rewrite slice_bound_in_range by lia.
  rewrite drop_0, Nat.sub_0_r. by rewrite take_app_length.
Qed.

Lemma slice_from_suffix (pre post : str) :
  slice_from (pre ++ post) (Z.of_nat (length pre)) = post.
Proof.
  unfold slice_from. rewrite (slice_bound_in_range _ (length pre))
    by (rewrite length_app; lia).
  by rewrite drop_app_length.
Qed.

Lemma startswith_app p s : startswith p (p ++ s) = true.
Proof.
  induction p as [|c p IH]; [done|]. simpl. by destruct (N.eq_dec c c).
Qed.

Lemma endswith_app p s : endswith p (s ++ p) = true.
Proof. unfold endswith. rewrite rev_app_distr. apply startswith_app. Qed.

(** Writing a text of ASCII characters and reading it gives it back. *)
Lemma chars_text (l : str) :
  Forall (fun c => (c < 128)%N) l -> chars (text l) = l.
Proof.
  intros Hl. unfold chars, text. rewrite list_ascii_of_string_of_list_ascii.
  induction Hl as [|c l Hc _ IH]; [done|].
  cbn [map concat]. unfold utf8_encode at 1.
  apply N.ltb_lt in Hc as Hlt. rewrite Hlt. cbn [app map utf8_decode].
  rewrite N_ascii_embedding by lia. by rewrite Hlt, IH.
Qed.

Lemma digits_of_ascii fuel n acc :
  Forall (fun c => (c < 128)%N) acc ->
  Forall (fun c => (c < 128)%N) (digits_of fuel n acc).
Proof.
  revert n acc. induction fuel as [|fuel IH]; intros n acc Hacc; [done|].
  cbn [digits_of].
  assert (Forall (fun c => (c < 128)%N) (digit_char (n mod 10) :: acc)).
  { constructor; [|done]. unfold digit_char.
    pose proof (N.mod_upper_bound n 10). lia. }
  destruct (n / 10 =? 0)%N; [done|]. by apply IH.
Qed.

Lemma str_of_int_ascii z : Forall (fun c => (c < 128)%N) (str_of_int z).
Proof.
  unfold str_of_int. destruct (z <? 0).
  - constructor; [done|]. by apply digits_of_ascii.
  - by apply digits_of_ascii.
Qed.

Lemma zfill_ascii n s :
  Forall (fun c => (c < 128)%N) s -> Forall (fun c => (c < 128)%N) (zfill n s).
Proof.
  intros Hs.
  assert (Hpad : forall k, Forall (fun c => (c < 128)%N)
                             (replicate k "0"%char)).
  { intros k. apply Forall_forall. by intros x [-> _]%elem_of_replicate. }
  unfold zfill. destruct Hs as [|c r Hc Hr]; [apply Hpad|].
  repeat case_match; repeat (constructor || apply Forall_app); auto.
Qed.

End PyFacts.

(** ** Facts about the matcher *)

Module ReFacts.

Import Re.

Lemma bind_cons_nil {A B} (k : A -> list B) x l :
  (forall y, y ∈ l -> k y = []) -> (x :: l) ≫= k = k x.
Proof.
  intros H. cbn. rewrite <- (app_nil_r (k x)) at 2. f_equal.
  induction l as [|y l IH]; [done|]. cbn.
  rewrite (H y) by left. apply IH. intros z Hz. apply H. by right.
Qed.

(** What a greedy repetition yields: some non-empty prefix made of
    characters of the class. *)
Lemma plus_run_sound p s m r :
  (m, r) ∈ plus_run p s -> s = m ++ r /\ m <> [] /\ Forall (fun c => p c = true) m.
Proof.
  revert m r. induction s as [|c s IH]; intros m r; simpl.
  - by intros ?%elem_of_nil.
  - destruct (p c) eqn:Hc; [|by intros ?%elem_of_nil].
    intros [Hin|Hin%list_elem_of_singleton]%elem_of_app.
    + apply list_elem_of_fmap in Hin as ([m' r'] & [= -> ->] & Hin).
      destruct (IH _ _ Hin) as (-> & _ & Hall). simpl. auto.
    + injection Hin as -> ->. auto.
Qed.

(** Its first answer is the longest; every other answer stops in front of
    a character of the class. *)
Lemma plus_run_longest p ds rest :
  ds <> [] -> Forall (fun c => p c = true) ds ->
  (forall c rest', rest = c :: rest' -> p c = false) ->
  exists others,
    plus_run p (ds ++ rest) = (ds, rest) :: others
    /\ forall m r, (m, r) ∈ others -> exists c r', r = c :: r' /\ p c = true.
Proof.
  intros Hne Hall Hrest.
  assert (Hnil : plus_run p rest = []).
  { destruct rest as [|c rest']; [done|]. simpl. by rewrite (Hrest c rest'). }
  induction Hall as [|c ds Hc Hall IH]; [done|].
  destruct ds as [|d ds].
  - exists []. simpl. rewrite Hc, Hnil. split; [done|].
    by intros m r ?%elem_of_nil.
  - destruct IH as (others & Heq & Hothers); [done|].
    change ((c :: d :: ds) ++ rest) with (c :: (d :: ds) ++ rest).
    cbn [plus_run]. rewrite Hc, Heq. cbn [map fst snd app].
    eexists. split; [reflexivity|].
    intros m r [Hin|Hin%list_elem_of_singleton]%elem_of_app.
    + apply list_elem_of_fmap in Hin as ([m' r'] & [= -> ->] & Hin). eauto.
    + injection Hin as -> ->. inversion Hall; subst. simpl. eauto.
Qed.

Lemma run_Lit_cons c s : run (Lit c) (c :: s) = [([c], s)].
Proof. simpl. by rewrite bool_decide_eq_true_2. Qed.

Lemma run_Lit_other c x s : x <> c -> run (Lit c) (x :: s) = [].
Proof. intros. simpl. by rewrite bool_decide_eq_false_2. Qed.

Lemma run_Lit_sound c s m r : (m, r) ∈ run (Lit c) s -> s = c :: r /\ m = [c].
Proof.
  destruct s as [|x s]; simpl; [by intros ?%elem_of_nil|].
  case_bool_decide; [|by intros ?%elem_of_nil].
  intros [= -> ->]%list_elem_of_singleton. by subst.
Qed.

Lemma run_Eos_sound s m r :
  (m, r) ∈ run Eos s -> m = [] /\ r = s /\ (s = [] \/ s = ["010"%char]).
Proof.
  destruct s as [|x [|y s]]; simpl.
  - intros [= -> ->]%list_elem_of_singleton. auto.
  - destruct (N.eq_dec x "010"%char); [|by intros ?%elem_of_nil].
    intros [= -> ->]%list_elem_of_singleton. subst. auto.
  - by intros ?%elem_of_nil.
Qed.

Lemma run_items_cons_sound re items s gs r :
  (gs, r) ∈ run_items (re :: items) s ->
  exists m r1 gs', gs = m :: gs' /\ (m, r1) ∈ run re s
                   /\ (gs', r) ∈ run_items items r1.
Proof.
  cbn [run_items].
  intros ([m r1] & ([gs' r'] & Hin & Hgs)%list_elem_of_bind & Hm)%list_elem_of_bind.
  apply list_elem_of_singleton in Hin. injection Hin as -> ->.
  exists m, r1, gs'. auto.
Qed.

(** A number followed by a separator that is no digit: the matcher takes
    the whole number, and nothing else works. *)
Lemma run_items_number p sep items ds rest :
  ds <> [] -> Forall (fun c => p c = true) ds -> p sep = false ->
  run_items (Plus p :: Lit sep :: items) (ds ++ sep :: rest)
  = map (fun gr => (ds :: [sep] :: fst gr, snd gr)) (run_items items rest).
Proof.
  intros Hne Hall Hsep.
  destruct (plus_run_longest p ds (sep :: rest) Hne Hall) as (others & Heq & Hothers).
  { intros c rest' [= <- <-]. done. }
  cbn [run_items run]. rewrite Heq. rewrite bind_cons_nil.
  - cbn [snd fst]. rewrite run_Lit_cons. cbn. rewrite app_nil_r.
    induction (run_items items rest) as [|[gs r] l IH]; [done|].
    cbn. f_equal. apply IH.
  - intros [m r] Hin. destruct (Hothers _ _ Hin) as (c & r' & -> & Hc).
    cbn [snd]. rewrite run_Lit_other by congruence. done.
Qed.

(** The last number, in front of the end of the text. *)
Lemma run_items_number_end p ds :
  ds <> [] -> Forall (fun c => p c = true) ds -> p "010"%char = false ->
  run_items [Plus p; Eos] ds = [([ds; []], [])].
Proof.
  intros Hne Hall Hnl.
  destruct (plus_run_longest p ds [] Hne Hall) as (others & Heq & Hothers).
  { intros c rest' [=]. }
  rewrite app_nil_r in Heq.
  cbn [run_items run]. rewrite Heq. rewrite bind_cons_nil; [done|].
  intros [m r] Hin. destruct (Hothers _ _ Hin) as (c & r' & -> & Hc).
  cbn [snd]. destruct r' as [|y r']; [|done].
  destruct (N.eq_dec c "010"%char) as [->|_]; [congruence|done].
Qed.

End ReFacts.

(** ** Properties of functions/date.py *)

Module DateSpec.

Import Date Re Spec PyFacts ReFacts.

Lemma number_no_designator c ds :
  is_digit c = false -> is_number ds = true -> c ∉ ds.
Proof.
  intros Hc [_ Hall]%is_number_spec Hin.
  rewrite Forall_forall in Hall. specialize (Hall _ Hin). congruence.
Qed.

Lemma component_no_designator c d a :
  is_digit c = false -> c <> d -> component_ok a = true -> c ∉ component d a.
Proof.
  intros Hc Hne Hok. destruct a as [ds|]; simpl in *.
  - intros [Hin|Hin%list_elem_of_singleton]%elem_of_app; [|done].
    by apply (number_no_designator c ds).
  - apply not_elem_of_nil.
Qed.

(** One of the two [split] stages of the conversion: the amount in front
    of the designator is read, the text after it is kept. *)
Lemma split_stage d a tail :
  is_digit d = false -> component_ok a = true -> d ∉ tail ->
  (if contains d (component d a ++ tail)
   then '(part, rest) ← unpack2 (split d (component d a ++ tail));
        amount ← int part; Ok (amount, rest)
   else Ok (0, component d a ++ tail))
  = Ok (component_value a, tail).
Proof.
  intros Hd Hok Htail.
  destruct a as [ds|]; cbn [component component_ok component_value] in *.
  - rewrite contains_true by set_solver.
    rewrite <- app_assoc. cbn [app].
    rewrite split_at_sep by by apply number_no_designator.
    rewrite split_no_sep by done. cbn.
    by rewrite int_number.
  - by rewrite contains_false.
Qed.

Lemma seconds_stage a :
  component_ok a = true ->
  (if contains "S" (component "S" a)
   then int (remove_char "S" (component "S" a)) else Ok 0)
  = Ok (component_value a).
Proof.
  intros Hok.
  destruct a as [ds|]; cbn [component component_ok component_value] in *.
  - rewrite contains_true by set_solver.
    rewrite remove_char_end by by apply number_no_designator.
    by apply int_number.
  - by rewrite contains_false by apply not_elem_of_nil.
Qed.

(** C4. For every duration text made of the marker [PT] followed by an
    optional hour, an optional minute and an optional second component, in
    this order, [convert_iso8601_duration_to_seconds] returns
    hours * 3600 + minutes * 60 + seconds, an absent component counting as
    zero; and the four texts of the specification give 3723, 45, 600
    and 0. *)
Theorem convert_iso8601_duration_to_seconds_sum :
  (forall h m s : option str,
      component_ok h = true -> component_ok m = true ->
      component_ok s = true ->
      convert_iso8601_duration_to_seconds (iso8601_duration h m s)
      = Ok (component_value h * 3600 + component_value m * 60
            + component_value s))
  /\ convert_iso8601_duration_to_seconds (chars "PT1H2M3S") = Ok 3723
  /\ convert_iso8601_duration_to_seconds (chars "PT45S") = Ok 45
  /\ convert_iso8601_duration_to_seconds (chars "PT10M") = Ok 600
  /\ convert_iso8601_duration_to_seconds (chars "PT0S") = Ok 0.
Proof.
  split; [|by vm_compute].
  intros h m s Hh Hm Hs.
  unfold convert_iso8601_duration_to_seconds, iso8601_duration.
  change (startswith (chars "PT") (chars "PT" ++ ?x)) with true.
  change (slice_from (chars "PT" ++ ?x) 2) with (drop (slice_bound (chars "PT" ++ x) 2) (chars "PT" ++ x)).
  assert (Hb : forall x : str, slice_bound (chars "PT" ++ x) 2 = 2%nat).
  { intros x. unfold slice_bound. change (2 <? 0) with false.
    eval_chars. cbn [app length]. lia. }
  rewrite Hb. simpl drop. rewrite !drop_0.
  rewrite split_stage; [|done|done|].
  2:{ intros [?|?]%elem_of_app;
        by eapply (component_no_designator "H"); [..|eassumption]. }
  simpl.
  rewrite split_stage; [|done|done|].
  2:{ by eapply (component_no_designator "M"). }
  simpl. rewrite seconds_stage by done. done.
Qed.

Lemma convert_iso8601_duration_to_seconds_sum_witness :
  convert_iso8601_duration_to_seconds
    (iso8601_duration (Some (chars "12")) None (Some (chars "07")))
  = Ok (component_value (Some (chars "12")) * 3600
        + component_value None * 60 + component_value (Some (chars "07"))).
Proof.
  apply (proj1 convert_iso8601_duration_to_seconds_sum); reflexivity.
Defined.


Lemma check_field_ok field lo hi v :
  lo <= v <= hi -> check_field field lo hi v = Ok ().
Proof.
  intros H. unfold check_field.
  destruct (Z.leb_spec lo v), (Z.leb_spec v hi); simpl; auto; lia.
Qed.

Lemma days_in_month_pos y m : 1 <= 1 <= days_in_month y m.
Proof.
  unfold days_in_month.
  repeat match goal with |- context [if ?b then _ else _] => destruct b end; lia.
Qed.

(** The constructor accepts the first instant of every month of the
    years 1 to 9999. *)
Lemma datetime_new_first_instant y m tz :
  1 <= y <= 9999 -> 1 <= m <= 12 ->
  datetime_new y m 1 0 0 0 tz = Ok (first_instant y m tz).
Proof.
  intros Hy Hm. unfold datetime_new, datetime_of.
  rewrite !check_field_ok by (apply days_in_month_pos || lia). done.
Qed.

Lemma get_month_year_bounds_ok m y lenient :
  1 <= m <= 12 -> 1 <= y <= 9999 -> (m, y) <> (12, 9999) ->
  get_month_year_bounds m y lenient
  = Ok (first_instant y m (if lenient then Some Etc_GMT_minus_14 else None),
        first_instant (following_month m y).2 (following_month m y).1
          (if lenient then Some Etc_GMT_plus_12 else None)).
Proof.
  intros Hm Hy Hne. unfold get_month_year_bounds, following_month.
  rewrite datetime_new_first_instant by done. cbn [mbind result_bind Py.bind].
  change (replace (first_instant y m ?tz) ?y' ?m' ?tz')
    with (datetime_new y' m' 1 0 0 0 tz').
  cbn [year month first_instant].
  destruct (Z.ltb_spec m 12), (Z.eqb_spec m 12); try lia.
  - rewrite datetime_new_first_instant by lia. done.
  - subst m. assert (y <> 9999) by congruence.
    rewrite datetime_new_first_instant by lia. done.
Qed.

(** C6 (amended). For every month 1..12 of a year 1..9999 other than
    December 9999, [get_month_year_bounds] in strict mode returns the
    first instant of the month and the first instant of the following
    month (January of the next year after December), both without time
    zone; in lenient mode it returns the same calendar instants, the
    lower one in UTC+14 and the upper one in UTC-12. *)
Theorem get_month_year_bounds_interval (m y : Z) :
  1 <= m <= 12 -> 1 <= y <= 9999 -> (m, y) <> (12, 9999) ->
  let (m', y') := following_month m y in
  get_month_year_bounds m y false
  = Ok (first_instant y m None, first_instant y' m' None)
  /\ get_month_year_bounds m y true
     = Ok (first_instant y m (Some Etc_GMT_minus_14),
           first_instant y' m' (Some Etc_GMT_plus_12))
  /\ utcoffset_minutes Etc_GMT_minus_14 = 14 * 60
  /\ utcoffset_minutes Etc_GMT_plus_12 = - (12 * 60)
  /\ (m = 12 -> (m', y') = (1, y + 1))
  /\ (m < 12 -> (m', y') = (m + 1, y)).
Proof.
  intros Hm Hy Hne.
  pose proof (get_month_year_bounds_ok m y false Hm Hy Hne) as Hstrict.
  pose proof (get_month_year_bounds_ok m y true Hm Hy Hne) as Hlenient.
  destruct (following_month m y) as [m' y'] eqn:Hf.
  repeat split; try done.
  - intros ->. by rewrite <- Hf.
  - intros Hlt. rewrite <- Hf. unfold following_month.
    destruct (Z.eqb_spec m 12); [lia|done].
Qed.

Lemma get_month_year_bounds_interval_witness :
  let (m', y') := following_month 3 2024 in
  get_month_year_bounds 3 2024 false
  = Ok (first_instant 2024 3 None, first_instant y' m' None)
  /\ get_month_year_bounds 3 2024 true
     = Ok (first_instant 2024 3 (Some Etc_GMT_minus_14),
           first_instant y' m' (Some Etc_GMT_plus_12))
  /\ utcoffset_minutes Etc_GMT_minus_14 = 14 * 60
  /\ utcoffset_minutes Etc_GMT_plus_12 = - (12 * 60)
  /\ (3 = 12 -> (m', y') = (1, 2024 + 1))
  /\ (3 < 12 -> (m', y') = (3 + 1, 2024)).
Proof.
  apply (get_month_year_bounds_interval 3 2024); [lia | lia | congruence].
Defined.

(** C6, as stated, fails for December 9999: the month and the year are
    valid, and the function raises instead of returning an interval,
    because the following month lies outside the years a [datetime] can
    hold. *)
Lemma get_month_year_bounds_december_9999 :
  (1 <= 12 <= 12 /\ 1 <= 9999 <= 9999)
  /\ is_ok (datetime_new 9999 12 1 0 0 0 None) = true
  /\ get_month_year_bounds 12 9999 false
     = Raise (ValueError (FieldOutOfRange "year" 10000))
  /\ get_month_year_bounds 12 9999 true
     = Raise (ValueError (FieldOutOfRange "year" 10000)).
Proof. repeat split; lia || reflexivity. Qed.


(** *** The votes-CSV timestamp *)

Lemma number_last ds :
  is_number ds = true -> exists ds' d, ds = ds' ++ [d] /\ is_digit d = true.
Proof.
  intros [(c & -> & Hc)|(c & s & d & -> & _ & Hd)]%number_ends.
  - by exists [], c.
  - by exists (c :: s), d.
Qed.

Lemma strip_between_numbers a mid f :
  is_number a = true -> is_number f = true ->
  strip (a ++ mid ++ f) = a ++ mid ++ f.
Proof.
  intros (c & a' & -> & Hc & _)%is_number_cons (f' & d & -> & Hd)%number_last.
  replace ((c :: a') ++ mid ++ f' ++ [d]) with (c :: (a' ++ mid ++ f') ++ [d])
    by (by repeat (rewrite <- app_assoc || rewrite <- app_comm_cons)).
  by apply strip_id; apply digit_not_space.
Qed.

Lemma strip_join_timestamp a b c d e f :
  is_number a = true -> is_number f = true ->
  strip (join_timestamp a b c d e f) = join_timestamp a b c d e f.
Proof.
  intros Ha Hf. unfold join_timestamp.
  pose proof (strip_between_numbers a
    ("/"%char :: b ++ "/"%char :: c ++ " "%char :: d ++ ":"%char :: e ++ [":"%char])
    f Ha Hf) as H.
  by repeat (rewrite <- app_assoc in H || rewrite <- app_comm_cons in H).
Qed.

Lemma lstrip_head s c r : lstrip s = c :: r -> is_space c = false.
Proof. apply lstrip_by_head. Qed.

(** A stripped text does not end with a blank. *)
Lemma strip_last s u c : strip s = u ++ [c] -> is_space c = false.
Proof. apply strip_by_last. Qed.

Lemma zfill_number n ds :
  is_number ds = true ->
  zfill n ds = replicate (n - length ds) "0"%char ++ ds.
Proof.
  intros (c & r & -> & Hc & _)%is_number_cons. unfold zfill.
  destruct (digit_not_sign _ Hc) as (Hplus & Hminus & _).
  destruct (N.eq_dec c "+"%char); [done|]. by destruct (N.eq_dec c "-"%char).
Qed.

Lemma zfill_is_number n ds : is_number ds = true -> is_number (zfill n ds) = true.
Proof.
  intros H. rewrite zfill_number by done.
  apply is_number_spec in H as [Hne Hall]. apply is_number_spec. split.
  - by destruct (replicate _ _), ds.
  - apply Forall_app. split; [|done].
    apply Forall_forall. by intros x [-> _]%elem_of_replicate.
Qed.

Lemma zfill_long n ds :
  is_number ds = true -> (n <= length ds)%nat -> zfill n ds = ds.
Proof.
  intros H Hlen. rewrite zfill_number by done.
  by replace (n - length ds)%nat with 0%nat by lia.
Qed.

(** Padding a padded number changes nothing. *)
Lemma zfill_idempotent n ds :
  is_number ds = true -> zfill n (zfill n ds) = zfill n ds.
Proof.
  intros H. apply zfill_long; [by apply zfill_is_number|].
  rewrite zfill_number by done. rewrite length_app, length_replicate. lia.
Qed.

Lemma number_parts ds :
  is_number ds = true -> ds <> [] /\ Forall (fun c => is_digit c = true) ds.
Proof. by intros ?%is_number_spec. Qed.

(** The pattern matches a text of the shape in exactly one way. *)
Lemma match_timestamp_pattern a b c d e f :
  is_number a = true -> is_number b = true -> is_number c = true ->
  is_number d = true -> is_number e = true -> is_number f = true ->
  groups (match_items timestamp_pattern (join_timestamp a b c d e f))
  = Some [a; b; c; d; e; f].
Proof.
  intros [? ?]%number_parts [? ?]%number_parts [? ?]%number_parts
         [? ?]%number_parts [? ?]%number_parts [? ?]%number_parts.
  unfold match_items, timestamp_pattern, join_timestamp.
  rewrite !run_items_number by done.
  rewrite run_items_number_end by done. done.
Qed.

Lemma groups_sound t l :
  groups (match_items timestamp_pattern t) = Some l ->
  exists a b c d e f tail,
    l = [a; b; c; d; e; f]
    /\ is_number a = true /\ is_number b = true /\ is_number c = true
    /\ is_number d = true /\ is_number e = true /\ is_number f = true
    /\ t = join_timestamp a b c d e f ++ tail
    /\ (tail = [] \/ tail = ["010"%char]).
Proof.
  unfold match_items. destruct (head _) as [[gs r]|] eqn:Hhead; [|done].
  apply head_Some in Hhead as [rest Hrun].
  assert (Hin : (gs, r) ∈ run_items timestamp_pattern t)
    by (rewrite Hrun; left).
  clear Hrun. unfold timestamp_pattern in Hin.
  repeat match goal with
  | H : (_, _) ∈ run_items (_ :: _) _ |- _ =>
      apply run_items_cons_sound in H as (? & ? & ? & -> & ? & ?)
  | H : (_, _) ∈ run (Plus _) _ |- _ =>
      apply plus_run_sound in H as (-> & ? & ?)
  | H : (_, _) ∈ run (Lit _) _ |- _ =>
      apply run_Lit_sound in H as (-> & ->)
  | H : (_, _) ∈ run Eos _ |- _ =>
      apply run_Eos_sound in H as (-> & -> & ?)
  | H : (_, _) ∈ run_items [] _ |- _ =>
      apply list_elem_of_singleton in H; injection H as -> ->
  end.
  cbn [groups]. intros [= <-].
  do 7 eexists. split; [reflexivity|].
  repeat (split; [by apply is_number_spec|]).
  split; [|eassumption].
  unfold join_timestamp.
  by repeat (rewrite <- app_assoc || rewrite <- app_comm_cons).
Qed.

(** On the stripped text, the pattern matches exactly the shape. *)
Lemma groups_strip_shape s l :
  groups (match_items timestamp_pattern (strip s)) = Some l ->
  timestamp_shape (strip s).
Proof.
  intros (a & b & c & d & e & f & tail & -> & Ha & Hb & Hc & Hd & He & Hf
          & Ht & [->| ->])%groups_sound.
  - rewrite app_nil_r in Ht. exists a, b, c, d, e, f. by repeat split.
  - apply strip_last in Ht. done.
Qed.

Lemma parse_votes_csv_timestamp_shape a b c d e f :
  is_number a = true -> is_number b = true -> is_number c = true ->
  is_number d = true -> is_number e = true -> is_number f = true ->
  parse_votes_csv_timestamp (join_timestamp a b c d e f)
  = dt ← strptime (join_timestamp (zfill 2 a) (zfill 2 b) (zfill 4 c)
                      (zfill 2 d) (zfill 2 e) (zfill 2 f));
    Ok (replace_tzinfo dt None).
Proof.
  intros Ha Hb Hc Hd He Hf. unfold parse_votes_csv_timestamp.
  rewrite strip_join_timestamp by done.
  by rewrite match_timestamp_pattern.
Qed.

End DateSpec.

(** ** Facts about insertion-ordered dictionaries and loops *)

Module DictFacts.

Ltac dict_cases :=
  cbn; repeat (case_decide; subst; cbn); try congruence; auto.

Section Dict.
Context {K V : Type} `{EqDecision K}.
Implicit Types (d : list (K * V)) (k : K) (v : V).

Lemma dict_get_set_eq k v d : dict_get k (dict_set k v d) = Some v.
Proof. induction d as [|[k' v'] d IH]; dict_cases. Qed.

Lemma dict_get_set_ne k k' v d :
  k <> k' -> dict_get k' (dict_set k v d) = dict_get k' d.
Proof. intros Hne. induction d as [|[k0 v0] d IH]; dict_cases. Qed.

Lemma dict_get_Some_keys k v d : dict_get k d = Some v -> k ∈ dict_keys d.
Proof.
  induction d as [|[k' v'] d IH]; simpl; [done|].
  destruct (decide (k' = k)) as [->|]; [left|right; auto].
Qed.

Lemma dict_get_Some_elem k v d : dict_get k d = Some v -> (k, v) ∈ d.
Proof.
  induction d as [|[k' v'] d IH]; simpl; [done|].
  destruct (decide (k' = k)) as [->|]; [intros [= ->]; left|right; auto].
Qed.

Lemma dict_get_None_keys k d : dict_get k d = None <-> k ∉ dict_keys d.
Proof.
  induction d as [|[k' v'] d IH]; simpl.
  - split; [intros _; apply not_elem_of_nil|done].
  - rewrite not_elem_of_cons. destruct (decide (k' = k)) as [->|].
    + split; [done|]. by intros [? _].
    + rewrite IH. split; [auto|]. by intros [_ ?].
Qed.

Lemma dict_keys_is_Some k d : k ∈ dict_keys d <-> is_Some (dict_get k d).
Proof.
  destruct (dict_get k d) as [v|] eqn:Hget.
  - split; [eauto|]. intros _. by eapply dict_get_Some_keys.
  - split; [|by intros [? ?]]. by intros ?%dict_get_None_keys.
Qed.

Lemma dict_get_elem k v d : NoDup (dict_keys d) -> (k, v) ∈ d -> dict_get k d = Some v.
Proof.
  induction d as [|[k' v'] d IH]; simpl; [by intros _ ?%elem_of_nil|].
  intros [Hnin Hnd]%NoDup_cons [[= -> ->]|Hin]%elem_of_cons.
  - by rewrite decide_True.
  - rewrite decide_False; [auto|]. intros ->. apply Hnin.
    apply list_elem_of_fmap. by exists (k, v).
Qed.

(** Assigning keeps the keys, or adds the new key at the end. *)
Lemma dict_keys_set k v d :
  dict_keys (dict_set k v d)
  = if decide (k ∈ dict_keys d) then dict_keys d else dict_keys d ++ [k].
Proof.
  unfold dict_keys. induction d as [|[k' v'] d IH].
  - cbn. case_decide as Hin; [by apply elem_of_nil in Hin|done].
  - cbn [dict_set]. destruct (decide (k' = k)) as [->|Hne]; cbn [fmap list_fmap fst].
    + rewrite decide_True; [done|left].
    + rewrite IH. destruct (decide (k ∈ d.*1)).
      * rewrite decide_True; [done|by right].
      * rewrite decide_False; [done|]. by intros [?|?]%elem_of_cons.
Qed.

Lemma dict_set_NoDup k v d : NoDup (dict_keys d) -> NoDup (dict_keys (dict_set k v d)).
Proof.
  intros Hnd. rewrite dict_keys_set. case_decide; [done|].
  apply NoDup_app. split_and!; [done| |apply NoDup_singleton].
  intros x Hx ->%list_elem_of_singleton. done.
Qed.

Lemma dict_del_set_eq k v d : dict_del k (dict_set k v d) = dict_del k d.
Proof. induction d as [|[k' v'] d IH]; dict_cases. Qed.

Lemma dict_del_set_ne k t v d :
  t <> k -> dict_del k (dict_set t v d) = dict_set t v (dict_del k d).
Proof. intros Hne. induction d as [|[k' v'] d IH]; dict_cases. Qed.

Lemma dict_get_del_ne k t d : t <> k -> dict_get t (dict_del k d) = dict_get t d.
Proof. intros Hne. induction d as [|[k' v'] d IH]; dict_cases. Qed.

Lemma dict_keys_del k d : dict_keys (dict_del k d) ⊆ dict_keys d.
Proof.
  induction d as [|[k' v'] d IH]; simpl; [done|].
  destruct (decide (k' = k)) as [->|]; simpl.
  - by apply list_subseteq_cons.
  - intros x [->|Hx]%elem_of_cons; [left|right; by apply IH].
Qed.

Lemma dict_del_not_in k d : NoDup (dict_keys d) -> k ∉ dict_keys (dict_del k d).
Proof.
  induction d as [|[k' v'] d IH]; simpl; [intros _; apply not_elem_of_nil|].
  intros [Hnin Hnd]%NoDup_cons. destruct (decide (k' = k)) as [->|]; [done|].
  simpl. rewrite not_elem_of_cons. auto.
Qed.

Lemma dict_del_NoDup k d : NoDup (dict_keys d) -> NoDup (dict_keys (dict_del k d)).
Proof.
  induction d as [|[k' v'] d IH]; simpl; [done|].
  intros [Hnin Hnd]%NoDup_cons. destruct (decide (k' = k)) as [->|]; [done|].
  simpl. apply NoDup_cons. split; [|auto].
  intros Hin. by apply Hnin, (dict_keys_del k).
Qed.

End Dict.

Lemma dict_get_fmap {K A B} `{EqDecision K} (f : A -> B) (k : K) (d : list (K * A)) :
  dict_get k (map (fun kv => (kv.1, f kv.2)) d) = f <$> dict_get k d.
Proof.
  induction d as [|[k' v'] d IH]; simpl; [done|]. by destruct (decide (k' = k)).
Qed.

Lemma dict_keys_fmap {K A B} (f : A -> B) (d : list (K * A)) :
  dict_keys (map (fun kv => (kv.1, f kv.2)) d) = dict_keys d.
Proof. unfold dict_keys. induction d as [|[k v] d IH]; simpl; by f_equal. Qed.

Lemma elem_of_concat {A} (x : A) (ls : list (list A)) :
  x ∈ concat ls <-> exists l, l ∈ ls /\ x ∈ l.
Proof.
  rewrite list_elem_of_In, in_concat.
  split; intros (l & ? & ?); exists l; by rewrite ?list_elem_of_In in *.
Qed.

(** *** Loops and comprehensions that may raise *)

Lemma comprehension_ok {A B} (f : A -> result B) (g : A -> B) l :
  (forall x, x ∈ l -> f x = Ok (g x)) -> comprehension f l = Ok (map g l).
Proof.
  induction l as [|x l IH]; intros H; simpl; [done|].
  rewrite (H x) by left. rewrite IH; [done|]. intros y Hy. apply H. by right.
Qed.

Lemma comprehension_Ok_inv {A B} (f : A -> result B) l ys :
  comprehension f l = Ok ys -> Forall2 (fun x y => f x = Ok y) l ys.
Proof.
  revert ys. induction l as [|x l IH]; intros ys; simpl.
  - intros [= <-]. constructor.
  - destruct (f x) as [y|] eqn:Hfx; [|done].
    destruct (comprehension f l) as [ys'|]; [|done].
    intros [= <-]. constructor; auto.
Qed.

Lemma comprehension_Raise_inv {A B} (f : A -> result B) l e :
  comprehension f l = Raise e -> exists x, x ∈ l /\ f x = Raise e.
Proof.
  induction l as [|x l IH]; simpl; [done|].
  destruct (f x) as [y|e'] eqn:Hfx.
  - destruct (comprehension f l) as [ys'|e'']; [done|].
    intros [= <-]. destruct IH as (z & Hz & Hfz); [done|].
    exists z. split; [by right|done].
  - intros [= <-]. exists x. split; [left|done].
Qed.

Lemma foldM_app {A B} (f : B -> A -> result B) l1 l2 acc :
  foldM f (l1 ++ l2) acc = acc' ← foldM f l1 acc; foldM f l2 acc'.
Proof.
  revert acc. induction l1 as [|x l1 IH]; intros acc; simpl; [done|].
  destruct (f acc x); [apply IH|done].
Qed.

End DictFacts.

(** ** Properties of functions/top_10_calc.py *)

Module Top10CalcSpec.

Import Typing General Top10Calc Spec PyFacts DictFacts.

(** *** The title-to-URL mapping *)

(** Tables with different numbers of rows are refused. *)
Lemma get_titles_to_urls_rows_mismatch d title_rows url_rows :
  length title_rows <> length url_rows ->
  get_titles_to_urls_rows d title_rows url_rows
  = Raise (ValueError ZipArgumentLengthMismatch).
Proof.
  revert d url_rows.
  induction title_rows as [|tr trs IH]; intros d [|ur urs]; simpl; try done.
  intros Hlen. apply IH. congruence.
Qed.

(** Tables of the same shape are paired row by row, cell by cell. *)
Lemma get_titles_to_urls_rows_same_shape d title_rows url_rows :
  Forall2 (fun tr ur : list string => length tr = length ur) title_rows url_rows ->
  get_titles_to_urls_rows d title_rows url_rows
  = Ok (fold_left (fun d tu => dict_set tu.1 tu.2 d)
          (zip (concat title_rows) (concat url_rows)) d).
Proof.
  intros H. revert d. induction H as [|tr ur trs urs Hlen _ IH]; intros d; [done|].
  cbn [get_titles_to_urls_rows concat]. rewrite IH.
  unfold get_titles_to_urls_row.
  rewrite zip_with_app by done. by rewrite fold_left_app.
Qed.

(** C8 (code bug). The title table has a row of two cells, the URL table
    a row of one cell: the shapes differ, and the function returns a
    mapping for the first title instead of failing. *)
Theorem get_titles_to_urls_mapping_ragged_row :
  get_titles_to_urls_mapping [["a"; "b"]%string] [["u"]%string]
  = Ok [("a", "u")]%string.
Proof. reflexivity. Qed.

(** *** The anniversary lookup *)

(** C7 (code bug). With a record for April 2019 in the archive, the
    reference date April 2024 and the anniversaries 2024 and 5: the
    bucket for April of year 0 is missing, and building the warning
    raises, so the five-year anniversary is never answered. *)
Theorem get_history_missing_bucket_aborts :
  get_history
    [{| month := "4"; year := "2019"; archive_title := "A";
        archive_uploader := "B"; url := "C"; percentage := "50.0000%";
        total_votes := "5"; notes := "" |}]
    {| Date.year := 2024; Date.month := 4; Date.day := 1;
       Date.hour := 0; Date.minute := 0; Date.second := 0;
       Date.microsecond := 0;
       Date.tzinfo_of := None |}
    [2024; 5]
  = Raise (ValueError (FieldOutOfRange "year" 0)).
Proof. reflexivity. Qed.


(** The index holds, under each month and year, the records of that
    month and year in archive order. *)
Lemma index_archive_records archive idx0 :
  Forall (fun r => is_Some (month_year_of r)) archive ->
  exists idx,
    foldM index_archive_record archive idx0 = Ok idx
    /\ forall k, idx !! k
                 = match bucket archive k with
                   | [] => idx0 !! k
                   | b => Some (default [] (idx0 !! k) ++ b)
                   end.
Proof.
  intros Hall. revert idx0.
  induction Hall as [|r archive [[m y] Hr] _ IH]; intros idx0.
  - exists idx0. split; [done|]. intros k. done.
  - cbn [foldM]. unfold index_archive_record at 1.
    unfold month_year_of in Hr.
    destruct (int (chars (month r))) as [m'|] eqn:Hm; [|done].
    destruct (int (chars (year r))) as [y'|] eqn:Hy; [|done].
    injection Hr as -> ->. cbn [mbind result_bind Py.bind].
    match goal with |- context [foldM _ _ ?i] => destruct (IH i) as (idx & -> & Hidx) end.
    exists idx. split; [done|]. intros k. rewrite Hidx. unfold bucket.
    assert (Hkey : month_year_of r = Some (m, y))
      by (unfold month_year_of; by rewrite Hm, Hy).
    destruct (decide (k = (m, y))) as [->|Hne].
    + rewrite (filter_cons_True _ r) by done. rewrite lookup_insert_eq.
      assert (Hold : default [] ((match idx0 !! (m, y) with
                                  | Some _ => idx0
                                  | None => <[(m, y):=[]]> idx0
                                  end) !! (m, y)) = default [] (idx0 !! (m, y))).
      { destruct (idx0 !! (m, y)) eqn:H0; [by rewrite H0|by rewrite lookup_insert_eq]. }
      rewrite Hold. destruct (filter _ archive); cbn; [done|].
      by rewrite <- app_assoc.
    + rewrite (filter_cons_False _ r) by congruence.
      rewrite lookup_insert_ne by done.
      assert (Hold : (match idx0 !! (m, y) with
                      | Some _ => idx0
                      | None => <[(m, y):=[]]> idx0
                      end) !! k = idx0 !! k).
      { destruct (idx0 !! (m, y)); [done|by rewrite lookup_insert_ne]. }
      by rewrite Hold.
Qed.

(** The loop over the anniversaries, when every anniversary year is a
    year a [datetime] can hold: a present bucket is stored under its
    offset, a missing one adds a warning, and the loop goes on. *)
Lemma get_anniversaries_in_range m y idx anniversaries st :
  1 <= m <= 12 ->
  Forall (fun n => 1 <= y - n <= 9999) anniversaries ->
  exists st',
    foldM (get_anniversary m y idx) anniversaries st = Ok st'
    /\ (forall n, history_records st' !! n
                  = if decide (n ∈ anniversaries /\ is_Some (idx !! (m, y - n)))
                    then idx !! (m, y - n)
                    else history_records st !! n)
    /\ printed st'
       = printed st
         ++ map (fun n => Messages.NoHistoricalEntriesFound m (y - n))
              (filter (fun n => idx !! (m, y - n) = None) anniversaries).
Proof.
  intros Hm Hall. revert st.
  induction Hall as [|n ns Hn _ IH]; intros st.
  - exists st. split; [done|]. split; [|by rewrite app_nil_r].
    intros n. rewrite decide_False; [done|]. by intros [?%elem_of_nil _].
  - cbn [foldM]. unfold get_anniversary at 1.
    destruct (idx !! (m, y - n)) as [records|] eqn:Hb.
    + match goal with |- context [foldM _ _ ?s] => destruct (IH s) as (st' & -> & Hrec & Hpr) end.
      exists st'. split; [done|]. split.
      * intros n'. rewrite Hrec. cbn [history_records].
        destruct (decide (n' = n)) as [->|Hne].
        -- rewrite lookup_insert_eq, Hb.
           rewrite (decide_True (P := n ∈ n :: ns /\ _)) by (split; [left|eauto]).
           by case_decide.
        -- rewrite lookup_insert_ne by done.
           destruct (decide (n' ∈ ns /\ is_Some (idx !! (m, y - n')))) as [[? ?]|Hno].
           ++ rewrite decide_True; [done|]. split; [by right|done].
           ++ rewrite decide_False; [done|].
              intros [[?|?]%elem_of_cons ?]; [done|]. by apply Hno.
      * rewrite Hpr. cbn [printed]. by rewrite filter_cons_False by (rewrite Hb; done).
    + unfold Date.datetime_new, Date.datetime_of. rewrite !DateSpec.check_field_ok
        by (apply DateSpec.days_in_month_pos || lia).
      cbn [mbind result_bind Py.bind Date.month Date.year].
      match goal with |- context [foldM _ _ ?s] => destruct (IH s) as (st' & -> & Hrec & Hpr) end.
      exists st'. split; [done|]. split.
      * intros n'. rewrite Hrec. cbn [history_records].
        destruct (decide (n' ∈ ns /\ is_Some (idx !! (m, y - n')))) as [[? ?]|Hno].
        -- rewrite decide_True; [done|]. split; [by right|done].
        -- rewrite decide_False; [done|].
           intros [[->|?]%elem_of_cons [? Hs]]; [congruence|]. apply Hno. eauto.
      * rewrite Hpr. cbn [printed]. rewrite filter_cons_True by done.
        cbn [map]. by rewrite <- app_assoc.
Qed.

(** The anniversary lookup does what the specification says whenever the
    archive records carry integer months and years and every anniversary
    falls in the years 1 to 9999: an offset with records for the
    reference month of its year is mapped to exactly these records, an
    offset without is left out and a warning names the month. *)
Lemma get_history_in_range archive from_date anniversaries :
  Forall (fun r => is_Some (month_year_of r)) archive ->
  1 <= Date.month from_date <= 12 ->
  Forall (fun n => 1 <= Date.year from_date - n <= 9999) anniversaries ->
  exists h,
    get_history archive from_date anniversaries = Ok h
    /\ forall n, n ∈ anniversaries ->
         let anni := (Date.month from_date, Date.year from_date - n) in
         (bucket archive anni <> [] ->
          history_records h !! n = Some (bucket archive anni))
         /\ (bucket archive anni = [] ->
             history_records h !! n = None
             /\ Messages.NoHistoricalEntriesFound anni.1 anni.2 ∈ printed h).
Proof.
  intros Harch Hm Hyears. unfold get_history.
  destruct (index_archive_records archive ∅ Harch) as (idx & -> & Hidx).
  cbn [mbind result_bind Py.bind].
  destruct (get_anniversaries_in_range (Date.month from_date)
              (Date.year from_date) idx anniversaries
              {| history_records := ∅; printed := [] |} Hm Hyears)
    as (h & -> & Hrec & Hpr).
  exists h. split; [done|]. intros n Hn. cbn [fst snd].
  set (anni := (Date.month from_date, Date.year from_date - n)).
  assert (Hlook : idx !! anni
                  = match bucket archive anni with [] => None | b => Some b end).
  { rewrite Hidx, lookup_empty. by destruct (bucket archive anni). }
  split; intros Hb.
  - rewrite Hrec. destruct (bucket archive anni) as [|r b] eqn:Hbk; [done|].
    fold anni. rewrite Hlook. by rewrite decide_True by (split; [done|eauto]).
  - rewrite Hb in Hlook. split.
    + rewrite Hrec. fold anni. rewrite Hlook.
      rewrite decide_False; [apply lookup_empty|]. by intros [_ [? ?]].
    + rewrite Hpr. cbn [printed app]. apply list_elem_of_fmap.
      exists n. split; [done|]. by apply list_elem_of_filter.
Qed.


(** *** The tally *)

Lemma count_titles_concat title_rows d :
  fold_left (fun tc row => fold_left count_title row tc) title_rows d
  = fold_left count_title (concat title_rows) d.
Proof.
  revert d. induction title_rows as [|row rows IH]; intros d; [done|].
  cbn [fold_left concat]. by rewrite IH, fold_left_app.
Qed.

Lemma count_title_keys d t :
  dict_keys (count_title d t)
  = if decide (t ∈ dict_keys d) then dict_keys d else dict_keys d ++ [t].
Proof.
  unfold count_title. destruct (dict_get t d) as [c|] eqn:Hget.
  - rewrite dict_keys_set. done.
  - rewrite !dict_keys_set. apply dict_get_None_keys in Hget.
    rewrite (decide_False (P := t ∈ dict_keys d)) by done.
    rewrite decide_True; [done|]. apply elem_of_app. right. left.
Qed.

Lemma count_title_NoDup d t :
  NoDup (dict_keys d) -> NoDup (dict_keys (count_title d t)).
Proof.
  intros Hnd. rewrite count_title_keys. case_decide; [done|].
  apply NoDup_app. split_and!; [done| |apply NoDup_singleton].
  by intros x Hx ->%list_elem_of_singleton.
Qed.

Lemma tally_NoDup titles d :
  NoDup (dict_keys d) -> NoDup (dict_keys (fold_left count_title titles d)).
Proof.
  revert d. induction titles as [|t titles IH]; intros d Hnd; [done|].
  cbn [fold_left]. by apply IH, count_title_NoDup.
Qed.

Lemma tally_keys titles d x :
  x ∈ dict_keys (fold_left count_title titles d) <-> x ∈ titles \/ x ∈ dict_keys d.
Proof.
  revert d. induction titles as [|t titles IH]; intros d; cbn [fold_left].
  - split; [auto|]. by intros [?%elem_of_nil|?].
  - rewrite IH, count_title_keys, elem_of_cons. case_decide.
    + split; [tauto|]. intros [[->|?]|?]; auto.
    + rewrite elem_of_app, list_elem_of_singleton. tauto.
Qed.

Lemma dict_del_count_title_blank (d : list (string * nat)) k :
  dict_del k (count_title d k) = dict_del k d.
Proof.
  unfold count_title. rewrite dict_del_set_eq.
  destruct (dict_get k d); [done|]. by rewrite dict_del_set_eq.
Qed.

Lemma dict_del_count_title_other (d : list (string * nat)) k t :
  t <> k -> dict_del k (count_title d t) = count_title (dict_del k d) t.
Proof.
  intros Hne. unfold count_title.
  rewrite (dict_get_del_ne k t d) by done.
  destruct (dict_get t d) as [c|] eqn:Hget.
  - rewrite dict_del_set_ne by done. by rewrite dict_get_del_ne.
  - rewrite !dict_del_set_ne by done. by rewrite !dict_get_set_eq.
Qed.

(** Blank titles leave no trace in the tally. *)
Lemma dict_del_tally titles (d : list (string * nat)) k :
  dict_del k (fold_left count_title titles d)
  = fold_left count_title (filter (fun t => t <> k) titles) (dict_del k d).
Proof.
  revert d. induction titles as [|t titles IH]; intros d; [done|].
  cbn [fold_left]. rewrite IH. destruct (decide (t = k)) as [->|Hne].
  - rewrite filter_cons_False by tauto. by rewrite dict_del_count_title_blank.
  - rewrite filter_cons_True by done. cbn [fold_left].
    by rewrite dict_del_count_title_other.
Qed.

Lemma title_counts_nonblank title_rows :
  title_counts title_rows
  = fold_left count_title
      (filter (fun t => t <> ""%string) (concat title_rows)) [].
Proof.
  unfold title_counts, count_titles.
  by rewrite count_titles_concat, dict_del_tally.
Qed.

Lemma title_counts_NoDup title_rows : NoDup (dict_keys (title_counts title_rows)).
Proof. rewrite title_counts_nonblank. apply tally_NoDup, NoDup_nil_2. Qed.

(** The tallied titles are the non-blank titles of the ballots. *)
Lemma title_counts_keys title_rows t :
  t ∈ dict_keys (title_counts title_rows)
  <-> t <> ""%string /\ exists title_row, title_row ∈ title_rows /\ t ∈ title_row.
Proof.
  rewrite title_counts_nonblank, tally_keys, list_elem_of_filter.
  rewrite elem_of_concat. split.
  - intros [[Hne (row & ? & ?)]|?%elem_of_nil]; [|done]. eauto.
  - intros [Hne (row & ? & ?)]. left. eauto.
Qed.

Lemma vote_count_zero title_row :
  vote_count title_row = 0%nat ->
  filter (fun t => t <> ""%string) title_row = [].
Proof. unfold vote_count. by intros ?%nil_length_inv. Qed.

(** A blank ballot changes nothing in the tally. *)
Lemma title_counts_blank_ballot pre b post :
  vote_count b = 0%nat ->
  title_counts (pre ++ b :: post) = title_counts (pre ++ post).
Proof.
  intros Hb. rewrite !title_counts_nonblank, !concat_app. cbn [concat].
  by rewrite !filter_app, (vote_count_zero b Hb).
Qed.

(** *** The validation *)

Lemma counted_cons b title_rows :
  counted (b :: title_rows)
  = if decide (5 <= vote_count b)%nat then S (counted title_rows)
    else counted title_rows.
Proof.
  unfold counted. case_decide.
  - by rewrite filter_cons_True.
  - by rewrite filter_cons_False.
Qed.

Lemma count_voters_ok i title_rows c :
  Forall ballot_ok title_rows ->
  count_voters i title_rows c = Ok (c + counted title_rows)%nat.
Proof.
  intros H. revert i c. induction H as [|b rows Hb _ IH]; intros i c.
  - cbn. f_equal. unfold counted. cbn. lia.
  - cbn [count_voters]. rewrite counted_cons.
    destruct (Nat.leb_spec 5 (vote_count b)).
    + rewrite IH, decide_True by done. f_equal. lia.
    + destruct Hb as [Hb|Hb]; [|lia].
      destruct (Nat.eqb_spec (vote_count b) 0); [|lia].
      cbn [negb]. rewrite IH, decide_False by lia. done.
Qed.

(** The first ballot with one to four votes stops the validation, and
    the error names its line: its index, plus one for the header, plus
    one because lines are counted from one. *)
Lemma count_voters_first_invalid i pre b post c :
  Forall ballot_ok pre -> (1 <= vote_count b <= 4)%nat ->
  count_voters i (pre ++ b :: post) c
  = Raise (ValueError (OnlyVotesIncluded (vote_count b) (i + length pre + 2))).
Proof.
  intros Hpre Hb. revert i c. induction Hpre as [|x pre Hx _ IH]; intros i c.
  - cbn [app count_voters].
    destruct (Nat.leb_spec 5 (vote_count b)); [lia|].
    destruct (Nat.eqb_spec (vote_count b) 0); [lia|].
    cbn [negb length]. do 3 f_equal. lia.
  - cbn [app count_voters].
    destruct (Nat.leb_spec 5 (vote_count x)).
    + rewrite IH. do 3 f_equal. cbn [length]. lia.
    + destruct Hx as [Hx|Hx]; [|lia].
      destruct (Nat.eqb_spec (vote_count x) 0); [|lia].
      cbn [negb]. rewrite IH. do 3 f_equal. cbn [length]. lia.
Qed.

#[local] Instance ballot_ok_dec b : Decision (ballot_ok b).
Proof. unfold ballot_ok. apply _. Defined.

Lemma ballot_not_ok b : ~ ballot_ok b <-> (1 <= vote_count b <= 4)%nat.
Proof. unfold ballot_ok. lia. Qed.

(** Either every ballot passes, or there is a first one that does not. *)
Lemma first_invalid_ballot title_rows :
  Forall ballot_ok title_rows
  \/ exists pre b post,
       title_rows = pre ++ b :: post /\ Forall ballot_ok pre
       /\ (1 <= vote_count b <= 4)%nat.
Proof.
  induction title_rows as [|x rows IH]; [by left|].
  destruct (decide (ballot_ok x)) as [Hx|Hx].
  - destruct IH as [IH|(pre & b & post & -> & Hpre & Hb)].
    + left. by constructor.
    + right. exists (x :: pre), b, post. split; [done|]. split; [|done].
      by constructor.
  - right. exists [], x, rows. split; [done|]. split; [constructor|].
    by apply ballot_not_ok.
Qed.

Lemma count_voters_Ok_inv i title_rows c n :
  count_voters i title_rows c = Ok n ->
  Forall ballot_ok title_rows /\ n = (c + counted title_rows)%nat.
Proof.
  intros H. destruct (first_invalid_ballot title_rows)
    as [Hall|(pre & b & post & -> & Hpre & Hb)].
  - rewrite count_voters_ok in H by done. by injection H as <-.
  - by rewrite count_voters_first_invalid in H.
Qed.

Lemma count_voters_Raise_inv i title_rows c e :
  count_voters i title_rows c = Raise e ->
  exists pre b post,
    title_rows = pre ++ b :: post /\ Forall ballot_ok pre
    /\ (1 <= vote_count b <= 4)%nat
    /\ e = ValueError (OnlyVotesIncluded (vote_count b) (i + length pre + 2)).
Proof.
  intros H. destruct (first_invalid_ballot title_rows)
    as [Hall|(pre & b & post & -> & Hpre & Hb)].
  - by rewrite count_voters_ok in H.
  - rewrite count_voters_first_invalid in H by done. injection H as <-.
    by exists pre, b, post.
Qed.

(** No counted ballot means no title in the tally. *)
Lemma no_voters_no_titles title_rows :
  count_voters 0 title_rows 0 = Ok 0%nat -> title_counts title_rows = [].
Proof.
  intros [Hall Hn]%count_voters_Ok_inv.
  rewrite title_counts_nonblank.
  assert (Hblank : filter (fun t => t <> ""%string) (concat title_rows) = []).
  { induction Hall as [|b rows Hb _ IH]; [done|].
    cbn [concat]. rewrite filter_app. rewrite counted_cons in Hn.
    case_decide; [lia|]. destruct Hb as [Hb|Hb]; [|lia].
    rewrite (vote_count_zero b Hb). by apply IH. }
  by rewrite Hblank.
Qed.


(** *** Percentages and groups *)

Lemma percentages_ok title_rows n :
  count_voters 0 title_rows 0 = Ok n ->
  comprehension (fun tc => p ← percentage_of tc.2 n; Ok (tc.1, p))
    (title_counts title_rows)
  = Ok (title_percentages title_rows n).
Proof.
  intros Hn. destruct n as [|n].
  - unfold title_percentages. by rewrite (no_voters_no_titles _ Hn).
  - by apply comprehension_ok.
Qed.

Lemma group_of_cons t q tp p :
  group_of ((t, q) :: tp) p
  = if decide (q = p) then t :: group_of tp p else group_of tp p.
Proof.
  unfold group_of. case_decide.
  - by rewrite filter_cons_True.
  - by rewrite filter_cons_False.
Qed.

Lemma elem_of_group_of tp p t : t ∈ group_of tp p <-> (t, p) ∈ tp.
Proof.
  unfold group_of. rewrite list_elem_of_fmap. split.
  - intros ([t' q] & -> & [Hq Hin]%list_elem_of_filter). simpl in *. by subst.
  - intros Hin. exists (t, p). split; [done|]. by apply list_elem_of_filter.
Qed.

Lemma group_of_NoDup tp p : NoDup (dict_keys tp) -> NoDup (group_of tp p).
Proof.
  induction tp as [|[t q] tp IH]; [intros _; apply NoDup_nil_2|].
  intros [Hnin Hnd]%NoDup_cons. rewrite group_of_cons. case_decide; [|auto].
  apply NoDup_cons. split; [|auto].
  intros Hin%elem_of_group_of. apply Hnin.
  apply list_elem_of_fmap. by exists (t, p).
Qed.

(** Grouping puts every title under its percentage, in tally order. *)
Lemma groups_get tp d p :
  dict_get p (fold_left group_title tp d)
  = match group_of tp p with
    | [] => dict_get p d
    | g => Some (default [] (dict_get p d) ++ g)
    end.
Proof.
  revert d. induction tp as [|[t q] tp IH]; intros d; [done|].
  cbn [fold_left]. rewrite IH, group_of_cons. unfold group_title. cbn [fst snd].
  set (d' := match dict_get q d with
             | Some _ => d
             | None => dict_set q [] d
             end).
  assert (Hd' : default [] (dict_get q d') = default [] (dict_get q d)).
  { subst d'. destruct (dict_get q d) eqn:Hq; [by rewrite Hq|].
    by rewrite dict_get_set_eq. }
  destruct (decide (q = p)) as [->|Hne].
  - rewrite dict_get_set_eq, Hd'.
    destruct (group_of tp p); simpl; [done|]. by rewrite <- app_assoc.
  - rewrite dict_get_set_ne by done.
    assert (Hp : dict_get p d' = dict_get p d).
    { subst d'. destruct (dict_get q d); [done|]. by rewrite dict_get_set_ne. }
    by rewrite Hp.
Qed.

Lemma groups_NoDup tp d :
  NoDup (dict_keys d) -> NoDup (dict_keys (fold_left group_title tp d)).
Proof.
  revert d. induction tp as [|[t q] tp IH]; intros d Hnd; [done|].
  cbn [fold_left]. apply IH. unfold group_title. cbn [fst snd].
  apply dict_set_NoDup. destruct (dict_get q d); [done|].
  by apply dict_set_NoDup.
Qed.

Lemma groups_get_empty tp p :
  dict_get p (fold_left group_title tp [])
  = match group_of tp p with [] => None | g => Some g end.
Proof. rewrite groups_get. by destruct (group_of tp p). Qed.

Lemma groups_key tp p :
  p ∈ dict_keys (fold_left group_title tp [])
  -> dict_get p (fold_left group_title tp []) = Some (group_of tp p)
     /\ group_of tp p <> [].
Proof.
  intros [g Hg]%dict_keys_is_Some. rewrite groups_get_empty in Hg |- *.
  by destruct (group_of tp p).
Qed.

Lemma groups_key_of_title tp t p :
  (t, p) ∈ tp -> p ∈ dict_keys (fold_left group_title tp []).
Proof.
  intros Hin%elem_of_group_of. apply dict_keys_is_Some.
  rewrite groups_get_empty. destruct (group_of tp p); [|eauto].
  by apply elem_of_nil in Hin.
Qed.

(** *** Sorting *)

#[local] Instance flip_Qcle_trans : Transitive (flip Qcle).
Proof. intros x y z Hxy Hyz. unfold flip in *. by etrans. Qed.

#[local] Instance flip_Qcle_total : Total (flip Qcle).
Proof. intros x y. unfold flip. destruct (total Qcle x y); auto. Qed.

Lemma sorted_reverse_descending keys : descending (sorted_reverse keys).
Proof. apply (StronglySorted_merge_sort (flip Qcle)). Qed.

Lemma sorted_reverse_Permutation keys : sorted_reverse keys ≡ₚ keys.
Proof. apply merge_sort_Permutation. Qed.

(** *** Sampling *)

Lemma sample_item_without_replacement_ok rand k (items : list string) :
  items <> [] ->
  exists item items',
    sample_item_without_replacement rand k items = Ok (item, items', S k)
    /\ items ≡ₚ item :: items'
    /\ length items = S (length items').
Proof.
  intros Hne. unfold sample_item_without_replacement.
  set (i := (rand k mod length items)%nat).
  assert (Hi : (i < length items)%nat).
  { apply Nat.mod_upper_bound. by destruct items. }
  destruct (lookup_lt_is_Some_2 items i Hi) as [item Hitem].
  rewrite Hitem. exists item, (delete i items). split; [done|]. split.
  - by apply delete_Permutation.
  - rewrite length_delete by eauto. lia.
Qed.

Lemma tie_flag_lookup (tb : gmap string bool) (flag : bool) t x :
  (if flag then <[x:=true]> (<[x:=false]> tb) else <[x:=false]> tb) !! t
  = if decide (t = x) then Some flag else tb !! t.
Proof.
  case_decide as Heq.
  - subst. destruct flag; by rewrite lookup_insert_eq.
  - destruct flag; by rewrite !lookup_insert_ne.
Qed.

(** The sampling loop empties the group: it ranks a permutation of it
    and gives each of its titles the flag of the group. *)
Lemma sample_group_spec rand flag n :
  forall (g : list string) st,
    length g = n ->
    exists st' b,
      sample_group rand n flag g st = Ok st'
      /\ b ≡ₚ g
      /\ ranked_titles st' = ranked_titles st ++ b
      /\ forall t, tie_broken st' !! t
                   = if decide (t ∈ g) then Some flag else tie_broken st !! t.
Proof.
  induction n as [|n IH]; intros g st Hlen.
  - apply nil_length_inv in Hlen as ->. exists st, []. split; [done|].
    split; [done|]. split; [by rewrite app_nil_r|].
    intros t. rewrite decide_False; [done|]. apply not_elem_of_nil.
  - destruct g as [|x g]; [done|]. cbn [sample_group].
    destruct (sample_item_without_replacement_ok rand (draws st) (x :: g))
      as (item & g' & -> & Hperm & Hlen'); [done|].
    cbn [mbind result_bind Py.bind].
    match goal with |- context [sample_group _ _ _ _ ?s] =>
      destruct (IH g' s) as (st' & b & -> & Hb & Hranked & Htb) end.
    { rewrite Hlen in Hlen'. lia. }
    exists st', (item :: b). split; [done|]. split; [by rewrite Hperm, Hb|].
    split.
    + rewrite Hranked. cbn [ranked_titles]. by rewrite <- app_assoc.
    + intros t. rewrite Htb. cbn [tie_broken]. rewrite tie_flag_lookup.
      destruct (decide (t ∈ g')) as [Hin|Hnin].
      * rewrite decide_True; [done|]. rewrite Hperm. by right.
      * destruct (decide (t = item)) as [->|Hne].
        -- rewrite decide_True; [done|]. rewrite Hperm. left.
        -- rewrite decide_False; [done|]. rewrite Hperm.
           by intros [?|?]%elem_of_cons.
Qed.


(** *** Ranking *)

Lemma rank_group_spec rand groups st p g :
  dict_get p groups = Some g ->
  exists st' b,
    rank_group rand groups st p = Ok st'
    /\ b ≡ₚ g
    /\ ranked_titles st' = ranked_titles st ++ b
    /\ forall t, tie_broken st' !! t
                 = if decide (t ∈ g) then Some (1 <? length g)%nat
                   else tie_broken st !! t.
Proof.
  intros Hg. unfold rank_group, getitem. rewrite Hg.
  cbn [mbind result_bind Py.bind]. by apply sample_group_spec.
Qed.

(** The loop over the sorted percentages ranks one block per percentage:
    a permutation of its group, flagged when the group has more than one
    title. *)
Lemma rank_groups_spec rand groups ps :
  forall st,
    Forall (fun p => is_Some (dict_get p groups)) ps ->
    exists st' bs,
      foldM (rank_group rand groups) ps st = Ok st'
      /\ Forall2 (fun p b => b ≡ₚ group_at groups p) ps bs
      /\ ranked_titles st' = ranked_titles st ++ concat bs
      /\ (forall t, (forall p, p ∈ ps -> t ∉ group_at groups p) ->
                    tie_broken st' !! t = tie_broken st !! t)
      /\ (forall t p, p ∈ ps -> t ∈ group_at groups p ->
                      (forall p', p' ∈ ps -> t ∈ group_at groups p' -> p' = p) ->
                      tie_broken st' !! t
                      = Some (1 <? length (group_at groups p))%nat).
Proof.
  induction ps as [|p ps IH]; intros st Hall.
  - exists st, []. split; [done|]. split; [constructor|].
    split; [by rewrite app_nil_r|]. split; [done|].
    by intros t p ?%elem_of_nil.
  - apply Forall_cons in Hall as [[g Hg] Hall]. cbn [foldM].
    destruct (rank_group_spec rand groups st p g Hg)
      as (st1 & b & -> & Hb & Hranked1 & Htb1).
    destruct (IH st1 Hall) as (st' & bs & -> & Hbs & Hranked & Hout & Hin).
    assert (Hgp : group_at groups p = g) by (unfold group_at; by rewrite Hg).
    exists st', (b :: bs). split; [done|].
    split; [constructor; [by rewrite Hgp|done]|].
    split; [rewrite Hranked, Hranked1; cbn [concat]; by rewrite <- app_assoc|].
    split.
    + intros t Hnone. rewrite Hout by (intros q Hq; apply Hnone; by right).
      rewrite Htb1, decide_False; [done|]. rewrite <- Hgp. apply Hnone. left.
    + intros t q Hq Ht Huniq. destruct (decide (q ∈ ps)) as [Hqps|Hqps].
      * apply Hin; [done|done|]. intros p' Hp'. apply Huniq. by right.
      * apply elem_of_cons in Hq as [->|Hq]; [|done].
        rewrite Hout.
        -- rewrite Htb1, Hgp, decide_True; [done|]. by rewrite <- Hgp.
        -- intros p' Hp' Ht'. apply Hqps.
           rewrite <- (Huniq p'); [done|by right|done].
Qed.

Lemma elem_of_blocks {A B} (G : A -> list B) ps bs x :
  Forall2 (fun p b => b ≡ₚ G p) ps bs ->
  x ∈ concat bs <-> exists p, p ∈ ps /\ x ∈ G p.
Proof.
  induction 1 as [|p b ps bs Hb _ IH]; cbn [concat].
  - split; [by intros ?%elem_of_nil|]. by intros (p & ?%elem_of_nil & _).
  - rewrite elem_of_app, IH, Hb. split.
    + intros [?|(q & ? & ?)]; [exists p; split; [left|done]|].
      exists q. split; [by right|done].
    + intros (q & [->|?]%elem_of_cons & ?); [by left|]. right. eauto.
Qed.

Lemma blocks_NoDup {A B} (G : A -> list B) ps bs :
  NoDup ps -> (forall p, p ∈ ps -> NoDup (G p)) ->
  (forall p p' x, p ∈ ps -> p' ∈ ps -> x ∈ G p -> x ∈ G p' -> p = p') ->
  Forall2 (fun p b => b ≡ₚ G p) ps bs ->
  NoDup (concat bs).
Proof.
  intros Hnd HG Hdisj H. induction H as [|p b ps bs Hb Hbs IH]; cbn [concat].
  - apply NoDup_nil_2.
  - apply NoDup_cons in Hnd as [Hp Hnd]. apply NoDup_app. split_and!.
    + rewrite Hb. apply HG. left.
    + intros x Hx (q & Hq & Hxq)%(elem_of_blocks G ps bs); [|done].
      rewrite Hb in Hx. apply Hp.
      rewrite (Hdisj p q x); [done|left|by right|done|done].
    + apply IH; [done| |].
      * intros q Hq. apply HG. by right.
      * intros q q' x Hq Hq'. apply Hdisj; by right.
Qed.

Lemma descending_constant p l : Forall (fun q => q = p) l -> descending l.
Proof.
  induction 1 as [|q l -> Hall IH]; constructor; [done|].
  eapply Forall_impl; [exact Hall|]. intros y ->. apply Qcle_refl.
Qed.

Lemma blocks_descending {B} (f : B -> Qc) (G : Qc -> list B) ps bs :
  descending ps -> (forall p x, x ∈ G p -> f x = p) ->
  Forall2 (fun p b => b ≡ₚ G p) ps bs ->
  descending (map f (concat bs)).
Proof.
  intros Hsorted Hf H. unfold descending in *.
  induction H as [|p b ps bs Hb Hbs IH]; cbn [concat]; [constructor|].
  apply StronglySorted_inv in Hsorted as [Hsorted Hhd].
  rewrite map_app. apply StronglySorted_app. split_and!.
  - intros x y (x' & -> & Hx')%list_elem_of_fmap (y' & -> & Hy')%list_elem_of_fmap.
    rewrite (Hf p x') by by rewrite <- Hb.
    apply (elem_of_blocks G ps bs) in Hy' as (q & Hq & Hy'); [|done].
    rewrite (Hf q y') by done.
    rewrite Forall_forall in Hhd. by apply Hhd.
  - apply (descending_constant p), Forall_fmap, Forall_forall.
    intros x Hx. apply (Hf p). by rewrite <- Hb.
  - by apply IH.
Qed.


Lemma title_percentages_keys title_rows n :
  dict_keys (title_percentages title_rows n) = dict_keys (title_counts title_rows).
Proof.
  unfold title_percentages.
  apply (dict_keys_fmap (fun c => percent c n)).
Qed.

Lemma title_percentages_NoDup title_rows n :
  NoDup (dict_keys (title_percentages title_rows n)).
Proof. rewrite title_percentages_keys. apply title_counts_NoDup. Qed.

Lemma title_percentages_get title_rows n t :
  dict_get t (title_percentages title_rows n)
  = (fun c => percent c n) <$> dict_get t (title_counts title_rows).
Proof.
  unfold title_percentages. apply (dict_get_fmap (fun c => percent c n)).
Qed.

Lemma group_at_groups tp p :
  group_at (fold_left group_title tp []) p = group_of tp p.
Proof.
  unfold group_at. rewrite groups_get_empty. by destruct (group_of tp p).
Qed.

Lemma elem_of_dict_keys {V} (d : list (string * V)) t :
  t ∈ dict_keys d <-> exists v, (t, v) ∈ d.
Proof.
  unfold dict_keys. rewrite list_elem_of_fmap. split.
  - intros ([t' v] & -> & ?). by exists v.
  - intros (v & ?). by exists (t, v).
Qed.

(** What the ranking loop leaves behind, for ballots that pass the
    validation: every tallied title ranked once, by descending
    percentage, flagged when its group has more than one title. *)
Lemma ranking_anatomy rand title_rows n :
  count_voters 0 title_rows 0 = Ok n ->
  exists st,
    (forall titles_to_urls titles_to_uploaders,
        calc_ranked_records rand title_rows titles_to_urls titles_to_uploaders
        = comprehension
            (ranked_record (title_counts title_rows)
               (title_percentages title_rows n) titles_to_urls
               titles_to_uploaders (tie_broken st))
            (ranked_titles st))
    /\ NoDup (ranked_titles st)
    /\ (forall t, t ∈ ranked_titles st <-> t ∈ dict_keys (title_counts title_rows))
    /\ descending (map (percentage_of_title (title_percentages title_rows n))
                     (ranked_titles st))
    /\ (forall t p,
           dict_get t (title_percentages title_rows n) = Some p ->
           tie_broken st !! t
           = Some (1 <? length (group_of (title_percentages title_rows n) p))%nat).
Proof.
  intros Hn.
  set (tp := title_percentages title_rows n).
  set (groups := fold_left group_title tp []).
  set (sp := sorted_reverse (dict_keys groups)).
  pose proof (title_percentages_NoDup title_rows n) as Htp_nd. fold tp in Htp_nd.
  assert (Hsp : forall p, p ∈ sp <-> p ∈ dict_keys groups).
  { intros p. unfold sp. by rewrite sorted_reverse_Permutation. }
  assert (Hsp_nd : NoDup sp).
  { unfold sp. rewrite sorted_reverse_Permutation.
    apply groups_NoDup, NoDup_nil_2. }
  assert (Hsome : Forall (fun p => is_Some (dict_get p groups)) sp).
  { apply Forall_forall. intros p Hp. by apply dict_keys_is_Some, Hsp. }
  destruct (rank_groups_spec rand groups sp
              {| draws := 0; ranked_titles := []; tie_broken := ∅ |} Hsome)
    as (st & bs & Hfold & Hbs & Hranked & _ & Hflag).
  cbn [ranked_titles app] in Hranked.
  assert (Hbs' : Forall2 (fun p b => b ≡ₚ group_of tp p) sp bs).
  { eapply Forall2_impl; [exact Hbs|]. intros p b Hb.
    unfold groups in Hb. by rewrite group_at_groups in Hb. }
  assert (Huniq : forall t p p', (t, p) ∈ tp -> (t, p') ∈ tp -> p = p').
  { intros t p p' H1 H2. apply (dict_get_elem _ _ _ Htp_nd) in H1, H2. congruence. }
  assert (Hkey : forall t p, (t, p) ∈ tp -> p ∈ sp).
  { intros t p Hin. apply Hsp. unfold groups. by eapply groups_key_of_title. }
  exists st. split_and!.
  - intros titles_to_urls titles_to_uploaders. unfold calc_ranked_records.
    rewrite Hn. cbn [mbind result_bind Py.bind].
    fold (title_counts title_rows). rewrite (percentages_ok _ _ Hn).
    cbn [mbind result_bind Py.bind]. fold tp groups sp. by rewrite Hfold.
  - rewrite Hranked. apply (blocks_NoDup (group_of tp) sp bs); [done| |  |done].
    + intros p _. by apply group_of_NoDup.
    + intros p p' x _ _ Hx%elem_of_group_of Hx'%elem_of_group_of. eauto.
  - intros t. rewrite Hranked, (elem_of_blocks (group_of tp) sp bs) by done.
    rewrite <- (title_percentages_keys title_rows n). fold tp.
    rewrite elem_of_dict_keys.
    split.
    + intros (p & _ & Hin%elem_of_group_of). eauto.
    + intros (p & Hin). exists p. split; [by eapply Hkey|].
      by apply elem_of_group_of.
  - rewrite Hranked.
    apply (blocks_descending _ (group_of tp) sp bs); [|  |done].
    + unfold sp. apply sorted_reverse_descending.
    + intros p x Hx%elem_of_group_of. unfold percentage_of_title.
      by rewrite (dict_get_elem _ _ _ Htp_nd Hx).
  - intros t p Hget%dict_get_Some_elem.
    rewrite <- (group_at_groups tp p). fold groups.
    apply Hflag; [by eapply Hkey| |].
    + unfold groups. rewrite group_at_groups. by apply elem_of_group_of.
    + intros p' _ Ht'. unfold groups in Ht'. rewrite group_at_groups in Ht'.
      apply elem_of_group_of in Ht'. eauto.
Qed.

(** *** The records *)

Lemma ranked_record_Ok_inv T tp urls uploaders (tb : gmap string bool) t r :
  ranked_record T tp urls uploaders tb t = Ok r ->
  Title r = t
  /\ dict_get t tp = Some (Percentage r)
  /\ dict_get t T = Some (Total_Votes r)
  /\ dict_get t urls = Some (URL r)
  /\ (exists u, dict_get t uploaders = Some u
                /\ Uploader r = match u with PNone => PStr "" | _ => u end)
  /\ (exists tie : bool, tb !! t = Some tie
                         /\ Notes r = if tie then tie_note else ""%string).
Proof.
  unfold ranked_record, getitem.
  destruct (dict_get t uploaders) as [u|]; [|done].
  destruct (dict_get t tp) as [p|]; [|done].
  destruct (dict_get t T) as [c|]; [|done].
  destruct (dict_get t urls) as [url|]; [|done].
  destruct (tb !! t) as [tie|]; [|done].
  cbn. intros [= <-]. cbn. split_and!; eauto.
Qed.

Lemma ranked_record_ok T tp urls uploaders (tb : gmap string bool) t p c url u
    (tie : bool) :
  dict_get t tp = Some p -> dict_get t T = Some c ->
  dict_get t urls = Some url -> dict_get t uploaders = Some u ->
  tb !! t = Some tie ->
  ranked_record T tp urls uploaders tb t
  = Ok {| Title := t;
          Uploader := match u with PNone => PStr "" | _ => u end;
          Percentage := p; Total_Votes := c; URL := url;
          Notes := if tie then tie_note else ""%string |}.
Proof.
  intros Hp Hc Hurl Hu Htie. unfold ranked_record, getitem.
  by rewrite Hu, Hp, Hc, Hurl, Htie.
Qed.

(** A record can only fail on a missing key. *)
Lemma ranked_record_Raise_inv T tp urls uploaders (tb : gmap string bool) t e :
  ranked_record T tp urls uploaders tb t = Raise e -> e = KeyError (KStr t).
Proof.
  unfold ranked_record, getitem.
  destruct (dict_get t uploaders) as [u|]; [|by intros [= <-]].
  destruct (dict_get t tp) as [p|]; [|by intros [= <-]].
  destruct (dict_get t T) as [c|]; [|by intros [= <-]].
  destruct (dict_get t urls) as [url|]; [|by intros [= <-]].
  destruct (tb !! t) as [tie|]; [done|by intros [= <-]].
Qed.

Lemma calc_ranked_records_Ok_counted rand title_rows urls uploaders recs :
  calc_ranked_records rand title_rows urls uploaders = Ok recs ->
  exists n, count_voters 0 title_rows 0 = Ok n.
Proof.
  unfold calc_ranked_records.
  destruct (count_voters 0 title_rows 0) as [n|]; [eauto|done].
Qed.

Lemma Forall2_elem_of_r {A B} (P : A -> B -> Prop) l k y :
  Forall2 P l k -> y ∈ k -> exists x, x ∈ l /\ P x y.
Proof.
  induction 1 as [|x y' l k Hxy _ IH]; [by intros ?%elem_of_nil|].
  intros [->|Hy]%elem_of_cons.
  - exists x. split; [left|done].
  - destruct (IH Hy) as (x' & ? & ?). exists x'. split; [by right|done].
Qed.

Lemma Forall2_elem_of_l {A B} (P : A -> B -> Prop) l k x :
  Forall2 P l k -> x ∈ l -> exists y, y ∈ k /\ P x y.
Proof.
  induction 1 as [|x' y l k Hxy _ IH]; [by intros ?%elem_of_nil|].
  intros [->|Hx]%elem_of_cons.
  - exists y. split; [left|done].
  - destruct (IH Hx) as (y' & ? & ?). exists y'. split; [by right|done].
Qed.

Lemma Forall2_map_eq {A B C} (P : A -> B -> Prop) (f : A -> C) (g : B -> C) l k :
  Forall2 P l k -> (forall x y, P x y -> g y = f x) -> map g k = map f l.
Proof.
  intros H Hfg. induction H as [|x y l k Hxy _ IH]; [done|].
  cbn. by rewrite (Hfg x y), IH.
Qed.

Lemma NoDup_two {A} (l : list A) x y :
  NoDup l -> x ∈ l -> y ∈ l -> x <> y -> (1 < length l)%nat.
Proof.
  intros Hnd Hx Hy Hne. destruct l as [|a [|b l]]; cbn; [|  |lia].
  - by apply elem_of_nil in Hx.
  - apply list_elem_of_singleton in Hx, Hy. congruence.
Qed.

Lemma NoDup_all_equal {A} (l : list A) x :
  NoDup l -> (forall y, y ∈ l -> y = x) -> (length l <= 1)%nat.
Proof.
  intros Hnd Hall. destruct l as [|a [|b l]]; cbn; [lia|lia|].
  apply NoDup_cons in Hnd as [Hab _]. destruct Hab.
  rewrite (Hall a) by left. rewrite (Hall b) by (right; left). left.
Qed.


Lemma NoDup_other {A} `{EqDecision A} (l : list A) x :
  NoDup l -> (1 < length l)%nat -> exists y, y ∈ l /\ y <> x.
Proof.
  intros Hnd Hlen. destruct l as [|a [|b l]]; cbn in Hlen; [lia|lia|].
  destruct (decide (a = x)) as [->|Hne].
  - exists b. split; [right; left|]. intros ->.
    apply NoDup_cons in Hnd as [Hnin _]. apply Hnin. left.
  - exists a. split; [left|done].
Qed.

(** The result depends on the ballots through the tally and the count of
    voters only. *)
Lemma calc_ranked_records_ext rand rows rows' urls uploaders :
  title_counts rows = title_counts rows' ->
  count_voters 0 rows 0 = count_voters 0 rows' 0 ->
  calc_ranked_records rand rows urls uploaders
  = calc_ranked_records rand rows' urls uploaders.
Proof.
  intros HT Hn. unfold calc_ranked_records.
  fold (title_counts rows). fold (title_counts rows'). by rewrite HT, Hn.
Qed.

Lemma ballot_ok_remove_blank pre b post :
  vote_count b = 0%nat ->
  Forall ballot_ok (pre ++ b :: post) <-> Forall ballot_ok (pre ++ post).
Proof.
  intros Hb. rewrite !Forall_app, Forall_cons. unfold ballot_ok at 2. tauto.
Qed.

Lemma counted_remove_blank pre b post :
  vote_count b = 0%nat -> counted (pre ++ b :: post) = counted (pre ++ post).
Proof.
  intros Hb. unfold counted. rewrite !filter_app.
  by rewrite filter_cons_False by lia.
Qed.

Lemma count_voters_remove_blank pre b post n :
  vote_count b = 0%nat ->
  count_voters 0 (pre ++ b :: post) 0 = Ok n
  <-> count_voters 0 (pre ++ post) 0 = Ok n.
Proof.
  intros Hb. split; intros [Hall ->]%count_voters_Ok_inv.
  - rewrite count_voters_ok by by apply (ballot_ok_remove_blank pre b post).
    by rewrite counted_remove_blank.
  - rewrite count_voters_ok by by apply (ballot_ok_remove_blank pre b post).
    by rewrite counted_remove_blank.
Qed.

(** The records of a successful run, one per ranked title. *)
Lemma calc_ranked_records_Ok_inv rand title_rows urls uploaders recs :
  calc_ranked_records rand title_rows urls uploaders = Ok recs ->
  exists st,
    Forall2 (fun t r =>
               ranked_record (title_counts title_rows)
                 (title_percentages title_rows (counted title_rows))
                 urls uploaders (tie_broken st) t = Ok r)
      (ranked_titles st) recs
    /\ NoDup (ranked_titles st)
    /\ (forall t, t ∈ ranked_titles st <-> t ∈ dict_keys (title_counts title_rows))
    /\ descending
         (map (percentage_of_title
                 (title_percentages title_rows (counted title_rows)))
            (ranked_titles st))
    /\ (forall t p,
           dict_get t (title_percentages title_rows (counted title_rows)) = Some p ->
           tie_broken st !! t
           = Some (1 <? length (group_of (title_percentages title_rows
                                            (counted title_rows)) p))%nat).
Proof.
  intros Hcalc.
  destruct (calc_ranked_records_Ok_counted _ _ _ _ _ Hcalc) as [n Hn].
  destruct (count_voters_Ok_inv _ _ _ _ Hn) as [_ ->]. cbn [Nat.add] in Hn.
  destruct (ranking_anatomy rand title_rows _ Hn)
    as (st & Heq & Hnd & Hkeys & Hdesc & Hflag).
  rewrite Heq in Hcalc. apply comprehension_Ok_inv in Hcalc.
  exists st. by split_and!.
Qed.

(** C3. In the ranked output the percentages descend, so that titles with
    the same percentage stand together; every tallied title appears
    once; a title carries the tie-break note exactly when another title
    of the output has the same percentage, and an empty note exactly when
    no other title has. *)
Theorem calc_ranked_records_ties
    rand title_rows titles_to_urls titles_to_uploaders recs :
  calc_ranked_records rand title_rows titles_to_urls titles_to_uploaders
  = Ok recs ->
  descending (map Percentage recs)
  /\ map Title recs ≡ₚ dict_keys (title_counts title_rows)
  /\ forall r, r ∈ recs ->
       (Notes r = tie_note
        <-> exists r', r' ∈ recs /\ Title r' <> Title r
                       /\ Percentage r' = Percentage r)
       /\ (Notes r = ""%string
           <-> forall r', r' ∈ recs -> Percentage r' = Percentage r ->
                          Title r' = Title r).
Proof.
  intros (st & Hrecs & Hnd & Hkeys & Hdesc & Hflag)%calc_ranked_records_Ok_inv.
  set (tp := title_percentages title_rows (counted title_rows)) in *.
  pose proof (title_percentages_NoDup title_rows (counted title_rows)) as Htp.
  fold tp in Htp.
  assert (Htitles : map Title recs = ranked_titles st).
  { rewrite <- (map_id (ranked_titles st)).
    apply (Forall2_map_eq _ id Title _ _ Hrecs).
    by intros t r (-> & _)%ranked_record_Ok_inv. }
  assert (Hpcts : map Percentage recs = map (percentage_of_title tp) (ranked_titles st)).
  { apply (Forall2_map_eq _ _ _ _ _ Hrecs).
    intros t r (_ & Hp & _)%ranked_record_Ok_inv.
    unfold percentage_of_title. by rewrite Hp. }
  assert (Hrec : forall r, r ∈ recs ->
            Title r ∈ group_of tp (Percentage r)
            /\ exists tie : bool,
                 tie = (1 <? length (group_of tp (Percentage r)))%nat
                 /\ Notes r = if tie then tie_note else ""%string).
  { intros r Hr. destruct (Forall2_elem_of_r _ _ _ _ Hrecs Hr) as (t & Ht & Hrt).
    apply ranked_record_Ok_inv in Hrt as (-> & Hp & _ & _ & _ & tie & Htie & Hnote).
    split; [by apply elem_of_group_of, dict_get_Some_elem|].
    exists tie. split; [|done]. rewrite (Hflag _ _ Hp) in Htie. congruence. }
  assert (Hgroup : forall t p, t ∈ group_of tp p ->
            exists r, r ∈ recs /\ Title r = t /\ Percentage r = p).
  { intros t p Hin%elem_of_group_of.
    assert (Ht : t ∈ ranked_titles st).
    { apply Hkeys. rewrite <- (title_percentages_keys _ (counted title_rows)).
      fold tp. apply elem_of_dict_keys. eauto. }
    destruct (Forall2_elem_of_l _ _ _ _ Hrecs Ht) as (r & Hr & Hrt).
    apply ranked_record_Ok_inv in Hrt as (Htitle & Hp & _).
    exists r. split_and!; [done|done|].
    apply (dict_get_elem _ _ _ Htp) in Hin. congruence. }
  split_and!.
  - by rewrite Hpcts.
  - rewrite Htitles. apply NoDup_Permutation; [done|apply title_counts_NoDup|done].
  - intros r Hr. destruct (Hrec r Hr) as (Hin & tie & Htie & Hnote).
    pose proof (group_of_NoDup tp (Percentage r) Htp) as Hgnd.
    assert (Hother : tie = true
                     <-> exists r', r' ∈ recs /\ Title r' <> Title r
                                    /\ Percentage r' = Percentage r).
    { rewrite Htie, Nat.ltb_lt. split.
      - intros Hlen. destruct (NoDup_other _ (Title r) Hgnd Hlen) as (t' & Ht' & Hne).
        destruct (Hgroup _ _ Ht') as (r' & Hr' & <- & Hp'). eauto.
      - intros (r' & Hr' & Hne & Hp'). destruct (Hrec r' Hr') as (Hin' & _).
        rewrite Hp' in Hin'. by apply (NoDup_two _ (Title r') (Title r)). }
    rewrite Hnote. destruct tie; (split; split).
    + intros _. by apply Hother.
    + done.
    + done.
    + intros Hall. destruct (proj1 Hother eq_refl) as (r' & Hr' & Hne & Hp').
      destruct Hne. by apply Hall.
    + done.
    + intros Hex%Hother. done.
    + intros _ r' Hr' Hp'. destruct (decide (Title r' = Title r)); [done|].
      assert (true = false); [|done]. symmetry. apply Hother. eauto.
    + done.
Qed.


Lemma example_records_computed :
  calc_ranked_records example_rand example_title_rows
    example_titles_to_urls example_titles_to_uploaders
  = Ok example_records.
Proof. by vm_compute. Qed.

Lemma calc_ranked_records_ties_witness :
  descending (map Percentage example_records)
  /\ map Title example_records ≡ₚ dict_keys (title_counts example_title_rows)
  /\ forall r, r ∈ example_records ->
       (Notes r = tie_note
        <-> exists r', r' ∈ example_records /\ Title r' <> Title r
                       /\ Percentage r' = Percentage r)
       /\ (Notes r = ""%string
           <-> forall r', r' ∈ example_records ->
                          Percentage r' = Percentage r -> Title r' = Title r).
Proof.
  apply (calc_ranked_records_ties example_rand example_title_rows
           example_titles_to_urls example_titles_to_uploaders).
  vm_compute. reflexivity.
Defined.


Lemma calc_ranked_records_first_invalid rand pre b post urls uploaders :
  Forall ballot_ok pre -> (1 <= vote_count b <= 4)%nat ->
  calc_ranked_records rand (pre ++ b :: post) urls uploaders
  = Raise (ValueError (OnlyVotesIncluded (vote_count b) (length pre + 2))).
Proof.
  intros Hpre Hb. unfold calc_ranked_records.
  by rewrite count_voters_first_invalid.
Qed.

Lemma all_blank_counted title_rows :
  Forall (fun b => vote_count b = 0%nat) title_rows ->
  count_voters 0 title_rows 0 = Ok 0%nat.
Proof.
  intros Hall. rewrite count_voters_ok.
  - f_equal. unfold counted. induction Hall as [|b rows Hb _ IH]; [done|].
    by rewrite filter_cons_False by lia.
  - eapply Forall_impl; [exact Hall|]. intros b Hb. by left.
Qed.

Lemma calc_ranked_records_percentage rand title_rows urls uploaders recs r :
  calc_ranked_records rand title_rows urls uploaders = Ok recs ->
  r ∈ recs ->
  Percentage r = percent (Total_Votes r) (counted title_rows).
Proof.
  intros (st & Hrecs & _)%calc_ranked_records_Ok_inv Hr.
  destruct (Forall2_elem_of_r _ _ _ _ Hrecs Hr) as (t & _ & Hrt).
  apply ranked_record_Ok_inv in Hrt as (_ & Hp & Hc & _).
  rewrite title_percentages_get, Hc in Hp. by injection Hp as <-.
Qed.

(** The records are built when every ballot passes the validation and
    both mappings know every tallied title. *)
Lemma calc_ranked_records_ok rand title_rows urls uploaders :
  Forall ballot_ok title_rows ->
  (forall t, t ∈ dict_keys (title_counts title_rows) ->
             is_Some (dict_get t urls) /\ is_Some (dict_get t uploaders)) ->
  exists recs, calc_ranked_records rand title_rows urls uploaders = Ok recs.
Proof.
  intros Hvalid Hknown.
  pose proof (count_voters_ok 0 title_rows 0 Hvalid) as Hn. cbn [Nat.add] in Hn.
  destruct (ranking_anatomy rand title_rows _ Hn)
    as (st & Heq & _ & Hkeys & _ & Hflag).
  rewrite Heq.
  destruct (comprehension _ (ranked_titles st)) as [recs|e] eqn:Hc; [by eexists|].
  apply comprehension_Raise_inv in Hc as (t & Ht%Hkeys & He).
  destruct (Hknown t Ht) as [[url Hurl] [u Hu]].
  pose proof Ht as [c Hc]%dict_keys_is_Some.
  assert (Hp : dict_get t (title_percentages title_rows (counted title_rows))
               = Some (percent c (counted title_rows)))
    by by rewrite title_percentages_get, Hc.
  rewrite (ranked_record_ok _ _ _ _ _ t _ c url u _ Hp Hc Hurl Hu (Hflag _ _ Hp))
    in He.
  done.
Qed.

(** C1. A ballot without votes can be taken out of the input, or put
    into it, without changing the records, and ballots without votes
    alone give the empty ranking without error; the first ballot with one
    to four votes makes the computation raise the validation error that
    states its number of votes and its line (its index plus two), so any
    such ballot makes the computation raise a validation error; the
    percentage of every record is its number of votes divided by the
    number of ballots with five or more votes, times one hundred; and
    when every ballot is blank or has five or more votes and both
    mappings know every tallied title, the computation returns one
    record for every tallied title, with the tally of the title as its
    number of votes and this percentage. *)
Theorem calc_ranked_records_validation
    rand titles_to_urls titles_to_uploaders :
  (forall pre b post recs,
      vote_count b = 0%nat ->
      calc_ranked_records rand (pre ++ b :: post) titles_to_urls
        titles_to_uploaders = Ok recs
      <-> calc_ranked_records rand (pre ++ post) titles_to_urls
            titles_to_uploaders = Ok recs)
  /\ (forall title_rows,
         Forall (fun b => vote_count b = 0%nat) title_rows ->
         calc_ranked_records rand title_rows titles_to_urls
           titles_to_uploaders = Ok [])
  /\ (forall pre b post,
         Forall ballot_ok pre -> (1 <= vote_count b <= 4)%nat ->
         calc_ranked_records rand (pre ++ b :: post) titles_to_urls
           titles_to_uploaders
         = Raise (ValueError
                    (OnlyVotesIncluded (vote_count b) (length pre + 2))))
  /\ (forall title_rows b,
         b ∈ title_rows -> (1 <= vote_count b <= 4)%nat ->
         exists votes line,
           calc_ranked_records rand title_rows titles_to_urls
             titles_to_uploaders
           = Raise (ValueError (OnlyVotesIncluded votes line))
           /\ exists b', title_rows !! (line - 2)%nat = Some b'
                         /\ vote_count b' = votes /\ (1 <= votes <= 4)%nat)
  /\ (forall title_rows recs r,
         calc_ranked_records rand title_rows titles_to_urls
           titles_to_uploaders = Ok recs ->
         r ∈ recs ->
         Percentage r = percent (Total_Votes r) (counted title_rows))
  /\ (forall title_rows,
         Forall ballot_ok title_rows ->
         Forall (fun t => is_Some (dict_get t titles_to_urls)
                          /\ is_Some (dict_get t titles_to_uploaders))
           (dict_keys (title_counts title_rows)) ->
         exists recs,
           calc_ranked_records rand title_rows titles_to_urls
             titles_to_uploaders = Ok recs
           /\ map Title recs ≡ₚ dict_keys (title_counts title_rows)
           /\ Forall (fun r =>
                        dict_get (Title r) (title_counts title_rows)
                        = Some (Total_Votes r)
                        /\ Percentage r
                           = percent (Total_Votes r) (counted title_rows))
                recs).
Proof.
  split_and!.
  - intros pre b post recs Hb.
    assert (Hcount : forall n,
               count_voters 0 (pre ++ b :: post) 0 = Ok n
               <-> count_voters 0 (pre ++ post) 0 = Ok n)
      by (intros n; by apply count_voters_remove_blank).
    split; intros Hcalc;
      destruct (calc_ranked_records_Ok_counted _ _ _ _ _ Hcalc) as [n Hn].
    + rewrite <- Hcalc. symmetry. apply calc_ranked_records_ext.
      * by apply title_counts_blank_ballot.
      * rewrite Hn. symmetry. by apply Hcount.
    + rewrite <- Hcalc. apply calc_ranked_records_ext.
      * by apply title_counts_blank_ballot.
      * rewrite Hn. by apply Hcount.
  - intros title_rows Hall. pose proof (all_blank_counted _ Hall) as Hn.
    destruct (ranking_anatomy rand title_rows _ Hn) as (st & Heq & _ & Hkeys & _).
    rewrite Heq. rewrite (no_voters_no_titles _ Hn) in Hkeys.
    destruct (ranked_titles st) as [|t ts]; [done|].
    assert (Ht : t ∈ dict_keys (@nil (string * nat))) by (apply Hkeys; left).
    by apply elem_of_nil in Ht.
  - intros pre b post Hpre Hb. by apply calc_ranked_records_first_invalid.
  - intros title_rows b Hin Hb.
    destruct (first_invalid_ballot title_rows)
      as [Hall|(pre & b' & post & -> & Hpre & Hb')].
    + rewrite Forall_forall in Hall. specialize (Hall b Hin).
      unfold ballot_ok in Hall. lia.
    + exists (vote_count b'), (length pre + 2)%nat.
      split; [by apply calc_ranked_records_first_invalid|].
      exists b'. split; [|done].
      replace (length pre + 2 - 2)%nat with (length pre + 0)%nat by lia.
      by rewrite lookup_app_r by lia; rewrite Nat.add_0_r, Nat.sub_diag.
  - intros title_rows recs r. apply calc_ranked_records_percentage.
  - intros title_rows Hvalid Hknown. rewrite Forall_forall in Hknown.
    destruct (calc_ranked_records_ok rand title_rows titles_to_urls
                titles_to_uploaders Hvalid Hknown) as [recs Hcalc].
    exists recs. split; [done|].
    destruct (calc_ranked_records_Ok_inv _ _ _ _ _ Hcalc)
      as (st & Hrecs & Hnd & Hkeys & _).
    split.
    + assert (Htitles : map Title recs = ranked_titles st).
      { clear -Hrecs. induction Hrecs as [|t r ts rs Hr _ IH]; [done|].
        apply ranked_record_Ok_inv in Hr as (<- & _). cbn. by rewrite IH. }
      rewrite Htitles.
      apply NoDup_Permutation; [done|apply title_counts_NoDup|done].
    + apply Forall_forall. intros r Hr. split.
      * destruct (Forall2_elem_of_r _ _ _ _ Hrecs Hr) as (t & _ & Hrt).
        by apply ranked_record_Ok_inv in Hrt as (<- & _ & Hc & _).
      * by eapply calc_ranked_records_percentage.
Qed.

Lemma calc_ranked_records_validation_witness :
  (exists recs,
      calc_ranked_records example_rand example_title_rows
        example_titles_to_urls example_titles_to_uploaders = Ok recs
      /\ map Title recs ≡ₚ dict_keys (title_counts example_title_rows)
      /\ Forall (fun r =>
                   dict_get (Title r) (title_counts example_title_rows)
                   = Some (Total_Votes r)
                   /\ Percentage r
                      = percent (Total_Votes r) (counted example_title_rows))
           recs)
  /\ counted example_title_rows = 3%nat
  /\ calc_ranked_records example_rand
       ([["a"; "b"; "c"; "d"; "e"]%string] ++ ["x"; ""; "y"]%string
        :: [[""]%string])
       example_titles_to_urls example_titles_to_uploaders
     = Raise (ValueError
                (OnlyVotesIncluded (vote_count ["x"; ""; "y"]%string)
                   (length [["a"; "b"; "c"; "d"; "e"]%string] + 2))).
Proof.
  destruct (calc_ranked_records_validation example_rand
              example_titles_to_urls example_titles_to_uploaders)
    as (_ & _ & Hinvalid & _ & _ & Hcounted).
  split_and!.
  - apply (Hcounted example_title_rows).
    + apply (bool_decide_unpack _). vm_compute. reflexivity.
    + apply (bool_decide_unpack _). vm_compute. reflexivity.
  - reflexivity.
  - apply Hinvalid.
    + constructor; [right; vm_compute; lia|constructor].
    + vm_compute. lia.
Defined.

(** C10. The computation never raises a division by zero: when the
    validation passes and no ballot is counted, every ballot is without
    votes, the tally without the blank title is empty, and the percentage
    step has nothing to divide. *)
Theorem calc_ranked_records_no_division_by_zero
    rand title_rows titles_to_urls titles_to_uploaders :
  calc_ranked_records rand title_rows titles_to_urls titles_to_uploaders
  <> Raise ZeroDivisionError
  /\ (count_voters 0 title_rows 0 = Ok 0%nat ->
      Forall (fun b => vote_count b = 0%nat) title_rows
      /\ title_counts title_rows = []
      /\ comprehension
           (fun tc => p ← percentage_of tc.2 0; Ok (tc.1, p))
           (title_counts title_rows) = Ok [])
  /\ (forall n count, n <> 0%nat -> percentage_of count n = Ok (percent count n)).
Proof.
  split_and!.
  - destruct (count_voters 0 title_rows 0) as [n|e] eqn:Hn.
    + destruct (ranking_anatomy rand title_rows n Hn) as (st & Heq & _).
      rewrite Heq.
      intros (t & _ & Ht%ranked_record_Raise_inv)%comprehension_Raise_inv.
      done.
    + unfold calc_ranked_records. rewrite Hn. cbn.
      apply count_voters_Raise_inv in Hn as (? & ? & ? & _ & _ & _ & ->).
      done.
  - intros Hn. split_and!.
    + destruct (count_voters_Ok_inv _ _ _ _ Hn) as [Hall Hc].
      clear Hn. induction Hall as [|b rows Hb _ IH]; [done|].
      rewrite counted_cons in Hc. case_decide; [lia|].
      constructor; [|by apply IH]. destruct Hb; [done|lia].
    + by apply no_voters_no_titles.
    + by rewrite (no_voters_no_titles _ Hn).
  - intros [|n] count Hne; [done|done].
Qed.

Lemma calc_ranked_records_no_division_by_zero_witness :
  Forall (fun b => vote_count b = 0%nat) [[""; ""]%string; []]
  /\ title_counts [[""; ""]%string; []] = []
  /\ comprehension
       (fun tc => p ← percentage_of tc.2 0; Ok (tc.1, p))
       (title_counts [[""; ""]%string; []]) = Ok [].
Proof.
  apply (proj1 (proj2 (calc_ranked_records_no_division_by_zero example_rand
           [[""; ""]%string; []] example_titles_to_urls
           example_titles_to_uploaders))).
  reflexivity.
Defined.


(** *** Uploaders *)

Lemma get_titles_to_uploaders_loop urls
    (videos_data : gmap string (option VideoData)) acc :
  NoDup (dict_keys urls) ->
  Forall (fun tu : string * string => is_Some (videos_data !! tu.2)) urls ->
  exists uploaders,
    foldM (set_uploader videos_data) urls acc = Ok uploaders
    /\ forall t, dict_get t uploaders
                 = match dict_get t urls with
                   | Some url => Some (uploader_of (videos_data !! url))
                   | None => dict_get t acc
                   end.
Proof.
  intros Hnd Hall. revert acc.
  induction Hall as [|[t url] urls [data Hdata] _ IH]; intros acc.
  - by exists acc.
  - apply NoDup_cons in Hnd as [Hnin Hnd]. cbn [foldM]. unfold set_uploader at 1.
    cbn [fst snd] in *. rewrite Hdata.
    destruct (IH Hnd (dict_set t
                        match data with
                        | Some video_data => uploader video_data
                        | None => PNone
                        end acc)) as (uploaders & -> & Hget).
    exists uploaders. split; [done|]. intros t'. rewrite Hget. cbn [dict_get].
    destruct (decide (t = t')) as [<-|Hne].
    + apply dict_get_None_keys in Hnin. rewrite Hnin, dict_get_set_eq.
      unfold uploader_of. rewrite Hdata. done.
    + destruct (dict_get t' urls); [done|]. by rewrite dict_get_set_ne.
Qed.

Lemma get_titles_to_uploaders_missing urls
    (videos_data : gmap string (option VideoData)) acc :
  Exists (fun tu : string * string => videos_data !! tu.2 = None) urls ->
  exists url,
    foldM (set_uploader videos_data) urls acc = Raise (KeyError (KStr url))
    /\ videos_data !! url = None.
Proof.
  intros Hex. revert acc.
  induction urls as [|[t url] urls IH]; intros acc; [by inversion Hex|].
  cbn [foldM]. unfold set_uploader at 1. cbn [fst snd].
  destruct (videos_data !! url) as [data|] eqn:Hdata.
  - apply IH. inversion Hex as [? ? Hhere|]; subst; [|done].
    cbn in Hhere. congruence.
  - by exists url.
Qed.

Lemma comprehension_fails {A B} (f : A -> result B) l x :
  x ∈ l -> is_ok (f x) = false ->
  exists y e, y ∈ l /\ comprehension f l = Raise e /\ f y = Raise e.
Proof.
  intros Hx Hfx. induction l as [|a l IH]; [by apply elem_of_nil in Hx|].
  cbn [comprehension]. destruct (f a) as [b|e] eqn:Hfa.
  - apply elem_of_cons in Hx as [->|Hx]; [by rewrite Hfa in Hfx|].
    destruct (IH Hx) as (y & e & Hy & -> & Hfy).
    exists y, e. split; [by right|done].
  - exists a, e. split; [left|done].
Qed.

(** C2 (amended). When the ballots pass the validation: if every ranked
    title has a URL in the title-to-URL mapping and every URL of the
    mapping is a key of the fetched data, the records are built without
    exception, and a title whose data are [None], or whose data have no
    uploader, gets the empty uploader; if a URL of the mapping is not a
    key of the fetched data, looking up the uploaders raises [KeyError];
    and if a ranked title is missing from the title-to-URL mapping or
    from the title-to-uploader mapping, building the records raises
    [KeyError]. *)
Theorem calc_ranked_records_uploader
    rand title_rows titles_to_urls
    (videos_data : gmap string (option VideoData)) :
  NoDup (dict_keys titles_to_urls) ->
  Forall ballot_ok title_rows ->
  (Forall (fun tu : string * string => is_Some (videos_data !! tu.2))
     titles_to_urls ->
   Forall (fun t => is_Some (dict_get t titles_to_urls))
     (dict_keys (title_counts title_rows)) ->
   exists titles_to_uploaders recs,
     get_titles_to_uploaders titles_to_urls videos_data = Ok titles_to_uploaders
     /\ calc_ranked_records rand title_rows titles_to_urls titles_to_uploaders
        = Ok recs
     /\ forall r, r ∈ recs ->
          dict_get (Title r) titles_to_urls = Some (URL r)
          /\ Uploader r = shown_uploader (uploader_of (videos_data !! URL r))
          /\ (videos_data !! URL r = Some None -> Uploader r = PStr ""))
  /\ (Exists (fun tu : string * string => videos_data !! tu.2 = None)
        titles_to_urls ->
      exists url,
        get_titles_to_uploaders titles_to_urls videos_data
        = Raise (KeyError (KStr url))
        /\ videos_data !! url = None)
  /\ (forall titles_to_uploaders,
         Exists (fun t => dict_get t titles_to_urls = None
                          \/ dict_get t titles_to_uploaders = None)
           (dict_keys (title_counts title_rows)) ->
         exists t,
           calc_ranked_records rand title_rows titles_to_urls
             titles_to_uploaders = Raise (KeyError (KStr t))
           /\ t ∈ dict_keys (title_counts title_rows)).
Proof.
  intros Hnd Hvalid.
  pose proof (count_voters_ok 0 title_rows 0 Hvalid) as Hn. cbn [Nat.add] in Hn.
  destruct (ranking_anatomy rand title_rows _ Hn)
    as (st & Heq & _ & Hkeys & _ & Hflag).
  split_and!.
  - intros Hdata Hurls.
    destruct (get_titles_to_uploaders_loop titles_to_urls videos_data [] Hnd Hdata)
      as (uploaders & Hup & Hget).
    set (record := fun t =>
      {| Title := t;
         Uploader := shown_uploader
                       (uploader_of
                          (videos_data !! default ""%string (dict_get t titles_to_urls)));
         Percentage := percentage_of_title
                         (title_percentages title_rows (counted title_rows)) t;
         Total_Votes := default 0%nat (dict_get t (title_counts title_rows));
         URL := default ""%string (dict_get t titles_to_urls);
         Notes := if (1 <? length (group_of
                                     (title_percentages title_rows (counted title_rows))
                                     (percentage_of_title
                                        (title_percentages title_rows
                                           (counted title_rows)) t)))%nat
                  then tie_note else ""%string |}).
    exists uploaders, (map record (ranked_titles st)).
    split; [done|]. split.
    + rewrite Heq. apply comprehension_ok. intros t Ht%Hkeys.
      rewrite Forall_forall in Hurls. destruct (Hurls t Ht) as [url Hurl].
      pose proof Ht as [c Hc]%dict_keys_is_Some.
      assert (Hp : dict_get t (title_percentages title_rows (counted title_rows))
                   = Some (percent c (counted title_rows)))
        by by rewrite title_percentages_get, Hc.
      rewrite (ranked_record_ok _ _ _ _ _ t _ c url
                 (uploader_of (videos_data !! url)) _ Hp Hc Hurl)
        by (by rewrite ?Hget, ?Hurl; try apply Hflag).
      subst record. cbn beta. unfold percentage_of_title.
      by rewrite Hp, Hc, Hurl.
    + intros r (t & -> & Ht)%list_elem_of_fmap. apply Hkeys in Ht.
      rewrite Forall_forall in Hurls. destruct (Hurls t Ht) as [url Hurl].
      subst record. cbn [Title URL Uploader]. rewrite Hurl. cbn [default].
      split_and!; [done|done|]. by intros ->.
  - intros Hex. by apply get_titles_to_uploaders_missing.
  - intros uploaders (t & Ht & Hmiss)%Exists_exists. rewrite Heq.
    destruct (comprehension_fails
                (ranked_record (title_counts title_rows)
                   (title_percentages title_rows (counted title_rows))
                   titles_to_urls uploaders (tie_broken st))
                (ranked_titles st) t) as (t' & e & Ht' & -> & He).
    + by apply Hkeys.
    + unfold ranked_record, getitem.
      destruct Hmiss as [Hmiss|Hmiss]; rewrite Hmiss; [|reflexivity].
      destruct (dict_get t uploaders); [|reflexivity].
      destruct (dict_get t (title_percentages _ _)); [|reflexivity].
      destruct (dict_get t (title_counts _)); reflexivity.
    + apply ranked_record_Raise_inv in He as ->. exists t'.
      split; [done|]. by apply Hkeys.
Qed.


Lemma calc_ranked_records_uploader_witness :
  exists titles_to_uploaders recs,
    get_titles_to_uploaders example_titles_to_urls example_videos_data
    = Ok titles_to_uploaders
    /\ calc_ranked_records example_rand example_title_rows
         example_titles_to_urls titles_to_uploaders = Ok recs
    /\ forall r, r ∈ recs ->
         dict_get (Title r) example_titles_to_urls = Some (URL r)
         /\ Uploader r
            = shown_uploader (uploader_of (example_videos_data !! URL r))
         /\ (example_videos_data !! URL r = Some None -> Uploader r = PStr "").
Proof.
  apply (proj1 (calc_ranked_records_uploader example_rand example_title_rows
                  example_titles_to_urls example_videos_data
                  ltac:(apply (bool_decide_unpack _); vm_compute; reflexivity)
                  ltac:(apply (bool_decide_unpack _); vm_compute; reflexivity))).
  - apply (bool_decide_unpack _). vm_compute. reflexivity.
  - apply (bool_decide_unpack _). vm_compute. reflexivity.
Defined.

(** C2, as stated, fails in two ways.  The title of a valid ballot has no
    URL in the (empty) title-to-URL mapping: building the records raises.
    The URL of a title is not a key of the fetched data: looking up the
    uploaders raises. *)
Lemma calc_ranked_records_missing_metadata_raises :
  get_titles_to_uploaders [] ∅ = Ok []
  /\ calc_ranked_records example_rand [["a"; "b"; "c"; "d"; "e"]%string] [] []
     = Raise (KeyError (KStr "a"))
  /\ get_titles_to_uploaders [("a", "u")%string] ∅
     = Raise (KeyError (KStr "u")).
Proof. split_and!; by vm_compute. Qed.

End Top10CalcSpec.

(** ** Properties of classes/fetch_services.py *)

Module FetchServicesSpec.

Import Typing Messages FetchServices Spec PyFacts.

Section YtDlpFetchService.

Variable netloc : str -> str.
Variable extract_info : str -> option extraction.
Variable sha256_hexdigest : string -> string.

(** The link to one of several videos of a post:
    [.../video/<number>]. *)
Lemma video_index_of_url (base digits : str) :
  is_number digits = true ->
  let url := base ++ chars "/video/" ++ digits in
  endswith (chars "/video") (slice url 0 (rfind "/" url)) = true
  /\ int (slice_from url (rfind "/" url + 1)) = Ok (decimal digits).
Proof.
  intros Hnum url.
  assert (Hurl : url = (base ++ chars "/video") ++ "/"%char :: digits).
  { subst url. by rewrite <- app_assoc. }
  assert (Hslash : "/"%char ∉ digits).
  { apply is_number_spec in Hnum as [_ Hall]. intros Hin.
    rewrite Forall_forall in Hall. by specialize (Hall _ Hin). }
  rewrite Hurl, rfind_last by done. split.
  - rewrite slice_prefix. apply endswith_app.
  - replace (Z.of_nat (length (base ++ chars "/video")) + 1)
      with (Z.of_nat (length ((base ++ chars "/video") ++ ["/"%char])))
      by (rewrite (length_app _ ["/"%char]); simpl; lia).
    rewrite (cons_middle "/"%char), app_assoc.
    rewrite slice_from_suffix. by apply int_number.
Qed.

(** C9. A twitter or x link that names one of several videos of a post
    by a trailing number, for which the extraction succeeds with a
    titled response: the request returns a record; when the number is not
    1 its duration is [None] and the diagnostic is printed, and when the
    number is 1 the extracted duration is kept and nothing is printed. *)
Theorem request_twitter_video_index
    (url base digits : str) (response : gmap string pyval)
    (post_title : string) :
  url = base ++ chars "/video/" ++ digits ->
  is_number digits = true ->
  site_of netloc url = Ok (chars "twitter")
  \/ site_of netloc url = Ok (chars "x") ->
  extract extract_info url = Ok response ->
  response !! "title" = Some (PStr post_title) ->
  exists video_data printed,
    request netloc extract_info sha256_hexdigest url = Ok (video_data, printed)
    /\ (decimal digits <> 1 ->
        duration video_data = PNone
        /\ SeveralVideosDurationIgnored ∈ printed)
    /\ (decimal digits = 1 ->
        duration video_data = get response "duration" /\ printed = []).
Proof.
  intros Hurl Hnum Hsite Hextract Htitle.
  destruct (video_index_of_url base digits Hnum) as [Hends Hint].
  rewrite <- Hurl in Hends, Hint. clear Hurl.
  assert (Hhandle : exists response' printed,
    (handle_site sha256_hexdigest url (chars "twitter") response
     = Ok (chars "twitter", response', printed))
    /\ handle_site sha256_hexdigest url (chars "x") response
       = handle_site sha256_hexdigest url (chars "twitter") response
    /\ (decimal digits <> 1 ->
        get response' "duration" = PNone
        /\ SeveralVideosDurationIgnored ∈ printed)
    /\ (decimal digits = 1 ->
        get response' "duration" = get response "duration" /\ printed = [])).
  { unfold handle_site. cbn [string_of_list_ascii chars list_ascii_of_string].
    assert (Hget : get (<["channel":=get response "uploader_id"]> response) "title"
                   = PStr post_title).
    { unfold get. by rewrite lookup_insert_ne, Htitle. }
    rewrite Hget. cbn [hash_str mbind result_bind Py.bind].
    cbn [chars list_ascii_of_string] in Hends.
    rewrite Hends, Hint. cbn [mbind result_bind Py.bind].
    case_bool_decide as Hidx; do 2 eexists; (split; [reflexivity|]);
      (split; [reflexivity|]); split; intros Hd; try done.
    - split; [|left]. unfold get. by rewrite lookup_insert_eq.
    - split; [|done]. unfold get. by rewrite !lookup_insert_ne. }
  destruct Hhandle as (response' & printed & Htw & Hx & Hne & Heq).
  unfold request.
  assert (Hh : handle_site sha256_hexdigest url
                 (match site_of netloc url with Ok s => s | _ => [] end) response
               = Ok (chars "twitter", response', printed)).
  { destruct Hsite as [-> | ->]; [done|]. by rewrite Hx. }
  destruct Hsite as [Hs|Hs]; rewrite Hs in Hh |- *; rewrite Hextract;
    cbn [mbind result_bind Py.bind]; rewrite Hh;
    cbn [mbind result_bind Py.bind]; do 2 eexists;
    (split; [reflexivity|]); cbn [duration]; auto.
Qed.

End YtDlpFetchService.

(** C9 at work: the second video of a post on x.com, with the libraries
    replaced by fixed answers. *)
Lemma request_twitter_video_index_witness :
  exists video_data printed,
    request example_netloc example_extract_info example_sha256
      example_url = Ok (video_data, printed)
    /\ (decimal (chars "2") <> 1 ->
        duration video_data = PNone
        /\ SeveralVideosDurationIgnored ∈ printed)
    /\ (decimal (chars "2") = 1 ->
        duration video_data = get example_response "duration"
        /\ printed = []).
Proof.
  apply (request_twitter_video_index example_netloc example_extract_info
           example_sha256 example_url (chars "https://x.com/u/status/1")
           (chars "2") example_response "a post").
  - reflexivity.
  - reflexivity.
  - right. reflexivity.
  - reflexivity.
  - reflexivity.
Defined.

End FetchServicesSpec.

(** ** Properties of the remaining functions of functions/date.py *)

Module DateRestSpec.

Import Date DateRest Re Spec SpecRest PyFacts ReFacts DateSpec.

(** *** Writing a timestamp and reading it back *)

(** The first match of a pattern is made of the first match of its first
    item and the first match of the rest. *)
Lemma head_run_items_cons re items s m r gs rest :
  head (run re s) = Some (m, r) ->
  head (run_items items r) = Some (gs, rest) ->
  head (run_items (re :: items) s) = Some (m :: gs, rest).
Proof.
  intros [junk Hrun]%head_Some [more Hitems]%head_Some.
  cbn [run_items]. rewrite Hrun. cbn. rewrite Hitems. done.
Qed.

Lemma head_run_Lit c rest : head (run (Lit c) (c :: rest)) = Some ([c], rest).
Proof. by rewrite run_Lit_cons. Qed.

Ltac field_case :=
  split; [reflexivity|];
  split; [reflexivity|];
  split; [by eexists _, _|];
  intros rest; reflexivity.

Lemma month_field k :
  (1 <= k <= 12)%nat ->
  is_number (str_of_int (Z.of_nat k)) = true
  /\ field_ok re_m (zfill 2 (str_of_int (Z.of_nat k))) (Z.of_nat k).
Proof.
  intros Hk. do 13 (destruct k as [|k]; [first [lia|field_case]|]). lia.
Qed.

Lemma day_field k :
  (1 <= k <= 31)%nat ->
  is_number (str_of_int (Z.of_nat k)) = true
  /\ field_ok re_d (zfill 2 (str_of_int (Z.of_nat k))) (Z.of_nat k).
Proof.
  intros Hk. do 32 (destruct k as [|k]; [first [lia|field_case]|]). lia.
Qed.

Lemma hour_field k :
  (k <= 23)%nat ->
  is_number (str_of_int (Z.of_nat k)) = true
  /\ field_ok re_H (zfill 2 (str_of_int (Z.of_nat k))) (Z.of_nat k).
Proof.
  intros Hk. do 24 (destruct k as [|k]; [first [lia|field_case]|]). lia.
Qed.

Lemma minute_field k :
  (k <= 59)%nat ->
  is_number (str_of_int (Z.of_nat k)) = true
  /\ field_ok re_M (zfill 2 (str_of_int (Z.of_nat k))) (Z.of_nat k).
Proof.
  intros Hk. do 60 (destruct k as [|k]; [first [lia|field_case]|]). lia.
Qed.

Lemma second_field k :
  (k <= 59)%nat ->
  is_number (str_of_int (Z.of_nat k)) = true
  /\ field_ok re_S (zfill 2 (str_of_int (Z.of_nat k))) (Z.of_nat k).
Proof.
  intros Hk. do 60 (destruct k as [|k]; [first [lia|field_case]|]). lia.
Qed.


Lemma years_checked : forallb year_check (seq 1 (Z.to_nat 9999)) = true.
Proof. by vm_compute. Qed.

Lemma run_re_Y a b c d rest :
  is_digit a = true -> is_digit b = true -> is_digit c = true ->
  is_digit d = true ->
  run re_Y (a :: b :: c :: d :: rest) = [([a; b; c; d], rest)].
Proof.
  intros Ha Hb Hc Hd. cbn -[is_digit]. rewrite Ha. cbn -[is_digit].
  rewrite Hb. cbn -[is_digit]. rewrite Hc. cbn -[is_digit]. by rewrite Hd.
Qed.

Lemma year_field y :
  1 <= y <= 9999 ->
  is_number (str_of_int y) = true
  /\ field_ok re_Y (zfill 4 (str_of_int y)) y.
Proof.
  intros Hy. pose proof years_checked as Hall.
  rewrite forallb_forall in Hall. specialize (Hall (Z.to_nat y)).
  rewrite in_seq in Hall. specialize (Hall ltac:(lia)).
  unfold year_check in Hall. rewrite Z2Nat.id in Hall by lia.
  apply andb_prop in Hall as [Hall Hdigits].
  apply andb_prop in Hall as [Hall Hlen].
  apply andb_prop in Hall as [Hnum Hint].
  split; [done|]. apply Nat.eqb_eq in Hlen.
  destruct (zfill 4 (str_of_int y)) as [|a [|b [|c [|d [|? ?]]]]] eqn:Htext;
    try done.
  cbn -[is_digit] in Hdigits. apply andb_prop in Hdigits as [Ha Hdigits].
  apply andb_prop in Hdigits as [Hb Hdigits].
  apply andb_prop in Hdigits as [Hc Hdigits].
  apply andb_prop in Hdigits as [Hd _].
  split_and!.
  - destruct (int [a; b; c; d]) as [z|]; [|done].
    apply Z.eqb_eq in Hint. by subst.
  - by exists a, [b; c; d].
  - intros rest. cbn [app]. by rewrite run_re_Y.
Qed.

Lemma head_run_spaces c rest :
  is_space c = false ->
  head (run (Plus is_space) (" "%char :: c :: rest)) = Some ([" "%char], c :: rest).
Proof. intros Hc. cbn. by rewrite Hc. Qed.

(** The ranges of the fields of a date. *)
Lemma check_field_cases field lo hi v :
  (lo <= v <= hi /\ check_field field lo hi v = Ok ())
  \/ check_field field lo hi v = Raise (ValueError (FieldOutOfRange field v)).
Proof.
  unfold check_field.
  destruct (Z.leb_spec lo v), (Z.leb_spec v hi); cbn; auto.
Qed.

Lemma is_datetime_ranges dt :
  is_datetime dt = true ->
  1 <= year dt <= 9999 /\ 1 <= month dt <= 12
  /\ 1 <= day dt <= days_in_month (year dt) (month dt)
  /\ 0 <= hour dt <= 23 /\ 0 <= minute dt <= 59 /\ 0 <= second dt <= 59.
Proof.
  unfold is_datetime, datetime_of.
  destruct (check_field_cases "year" 1 9999 (year dt)) as [[? ->]| ->]; [|done].
  destruct (check_field_cases "month" 1 12 (month dt)) as [[? ->]| ->]; [|done].
  destruct (check_field_cases "day" 1 (days_in_month (year dt) (month dt)) (day dt))
    as [[? ->]| ->]; [|done].
  destruct (check_field_cases "hour" 0 23 (hour dt)) as [[? ->]| ->]; [|done].
  destruct (check_field_cases "minute" 0 59 (minute dt)) as [[? ->]| ->]; [|done].
  destruct (check_field_cases "second" 0 59 (second dt)) as [[? ->]| ->]; [|done].
  done.
Qed.

Lemma is_datetime_microsecond dt :
  is_datetime dt = true -> 0 <= microsecond dt <= 999999.
Proof.
  unfold is_datetime, datetime_of.
  repeat match goal with
  | |- context [check_field ?f ?lo ?hi ?v] =>
      destruct (check_field_cases f lo hi v) as [[? ->]| ->]; [|done]
  end.
  done.
Qed.

Lemma days_in_month_le y m : days_in_month y m <= 31.
Proof.
  unfold days_in_month.
  repeat match goal with |- context [if ?b then _ else _] => destruct b end; lia.
Qed.

Lemma datetime_new_valid dt :
  is_datetime dt = true ->
  datetime_new (year dt) (month dt) (day dt) (hour dt) (minute dt) (second dt)
    None
  = Ok {| year := year dt; month := month dt; day := day dt;
          hour := hour dt; minute := minute dt; second := second dt;
          microsecond := 0; tzinfo_of := None |}.
Proof.
  intros (? & ? & ? & ? & ? & ?)%is_datetime_ranges.
  unfold datetime_new, datetime_of.
  by rewrite !check_field_ok by (done || lia).
Qed.

(** The first match of the [strptime] format on the six padded fields. *)
Lemma match_timestamp_format mo d y h mi s vmo vd vy vh vmi vs :
  field_ok re_m mo vmo -> field_ok re_d d vd -> field_ok re_Y y vy ->
  field_ok re_H h vh -> field_ok re_M mi vmi -> field_ok re_S s vs ->
  match_items timestamp_format (join_timestamp mo d y h mi s)
  = Some ([mo; ["/"%char]; d; ["/"%char]; y; [" "%char];
           h; [":"%char]; mi; [":"%char]; s], []).
Proof.
  intros (_ & _ & Hmo) (_ & _ & Hd) (_ & _ & Hy)
         (_ & (c & r & -> & Hc) & Hh) (_ & _ & Hmi) (_ & _ & Hs).
  unfold match_items, timestamp_format, join_timestamp.
  apply head_run_items_cons with (r := "/"%char :: d ++ "/"%char :: y ++ " "%char ::
      (c :: r) ++ ":"%char :: mi ++ ":"%char :: s); [apply Hmo|].
  eapply head_run_items_cons; [apply head_run_Lit|].
  eapply head_run_items_cons; [apply Hd|].
  eapply head_run_items_cons; [apply head_run_Lit|].
  eapply head_run_items_cons; [apply Hy|].
  eapply head_run_items_cons;
    [apply head_run_spaces; by apply digit_not_space|].
  eapply head_run_items_cons; [apply (Hh (":"%char :: mi ++ ":"%char :: s))|].
  eapply head_run_items_cons; [apply head_run_Lit|].
  eapply head_run_items_cons; [apply Hmi|].
  eapply head_run_items_cons; [apply head_run_Lit|].
  eapply head_run_items_cons; [|reflexivity].
  rewrite <- (app_nil_r s) at 1. apply Hs.
Qed.

Lemma strptime_fields mo d y h mi s vmo vd vy vh vmi vs :
  field_ok re_m mo vmo -> field_ok re_d d vd -> field_ok re_Y y vy ->
  field_ok re_H h vh -> field_ok re_M mi vmi -> field_ok re_S s vs ->
  strptime (join_timestamp mo d y h mi s)
  = datetime_new vy vmo vd vh vmi vs None.
Proof.
  intros Hmo Hd Hy Hh Hmi Hs. unfold strptime.
  rewrite (match_timestamp_format mo d y h mi s vmo vd vy vh vmi vs) by done.
  destruct Hmo as (-> & _), Hd as (-> & _), Hy as (-> & _),
    Hh as (-> & _), Hmi as (-> & _), Hs as (-> & _). done.
Qed.

(** A text of the shape whose padded fields are the padded fields of a
    valid date parses to that date. *)
Lemma parse_votes_csv_timestamp_padded a b c d e f dt :
  is_number a = true -> is_number b = true -> is_number c = true ->
  is_number d = true -> is_number e = true -> is_number f = true ->
  is_datetime dt = true ->
  zfill 2 a = zfill 2 (str_of_int (month dt)) ->
  zfill 2 b = zfill 2 (str_of_int (day dt)) ->
  zfill 4 c = zfill 4 (str_of_int (year dt)) ->
  zfill 2 d = zfill 2 (str_of_int (hour dt)) ->
  zfill 2 e = zfill 2 (str_of_int (minute dt)) ->
  zfill 2 f = zfill 2 (str_of_int (second dt)) ->
  parse_votes_csv_timestamp (join_timestamp a b c d e f)
  = Ok {| year := year dt; month := month dt; day := day dt;
          hour := hour dt; minute := minute dt; second := second dt;
          microsecond := 0; tzinfo_of := None |}.
Proof.
  intros Na Nb Nc Nd Ne Nf Hdt Ha Hb Hc Hd He Hf.
  destruct (is_datetime_ranges dt Hdt) as (Hy & Hmo & Hday & Hh & Hmi & Hs).
  pose proof (days_in_month_le (year dt) (month dt)) as Hdim.
  destruct (month_field (Z.to_nat (month dt))) as [_ Fmo]; [lia|].
  destruct (day_field (Z.to_nat (day dt))) as [_ Fd]; [lia|].
  destruct (year_field (year dt)) as [_ Fy]; [lia|].
  destruct (hour_field (Z.to_nat (hour dt))) as [_ Fh]; [lia|].
  destruct (minute_field (Z.to_nat (minute dt))) as [_ Fmi]; [lia|].
  destruct (second_field (Z.to_nat (second dt))) as [_ Fs]; [lia|].
  rewrite Z2Nat.id in * by lia.
  rewrite parse_votes_csv_timestamp_shape by done.
  rewrite Ha, Hb, Hc, Hd, He, Hf.
  rewrite (strptime_fields _ _ _ _ _ _ _ _ _ _ _ _ Fmo Fd Fy Fh Fmi Fs).
  by rewrite datetime_new_valid.
Qed.

(** A number written with leading zeros is padded as the number itself. *)
Lemma zero_padded_zfill width t v :
  is_number (str_of_int v) = true ->
  zero_padded width t v = true ->
  is_number t = true /\ zfill width t = zfill width (str_of_int v).
Proof.
  intros Hnum [Ht Hlen%Nat.leb_le]%andb_prop.
  apply bool_decide_eq_true in Ht.
  set (k := (length t - length (str_of_int v))%nat) in Ht.
  assert (Hk : length t = (k + length (str_of_int v))%nat)
    by (rewrite Ht at 1; by rewrite length_app, length_replicate).
  assert (Nt : is_number t = true).
  { rewrite Ht. apply is_number_spec in Hnum as [Hne Hall].
    apply is_number_spec. split.
    - by destruct (replicate _ _), (str_of_int v).
    - apply Forall_app. split; [|done].
      apply Forall_forall. by intros x [-> _]%elem_of_replicate. }
  split; [done|]. rewrite !zfill_number by done.
  rewrite Ht at 2. rewrite app_assoc, <- replicate_add. f_equal. f_equal. lia.
Qed.

Lemma str_of_int_is_number v : 0 <= v <= 9999 -> is_number (str_of_int v) = true.
Proof.
  intros Hv. destruct (Z.eq_dec v 0) as [->|Hne]; [done|].
  by apply year_field; lia.
Qed.

(** C5. A timestamp of the shape number/number/number
    number:number:number is read as [strptime] reads its zero-padded form
    (month, day, hour, minute and second padded to two digits, the year
    to four), without time zone, and so parses to the same result as that
    form; a text that writes the fields of a valid date, each in at most
    two characters and the year in at most four, with leading zeros or
    none, parses to that date without time zone; the two texts of the
    specification parse to the same instant; blanks of every script
    around the text are removed and a year in the digits of another
    script is read, while a month in such digits is refused by
    [strptime]; and a text that, once surrounding blanks are removed,
    does not have the shape is refused with the format error that quotes
    it. *)
Theorem parse_votes_csv_timestamp_zero_padded :
  (forall a b c d e f : str,
      is_number a = true -> is_number b = true -> is_number c = true ->
      is_number d = true -> is_number e = true -> is_number f = true ->
      parse_votes_csv_timestamp (join_timestamp a b c d e f)
      = (dt ← strptime (join_timestamp (zfill 2 a) (zfill 2 b) (zfill 4 c)
                          (zfill 2 d) (zfill 2 e) (zfill 2 f));
         Ok (replace_tzinfo dt None))
      /\ parse_votes_csv_timestamp (join_timestamp a b c d e f)
         = parse_votes_csv_timestamp
             (join_timestamp (zfill 2 a) (zfill 2 b) (zfill 4 c)
                (zfill 2 d) (zfill 2 e) (zfill 2 f))
      /\ forall dt, parse_votes_csv_timestamp (join_timestamp a b c d e f)
                    = Ok dt -> tzinfo_of dt = None)
  /\ (forall (dt : datetime) (a b c d e f : str),
         is_datetime dt = true ->
         zero_padded 2 a (month dt) = true ->
         zero_padded 2 b (day dt) = true ->
         zero_padded 4 c (year dt) = true ->
         zero_padded 2 d (hour dt) = true ->
         zero_padded 2 e (minute dt) = true ->
         zero_padded 2 f (second dt) = true ->
         parse_votes_csv_timestamp (join_timestamp a b c d e f)
         = Ok {| year := year dt; month := month dt; day := day dt;
                 hour := hour dt; minute := minute dt; second := second dt;
                 microsecond := 0; tzinfo_of := None |})
  /\ parse_votes_csv_timestamp (chars "4/1/2024 9:5:3")
     = Ok {| year := 2024; month := 4; day := 1;
             hour := 9; minute := 5; second := 3;
             microsecond := 0; tzinfo_of := None |}
  /\ parse_votes_csv_timestamp (chars "04/01/2024 09:05:03")
     = parse_votes_csv_timestamp (chars "4/1/2024 9:5:3")
  /\ parse_votes_csv_timestamp
       ([160%N] ++ chars "4/1/2024 9:5:3" ++ [8195%N; 10%N])
     = parse_votes_csv_timestamp (chars "4/1/2024 9:5:3")
  /\ parse_votes_csv_timestamp (chars "4/1/٢٠٢٤ 9:5:3")
     = parse_votes_csv_timestamp (chars "4/1/2024 9:5:3")
  /\ parse_votes_csv_timestamp (chars "٤/1/2024 9:5:3")
     = Raise (ValueError
                (TimeDataDoesNotMatchFormat (chars "0٤/01/2024 09:05:03")))
  /\ (forall s : str,
         ~ timestamp_shape (strip s) ->
         parse_votes_csv_timestamp s
         = Raise (ValueError (CannotParseVotesCsvTimestamp (strip s)))).
Proof.
  split; [|split; [|repeat (split; [by vm_compute|])]].
  - intros a b c d e f Ha Hb Hc Hd He Hf.
    rewrite !parse_votes_csv_timestamp_shape
      by (done || by apply zfill_is_number).
    rewrite !zfill_idempotent by done. split_and!; [done..|].
    intros dt. destruct (strptime _) as [dt'|]; [|done]. by intros [= <-].
  - intros dt a b c d e f Hdt Ha Hb Hc Hd He Hf.
    destruct (is_datetime_ranges dt Hdt) as (Hy & Hmo & Hday & Hh & Hmi & Hs).
    pose proof (days_in_month_le (year dt) (month dt)) as Hdim.
    apply zero_padded_zfill in Ha as [Na Ha], Hb as [Nb Hb], Hc as [Nc Hc],
      Hd as [Nd Hd], He as [Ne He], Hf as [Nf Hf];
      try (apply str_of_int_is_number; lia).
    by apply parse_votes_csv_timestamp_padded.
  - intros s Hshape. unfold parse_votes_csv_timestamp.
    destruct (groups _) as [l|] eqn:Hg; [|done].
    destruct Hshape. by eapply groups_strip_shape.
Qed.

Lemma parse_votes_csv_timestamp_zero_padded_witness :
  parse_votes_csv_timestamp
    (join_timestamp (chars "04") (chars "1") (chars "2024")
       (chars "9") (chars "05") (chars "3"))
  = Ok {| year := 2024; month := 4; day := 1;
          hour := 9; minute := 5; second := 3;
          microsecond := 0; tzinfo_of := None |}
  /\ parse_votes_csv_timestamp
       (join_timestamp (chars "4") (chars "1") (chars "24")
          (chars "9") (chars "5") (chars "3"))
     = (dt ← strptime (chars "04/01/0024 09:05:03");
        Ok (replace_tzinfo dt None))
  /\ parse_votes_csv_timestamp (chars " 2024-04-01 ")
     = Raise (ValueError (CannotParseVotesCsvTimestamp (chars "2024-04-01"))).
Proof.
  destruct parse_votes_csv_timestamp_zero_padded
    as (Hshape & Hdate & _ & _ & _ & _ & _ & Hrefused).
  split_and!.
  - apply (Hdate {| year := 2024; month := 4; day := 1;
                    hour := 9; minute := 5; second := 3;
                    microsecond := 250000;
                    tzinfo_of := Some Etc_GMT_plus_12 |}); reflexivity.
  - apply (Hshape (chars "4") (chars "1") (chars "24")
             (chars "9") (chars "5") (chars "3")); reflexivity.
  - apply (Hrefused (chars " 2024-04-01 ")).
    intros (a & b & c & d & e & f & Ha & _ & _ & _ & _ & _ & Heq).
    vm_compute in Heq.
    by destruct a as [|c1 [|c2 [|c3 [|c4 [|c5 a]]]]]; simplify_eq.
Defined.

(** X1. Writing a valid date in the votes-CSV format and parsing the text
    gives the date back without its time zone and without its
    microseconds, which the format does not write. *)
Theorem parse_format_votes_csv_timestamp dt :
  is_datetime dt = true ->
  parse_votes_csv_timestamp (format_votes_csv_timestamp dt)
  = Ok {| year := year dt; month := month dt; day := day dt;
          hour := hour dt; minute := minute dt; second := second dt;
          microsecond := 0; tzinfo_of := None |}.
Proof.
  intros Hdt.
  destruct (is_datetime_ranges dt Hdt) as (Hy & Hmo & Hd & Hh & Hmi & Hs).
  pose proof (days_in_month_le (year dt) (month dt)) as Hdim.
  unfold format_votes_csv_timestamp.
  apply parse_votes_csv_timestamp_padded;
    try (by apply str_of_int_is_number; lia);
    try (by apply zfill_is_number, str_of_int_is_number; lia);
    try done;
    by apply zfill_idempotent, str_of_int_is_number; lia.
Qed.

Lemma parse_format_votes_csv_timestamp_witness :
  parse_votes_csv_timestamp
    (format_votes_csv_timestamp
       {| year := 2024; month := 2; day := 29;
          hour := 23; minute := 5; second := 9;
          microsecond := 250000; tzinfo_of := Some Etc_GMT_plus_12 |})
  = Ok {| year := 2024; month := 2; day := 29;
          hour := 23; minute := 5; second := 9;
          microsecond := 0; tzinfo_of := None |}.
Proof.
  apply (parse_format_votes_csv_timestamp
           {| year := 2024; month := 2; day := 29;
              hour := 23; minute := 5; second := 9;
              microsecond := 250000; tzinfo_of := Some Etc_GMT_plus_12 |}).
  reflexivity.
Defined.

(** *** The month before, and the bounds of a month *)

Lemma datetime_of_Ok_inv y m d H M S us tz dt :
  datetime_of y m d H M S us tz = Ok dt ->
  dt = {| year := y; month := m; day := d; hour := H; minute := M;
          second := S; microsecond := us; tzinfo_of := tz |}
  /\ is_datetime dt = true.
Proof.
  intros Hnew.
  assert (Hdt : dt = {| year := y; month := m; day := d; hour := H;
                        minute := M; second := S; microsecond := us;
                        tzinfo_of := tz |}).
  { unfold datetime_of in Hnew.
    repeat match type of Hnew with
    | context [check_field ?f ?lo ?hi ?v] =>
        destruct (check_field_cases f lo hi v) as [[_ Hc]|Hc];
        rewrite Hc in Hnew; cbn [mbind result_bind Py.bind] in Hnew;
        [clear Hc|done]
    end.
    by injection Hnew as <-. }
  split; [done|]. subst dt.
  change (is_ok (datetime_of y m d H M S us tz) = true). by rewrite Hnew.
Qed.

Lemma datetime_new_Ok_inv y m d H M S tz dt :
  datetime_new y m d H M S tz = Ok dt ->
  dt = {| year := y; month := m; day := d; hour := H; minute := M;
          second := S; microsecond := 0; tzinfo_of := tz |}
  /\ is_datetime dt = true.
Proof. apply datetime_of_Ok_inv. Qed.

Lemma get_month_year_bounds_Ok_inv m y lenient lo hi :
  get_month_year_bounds m y lenient = Ok (lo, hi) ->
  1 <= m <= 12 /\ 1 <= y <= 9999 /\ (m, y) <> (12, 9999).
Proof.
  unfold get_month_year_bounds.
  destruct (datetime_new y m 1 0 0 0 _) as [lower|] eqn:Hlo; [|done].
  apply datetime_new_Ok_inv in Hlo as [-> Hvalid].
  apply is_datetime_ranges in Hvalid as (Hy & Hm & _). cbn in Hy, Hm.
  cbn [mbind result_bind Py.bind year month].
  intros Hhi. split; [done|]. split; [done|]. intros [= -> ->].
  cbn in Hhi. done.
Qed.

(** X2. The month before the upper bound of a month is the month itself:
    [get_preceding_month_date] takes the upper bound that
    [get_month_year_bounds] returns back to the lower bound, in the time
    zone of the upper bound. *)
Theorem preceding_month_of_upper_bound m y lenient lo hi :
  get_month_year_bounds m y lenient = Ok (lo, hi) ->
  get_preceding_month_date hi = Ok (replace_tzinfo lo (tzinfo_of hi)).
Proof.
  intros Hb. destruct (get_month_year_bounds_Ok_inv _ _ _ _ _ Hb) as (Hm & Hy & Hne).
  rewrite (get_month_year_bounds_ok m y lenient Hm Hy Hne) in Hb.
  injection Hb as <- <-. unfold get_preceding_month_date, following_month.
  destruct (Z.eqb_spec m 12) as [->|Hm12];
    cbn [fst snd first_instant year month tzinfo_of].
  - cbn. replace (y + 1 - 1) with y by lia.
    by rewrite datetime_new_first_instant by lia.
  - destruct (Z.gtb_spec (m + 1) 1); [|lia].
    replace (m + 1 - 1) with m by lia.
    by rewrite datetime_new_first_instant by lia.
Qed.

Lemma preceding_month_of_upper_bound_witness :
  get_preceding_month_date (first_instant 2025 1 (Some Etc_GMT_plus_12))
  = Ok (replace_tzinfo (first_instant 2024 12 (Some Etc_GMT_minus_14))
          (tzinfo_of (first_instant 2025 1 (Some Etc_GMT_plus_12)))).
Proof.
  apply (preceding_month_of_upper_bound 12 2024 true). reflexivity.
Defined.

(** X3. For a valid date, [get_preceding_month_date] raises exactly in
    January of year 1; otherwise it returns the first instant of the
    month before, in the time zone of the date, and the strict bounds of
    that month end at the first instant of the month of the date. *)
Theorem get_preceding_month_date_bounds dt :
  is_datetime dt = true ->
  (month dt = 1 /\ year dt = 1 ->
   get_preceding_month_date dt
   = Raise (ValueError (FieldOutOfRange "year" 0)))
  /\ (~ (month dt = 1 /\ year dt = 1) ->
      exists pm py,
        (pm, py) = (if month dt =? 1 then (12, year dt - 1)
                    else (month dt - 1, year dt))
        /\ get_preceding_month_date dt
           = Ok (first_instant py pm (tzinfo_of dt))
        /\ get_month_year_bounds pm py false
           = Ok (first_instant py pm None,
                 first_instant (year dt) (month dt) None)).
Proof.
  intros (Hy & Hm & _)%is_datetime_ranges. split.
  - intros [Hm1 Hy1]. unfold get_preceding_month_date. by rewrite Hm1, Hy1.
  - intros Hne. unfold get_preceding_month_date.
    destruct (Z.eqb_spec (month dt) 1) as [Hm1|Hm1].
    + rewrite Hm1. change (1 >? 1) with false. cbv beta iota.
      exists 12, (year dt - 1). split; [done|].
      rewrite datetime_new_first_instant by lia. split; [done|].
      rewrite get_month_year_bounds_ok by (lia || (intros [=]; lia)).
      unfold following_month. cbn. by replace (year dt - 1 + 1) with (year dt) by lia.
    + destruct (Z.gtb_spec (month dt) 1); [|lia].
      exists (month dt - 1), (year dt). split; [done|].
      rewrite datetime_new_first_instant by lia. split; [done|].
      rewrite get_month_year_bounds_ok by (lia || (intros [=]; lia)).
      unfold following_month. destruct (Z.eqb_spec (month dt - 1) 12); [lia|].
      cbn. by replace (month dt - 1 + 1) with (month dt) by lia.
Qed.

Lemma get_preceding_month_date_bounds_witness :
  exists pm py,
    (pm, py) = (if month (first_instant 2024 1 None) =? 1
                then (12, year (first_instant 2024 1 None) - 1)
                else (month (first_instant 2024 1 None) - 1,
                      year (first_instant 2024 1 None)))
    /\ get_preceding_month_date (first_instant 2024 1 None)
       = Ok (first_instant py pm (tzinfo_of (first_instant 2024 1 None)))
    /\ get_month_year_bounds pm py false
       = Ok (first_instant py pm None,
             first_instant (year (first_instant 2024 1 None))
               (month (first_instant 2024 1 None)) None).
Proof.
  apply (get_preceding_month_date_bounds (first_instant 2024 1 None));
    [reflexivity|]. cbn. lia.
Defined.

(** *** Whether a date lies in a month *)

(** A date against the first instant of a month: only the year and the
    month decide whether it comes before. *)
Lemma compare_fields_first_instant dt y m tz :
  is_datetime dt = true ->
  compare_fields (fields dt) (fields (first_instant y m tz)) = Lt
  <-> year dt < y \/ (year dt = y /\ month dt < m).
Proof.
  intros Hdt. pose proof (is_datetime_microsecond dt Hdt) as Hus.
  apply is_datetime_ranges in Hdt as (_ & _ & Hd & HH & HM & HS).
  unfold fields, first_instant, compare_fields.
  cbn [year month day hour minute second microsecond].
  destruct (Z.compare_spec (year dt) y); [|split; (done || lia)..].
  destruct (Z.compare_spec (month dt) m); [|split; (done || lia)..].
  destruct (Z.compare_spec (day dt) 1); [|split; (done || lia)..].
  destruct (Z.compare_spec (hour dt) 0); [|split; (done || lia)..].
  destruct (Z.compare_spec (minute dt) 0); [|split; (done || lia)..].
  destruct (Z.compare_spec (second dt) 0); [|split; (done || lia)..].
  destruct (Z.compare_spec (microsecond dt) 0); split; (done || lia).
Qed.

Lemma parse_votes_csv_timestamp_naive s dt :
  parse_votes_csv_timestamp s = Ok dt -> tzinfo_of dt = None.
Proof.
  unfold parse_votes_csv_timestamp. intros Hp.
  repeat case_match; try done.
  destruct (strptime _) as [d|]; [|done].
  cbn in Hp. by injection Hp as <-.
Qed.

Ltac use_cmp H :=
  match type of H with
  | Lt = Lt <-> ?P => assert P by (by apply H)
  | _ = Lt <-> ?P =>
      assert (~ P) by (let HP := fresh in intros HP; apply H in HP; discriminate)
  end.

(** X4. With strict bounds, a valid date without a time zone is between
    the bounds of a month exactly when it has that month and that year. *)
Theorem is_date_between_strict_bounds dt m y lo hi :
  is_datetime dt = true -> tzinfo_of dt = None ->
  get_month_year_bounds m y false = Ok (lo, hi) ->
  is_date_between dt lo hi
  = Returns (bool_decide (month dt = m /\ year dt = y)).
Proof.
  intros Hdt Htz Hb.
  destruct (get_month_year_bounds_Ok_inv _ _ _ _ _ Hb) as (Hm & Hy & Hne).
  rewrite (get_month_year_bounds_ok m y false Hm Hy Hne) in Hb.
  injection Hb as <- <-.
  pose proof (compare_fields_first_instant dt y m None Hdt) as Hlo.
  pose proof (is_datetime_ranges dt Hdt) as (_ & Hmd & _).
  unfold is_date_between, datetime_ge, datetime_lt, datetime_cmp, utcoffset.
  rewrite Htz. cbn [first_instant tzinfo_of fmap option_fmap option_map
                    mbind outcome_mbind outcome_bind].
  assert (Hf : (following_month m y).2 = (if m =? 12 then y + 1 else y)
               /\ (following_month m y).1 = (if m =? 12 then 1 else m + 1)).
  { unfold following_month. by destruct (m =? 12). }
  pose proof (compare_fields_first_instant dt (if m =? 12 then y + 1 else y)
                (if m =? 12 then 1 else m + 1) None Hdt) as Hhi.
  destruct Hf as [-> ->].
  destruct (compare_fields (fields dt) (fields (first_instant y m None)));
    destruct (compare_fields (fields dt) (fields (first_instant _ _ None)));
    cbn [outcome_bind]; f_equal; symmetry;
    destruct (Z.eqb_spec m 12);
    first [apply bool_decide_eq_true_2 | apply bool_decide_eq_false_2];
    use_cmp Hlo; use_cmp Hhi; lia.
Qed.

Lemma is_date_between_strict_bounds_witness :
  is_date_between
    {| year := 2024; month := 2; day := 29; hour := 23; minute := 59;
       second := 59; microsecond := 999999; tzinfo_of := None |}
    (first_instant 2024 2 None) (first_instant 2024 3 None)
  = Returns (bool_decide (month {| year := 2024; month := 2; day := 29;
                                   hour := 23; minute := 59; second := 59;
                                   microsecond := 999999;
                                   tzinfo_of := None |} = 2
                          /\ year {| year := 2024; month := 2; day := 29;
                                     hour := 23; minute := 59; second := 59;
                                     microsecond := 999999;
                                     tzinfo_of := None |} = 2024)).
Proof.
  apply is_date_between_strict_bounds; reflexivity.
Defined.

(** X5. The lenient bounds of a month cannot be compared with a timestamp
    read from the votes CSV: the timestamp has no time zone, the bounds
    have one, and [is_date_between] raises [TypeError]. *)
Theorem is_date_between_parsed_timestamp_lenient s dt m y lo hi :
  parse_votes_csv_timestamp s = Ok dt ->
  get_month_year_bounds m y true = Ok (lo, hi) ->
  is_date_between dt lo hi
  = Raises (TypeError "can't compare offset-naive and offset-aware datetimes").
Proof.
  intros Htz%parse_votes_csv_timestamp_naive Hb.
  destruct (get_month_year_bounds_Ok_inv _ _ _ _ _ Hb) as (Hm & Hy & Hne).
  rewrite (get_month_year_bounds_ok m y true Hm Hy Hne) in Hb.
  injection Hb as <- <-.
  unfold is_date_between, datetime_ge, datetime_cmp, utcoffset.
  by rewrite Htz.
Qed.

Lemma is_date_between_parsed_timestamp_lenient_witness :
  is_date_between
    {| year := 2024; month := 4; day := 1; hour := 2; minute := 34;
       second := 56; microsecond := 0; tzinfo_of := None |}
    (first_instant 2024 4 (Some Etc_GMT_minus_14))
    (first_instant 2024 5 (Some Etc_GMT_plus_12))
  = Raises (TypeError "can't compare offset-naive and offset-aware datetimes").
Proof.
  apply (is_date_between_parsed_timestamp_lenient
           (chars "4/1/2024 2:34:56") _ 4 2024); reflexivity.
Defined.

(** The days before a month grow by the days of the month before it. *)
Lemma days_before_month_succ y m :
  1 <= m ->
  days_before_month y (m + 1) = days_before_month y m + days_in_month y m.
Proof.
  intros Hm. unfold days_before_month.
  replace (Z.to_nat (m + 1 - 1)) with (S (Z.to_nat (m - 1))) by lia.
  rewrite seq_S, map_app, fold_right_app. cbn [map fold_right].
  replace (Z.of_nat (1 + Z.to_nat (m - 1))) with m by lia.
  generalize (seq 1 (Z.to_nat (m - 1))) as l.
  induction l as [|k l IH]; cbn [map fold_right]; lia.
Qed.

(** The days of a whole year are the days between two first days of
    January. *)
Lemma days_before_year_succ y :
  days_before_year (y + 1)
  = days_before_year y + days_before_month y 12 + days_in_month y 12.
Proof.
  unfold days_before_year.
  change (days_before_month y 12)
    with (31 + ((if is_leap y then 29 else 28) + 275)).
  change (days_in_month y 12) with 31.
  unfold is_leap. replace (y + 1 - 1) with y by lia. cbv zeta.
  assert (H4 : (y - 1) / 4 = y / 4 - (if y mod 4 =? 0 then 1 else 0))
    by (destruct (Z.eqb_spec (y mod 4) 0); Z.div_mod_to_equations; lia).
  assert (H100 : (y - 1) / 100 = y / 100 - (if y mod 100 =? 0 then 1 else 0))
    by (destruct (Z.eqb_spec (y mod 100) 0); Z.div_mod_to_equations; lia).
  assert (H400 : (y - 1) / 400 = y / 400 - (if y mod 400 =? 0 then 1 else 0))
    by (destruct (Z.eqb_spec (y mod 400) 0); Z.div_mod_to_equations; lia).
  assert (y mod 100 = 0 -> y mod 4 = 0) by (Z.div_mod_to_equations; lia).
  assert (y mod 400 = 0 -> y mod 100 = 0) by (Z.div_mod_to_equations; lia).
  rewrite H4, H100, H400.
  destruct (Z.eqb_spec (y mod 4) 0), (Z.eqb_spec (y mod 100) 0),
    (Z.eqb_spec (y mod 400) 0); cbn [andb orb negb]; lia.
Qed.

(** The day before the first day of the following month is not before
    any day of the month. *)
Lemma toordinal_following_month dt :
  is_datetime dt = true ->
  toordinal dt
  < toordinal (first_instant (following_month (month dt) (year dt)).2
                 (following_month (month dt) (year dt)).1 None).
Proof.
  intros (_ & Hm & Hd & _)%is_datetime_ranges.
  unfold toordinal, following_month.
  destruct (Z.eqb_spec (month dt) 12) as [Hm12|Hm12];
    cbn [fst snd first_instant year month day].
  - rewrite days_before_year_succ, Hm12 in *.
    change (days_before_month (year dt + 1) 1) with 0. lia.
  - rewrite days_before_month_succ by lia. lia.
Qed.

(** X6. With lenient bounds, a valid date in a time zone between UTC-12:00
    and UTC+14:00 whose own month and year are those of the bounds is
    between them. *)
Theorem is_date_between_lenient_bounds dt tz lo hi :
  is_datetime dt = true -> tzinfo_of dt = Some tz ->
  - (12 * 60) <= utcoffset_minutes tz <= 14 * 60 ->
  get_month_year_bounds (month dt) (year dt) true = Ok (lo, hi) ->
  is_date_between dt lo hi = Returns true.
Proof.
  intros Hdt Htz Hoff Hb.
  destruct (get_month_year_bounds_Ok_inv _ _ _ _ _ Hb) as (Hm & Hy & Hne).
  rewrite (get_month_year_bounds_ok _ _ true Hm Hy Hne) in Hb.
  injection Hb as <- <-.
  pose proof (compare_fields_first_instant dt (year dt) (month dt)
                (Some Etc_GMT_minus_14) Hdt) as Hlo.
  pose proof (compare_fields_first_instant dt
                (following_month (month dt) (year dt)).2
                (following_month (month dt) (year dt)).1
                (Some Etc_GMT_plus_12) Hdt) as Hhi.
  pose proof (toordinal_following_month dt Hdt) as Hord.
  pose proof (is_datetime_microsecond dt Hdt) as Hus.
  pose proof (is_datetime_ranges dt Hdt) as (_ & _ & Hd & HH & HM & HS).
  assert (Hge : datetime_ge dt (first_instant (year dt) (month dt)
                                  (Some Etc_GMT_minus_14)) = Returns true).
  { unfold datetime_ge, datetime_cmp, utcoffset. rewrite Htz.
    cbn [first_instant tzinfo_of fmap option_fmap option_map
         Etc_GMT_minus_14 utcoffset_minutes].
    destruct (Z.eqb_spec (utcoffset_minutes tz) (14 * 60)) as [Ho|Ho];
      cbn [mbind outcome_mbind outcome_bind].
    - destruct (compare_fields (fields dt)
                  (fields (first_instant (year dt) (month dt)
                             (Some Etc_GMT_minus_14)))); [done| |done].
      assert (year dt < year dt \/ year dt = year dt /\ month dt < month dt)
        by (by apply Hlo). lia.
    - unfold utc_microseconds, utc_seconds, toordinal.
      cbn [first_instant year month day hour minute second microsecond].
      match goal with
      | |- context [?a ?= ?b] => destruct (Z.compare_spec a b)
      end; [done|lia|done]. }
  unfold is_date_between. rewrite Hge. cbn [mbind outcome_mbind outcome_bind].
  unfold datetime_lt, datetime_cmp, utcoffset. rewrite Htz.
  cbn [first_instant tzinfo_of fmap option_fmap option_map
       Etc_GMT_plus_12 utcoffset_minutes].
  destruct (Z.eqb_spec (utcoffset_minutes tz) (-12 * 60)) as [Ho|Ho];
    cbn [mbind outcome_mbind outcome_bind].
  - assert (Hc : compare_fields (fields dt)
                   (fields (first_instant (following_month (month dt) (year dt)).2
                              (following_month (month dt) (year dt)).1
                              (Some Etc_GMT_plus_12))) = Lt).
    { apply Hhi. unfold following_month.
      destruct (Z.eqb_spec (month dt) 12); cbn [fst snd]; lia. }
    by rewrite Hc.
  - unfold utc_microseconds, utc_seconds.
    change (toordinal (first_instant ?a ?b (Some Etc_GMT_plus_12)))
      with (toordinal (first_instant a b None)).
    cbn [first_instant hour minute second microsecond].
    match goal with
    | |- context [?a ?= ?b] => destruct (Z.compare_spec a b)
    end; [lia|done|lia].
Qed.

Lemma is_date_between_lenient_bounds_witness :
  is_date_between
    {| year := 2024; month := 3; day := 31; hour := 23; minute := 59;
       second := 59; microsecond := 999999;
       tzinfo_of := Some Etc_GMT_plus_12 |}
    (first_instant 2024 3 (Some Etc_GMT_minus_14))
    (first_instant 2024 4 (Some Etc_GMT_plus_12))
  = Returns true.
Proof.
  apply (is_date_between_lenient_bounds
           {| year := 2024; month := 3; day := 31; hour := 23; minute := 59;
              second := 59; microsecond := 999999;
              tzinfo_of := Some Etc_GMT_plus_12 |}
           Etc_GMT_plus_12);
    [reflexivity|reflexivity|cbn; lia|reflexivity].
Defined.

(** *** Relative anniversary dates *)

Lemma split_nonempty sep s : split sep s <> [].
Proof.
  destruct s as [|c s]; [done|]. cbn [split].
  destruct (N.eq_dec c sep); [done|]. by destruct (split sep s).
Qed.

(** Joining the parts of a split by the separator gives the text back. *)
Lemma join_split sep s : join [sep] (split sep s) = s.
Proof.
  induction s as [|c s IH]; [done|]. cbn [split].
  pose proof (split_nonempty sep s) as Hne.
  destruct (N.eq_dec c sep) as [->|Hc];
    destruct (split sep s) as [|p ps]; try done.
  - cbn [join app] in *. by rewrite IH.
  - destruct ps; cbn [join app] in *; by rewrite <- IH.
Qed.

Lemma split_head_no_sep sep s p ps : split sep s = p :: ps -> sep ∉ p.
Proof.
  revert p ps. induction s as [|c s IH]; intros p ps; cbn [split].
  - intros [= <- <-]. apply not_elem_of_nil.
  - destruct (N.eq_dec c sep) as [->|Hne].
    + intros [= <- <-]. apply not_elem_of_nil.
    + destruct (split sep s) as [|q qs]; intros [= <- <-].
      * apply not_elem_of_cons. split; [done|apply not_elem_of_nil].
      * apply not_elem_of_cons. split; [done|by eapply IH].
Qed.

Lemma split_ending n ending :
  is_number n = true ->
  ending ∈ [chars "year ago"; chars "years ago"] ->
  exists second third,
    split " " (n ++ " "%char :: ending) = [n; second; third]
    /\ join (chars " ") [second; third] = ending.
Proof.
  intros Hn Hend. rewrite split_at_sep by (by apply number_no_designator).
  apply elem_of_cons in Hend as [->|Hend];
    [|apply elem_of_cons in Hend as [->|Hend];
      [|by apply elem_of_nil in Hend]].
  - by exists (chars "year"), (chars "ago").
  - by exists (chars "years"), (chars "ago").
Qed.

(** A day of a month is a day of the same month of every year, but for
    the 29th of February. *)
Lemma days_in_month_other_year y y' m d :
  d <= days_in_month y m ->
  is_leap y' = true \/ ~ (m = 2 /\ d = 29) ->
  d <= days_in_month y' m.
Proof.
  unfold days_in_month. destruct (Z.eqb_spec m 2); [|done].
  destruct (is_leap y), (is_leap y'); intros Hd [Hl|Hn]; (done || lia).
Qed.

(** X7. For a text [N year ago] or [N years ago] with a number [N] and a
    valid date, [rel_anni_date_to_abs] returns the date with its year
    lowered by [N]; it raises [ValueError] when that year is below 1, and
    when the date is a 29th of February and that year is no leap year. *)
Theorem rel_anni_date_to_abs_years_ago n ending d :
  is_number n = true ->
  ending ∈ [chars "year ago"; chars "years ago"] ->
  is_datetime d = true ->
  (1 <= year d - decimal n ->
   is_leap (year d - decimal n) = true \/ ~ (month d = 2 /\ day d = 29) ->
   rel_anni_date_to_abs (n ++ " "%char :: ending) d
   = Returns {| year := year d - decimal n; month := month d; day := day d;
                hour := hour d; minute := minute d; second := second d;
                microsecond := microsecond d;
                tzinfo_of := tzinfo_of d |})
  /\ (year d - decimal n < 1 ->
      rel_anni_date_to_abs (n ++ " "%char :: ending) d
      = Raises (Exn (ValueError (FieldOutOfRange "year" (year d - decimal n)))))
  /\ (1 <= year d - decimal n ->
      is_leap (year d - decimal n) = false -> month d = 2 -> day d = 29 ->
      rel_anni_date_to_abs (n ++ " "%char :: ending) d
      = Raises (Exn (ValueError (FieldOutOfRange "day" 29)))).
Proof.
  intros Hn Hend Hd.
  destruct (split_ending n ending Hn Hend) as (w2 & w3 & Hsplit & Hjoin).
  assert (Hrel : rel_anni_date_to_abs (n ++ " "%char :: ending) d
                 = lift (datetime_of (year d - decimal n) (month d) (day d)
                           (hour d) (minute d) (second d) (microsecond d)
                           (tzinfo_of d))).
  { unfold rel_anni_date_to_abs. rewrite Hsplit, (int_number n Hn), Hjoin.
    by rewrite bool_decide_eq_true_2. }
  rewrite Hrel. clear Hrel Hsplit Hjoin.
  pose proof (is_datetime_microsecond d Hd) as Hus.
  pose proof (is_datetime_ranges d Hd) as (Hy & Hm & Hday & HH & HM & HS).
  assert (0 <= decimal n).
  { unfold decimal. rewrite <- fold_left_rev_right.
    apply number_parts in Hn as [_ Hall]. apply Forall_rev in Hall.
    induction Hall as [|c l Hc _ IH]; cbn [fold_right]; [done|].
    pose proof (digit_value_range c). lia. }
  unfold datetime_of. repeat split.
  - intros Hy' Hleap.
    rewrite (check_field_ok "year") by lia.
    rewrite (check_field_ok "month") by done.
    rewrite (check_field_ok "day")
      by (split; [lia|apply (days_in_month_other_year (year d)); [lia|done]]).
    by rewrite !check_field_ok by done.
  - intros Hy'. destruct (check_field_cases "year" 1 9999 (year d - decimal n))
      as [[? _]| ->]; [lia|done].
  - intros Hy' Hleap Hm2 Hd29.
    rewrite (check_field_ok "year"), (check_field_ok "month") by lia.
    destruct (check_field_cases "day" 1
                (days_in_month (year d - decimal n) (month d)) (day d))
      as [[Hr _]| ->]; [|by rewrite Hd29].
    unfold days_in_month in Hr. rewrite Hm2, Hleap in Hr. cbn in Hr. lia.
Qed.

Lemma rel_anni_date_to_abs_years_ago_witness :
  (1 <= year (first_instant 2024 4 None) - decimal (chars "5") ->
   is_leap (year (first_instant 2024 4 None) - decimal (chars "5")) = true
   \/ ~ (month (first_instant 2024 4 None) = 2
         /\ day (first_instant 2024 4 None) = 29) ->
   rel_anni_date_to_abs (chars "5" ++ " "%char :: chars "years ago")
     (first_instant 2024 4 None)
   = Returns {| year := year (first_instant 2024 4 None) - decimal (chars "5");
                month := month (first_instant 2024 4 None);
                day := day (first_instant 2024 4 None);
                hour := hour (first_instant 2024 4 None);
                minute := minute (first_instant 2024 4 None);
                second := second (first_instant 2024 4 None);
                microsecond := microsecond (first_instant 2024 4 None);
                tzinfo_of := tzinfo_of (first_instant 2024 4 None) |})
  /\ (year (first_instant 2024 4 None) - decimal (chars "5") < 1 ->
      rel_anni_date_to_abs (chars "5" ++ " "%char :: chars "years ago")
        (first_instant 2024 4 None)
      = Raises (Exn (ValueError
                       (FieldOutOfRange "year"
                          (year (first_instant 2024 4 None)
                           - decimal (chars "5"))))))
  /\ (1 <= year (first_instant 2024 4 None) - decimal (chars "5") ->
      is_leap (year (first_instant 2024 4 None) - decimal (chars "5")) = false ->
      month (first_instant 2024 4 None) = 2 ->
      day (first_instant 2024 4 None) = 29 ->
      rel_anni_date_to_abs (chars "5" ++ " "%char :: chars "years ago")
        (first_instant 2024 4 None)
      = Raises (Exn (ValueError (FieldOutOfRange "day" 29)))).
Proof.
  apply (rel_anni_date_to_abs_years_ago (chars "5") (chars "years ago")
           (first_instant 2024 4 None)); [reflexivity| |reflexivity].
  apply (bool_decide_unpack _). vm_compute. reflexivity.
Defined.

(** X8. [rel_anni_date_to_abs] returns a date only for a text made of a
    first word without a space that [int] reads as a number [N], a space,
    and [year ago] or [years ago]; the date returned is valid and is the
    given date with its year lowered by [N]. *)
Theorem rel_anni_date_to_abs_returns rel_date d r :
  rel_anni_date_to_abs rel_date d = Returns r ->
  exists first ending years_ago,
    rel_date = first ++ " "%char :: ending
    /\ (" "%char ∉ first)
    /\ int first = Ok years_ago
    /\ ending ∈ [chars "year ago"; chars "years ago"]
    /\ r = {| year := year d - years_ago; month := month d; day := day d;
              hour := hour d; minute := minute d; second := second d;
              microsecond := microsecond d;
              tzinfo_of := tzinfo_of d |}
    /\ is_datetime r = true.
Proof.
  unfold rel_anni_date_to_abs. intros Hr.
  destruct (split " " rel_date) as [|first [|second [|third [|? ?]]]] eqn:Hs;
    try done.
  destruct (int first) as [years_ago|] eqn:Hint; [|done].
  case_bool_decide as Hend; [|done].
  unfold replace in Hr.
  destruct (datetime_of _ _ _ _ _ _ _ _) as [r'|] eqn:Hnew; [|done].
  injection Hr as ->. apply datetime_of_Ok_inv in Hnew as [Hr Hvalid].
  exists first, (join (chars " ") [second; third]), years_ago.
  split; [|split; [by eapply split_head_no_sep|done]].
  rewrite <- (join_split " " rel_date), Hs. by eval_chars.
Qed.

Lemma rel_anni_date_to_abs_returns_witness :
  exists first ending years_ago,
    chars "1 year ago" = first ++ " "%char :: ending
    /\ (" "%char ∉ first)
    /\ int first = Ok years_ago
    /\ ending ∈ [chars "year ago"; chars "years ago"]
    /\ first_instant 2023 4 None
       = {| year := year (first_instant 2024 4 None) - years_ago;
            month := month (first_instant 2024 4 None);
            day := day (first_instant 2024 4 None);
            hour := hour (first_instant 2024 4 None);
            minute := minute (first_instant 2024 4 None);
            second := second (first_instant 2024 4 None);
            microsecond := microsecond (first_instant 2024 4 None);
            tzinfo_of := tzinfo_of (first_instant 2024 4 None) |}
    /\ is_datetime (first_instant 2023 4 None) = true.
Proof.
  apply (rel_anni_date_to_abs_returns (chars "1 year ago")
           (first_instant 2024 4 None)).
  reflexivity.
Defined.

(** *** The most common month *)

Import General DictFacts.

Section FreqTable.
Context {K : Type} `{EqDecision K}.
Implicit Types (items : list K) (counts : list (K * nat)).

Lemma occurrences_not_in (k : K) items : k ∉ items -> occurrences k items = 0%nat.
Proof.
  unfold occurrences. induction items as [|x items IH]; [done|].
  intros [Hne Hin]%not_elem_of_cons. rewrite filter_cons.
  destruct (decide (x = k)); [congruence|auto].
Qed.

Lemma count_item_get counts item k :
  default 0%nat (dict_get k (count_item counts item))
  = (default 0%nat (dict_get k counts) + (if decide (item = k) then 1 else 0))%nat.
Proof.
  unfold count_item.
  destruct (dict_get item counts) as [c|] eqn:Hget;
    (destruct (decide (item = k)) as [->|Hne];
     [rewrite dict_get_set_eq, Hget; cbn; lia
     |rewrite dict_get_set_ne by done; cbn; lia]).
Qed.

Lemma count_item_keys counts item k :
  k ∈ dict_keys (count_item counts item) <-> k ∈ dict_keys counts \/ k = item.
Proof.
  unfold count_item.
  destruct (dict_get item counts) as [c|] eqn:Hget; rewrite dict_keys_set.
  - rewrite decide_True by (by eapply dict_get_Some_keys).
    split; [auto|]. intros [?| ->]; [done|by eapply dict_get_Some_keys].
  - rewrite decide_False by (by apply dict_get_None_keys).
    rewrite elem_of_app, list_elem_of_singleton. done.
Qed.

Lemma count_item_NoDup counts item :
  NoDup (dict_keys counts) -> NoDup (dict_keys (count_item counts item)).
Proof. unfold count_item. destruct (dict_get item counts); apply dict_set_NoDup. Qed.

Lemma freq_table_from counts items :
  NoDup (dict_keys counts) ->
  NoDup (dict_keys (fold_left count_item items counts))
  /\ forall k,
       default 0%nat (dict_get k (fold_left count_item items counts))
       = (default 0%nat (dict_get k counts) + occurrences k items)%nat
       /\ (k ∈ dict_keys (fold_left count_item items counts)
           <-> k ∈ dict_keys counts \/ k ∈ items).
Proof.
  revert counts. induction items as [|item items IH]; intros counts Hnd.
  - cbn. split; [done|]. intros k. split; [unfold occurrences; cbn; lia|].
    split; [auto|]. intros [?|?%elem_of_nil]; done.
  - cbn [fold_left].
    destruct (IH (count_item counts item) (count_item_NoDup _ _ Hnd)) as [Hnd' Hk].
    split; [done|]. intros k. destruct (Hk k) as [Hget Hkeys]. split.
    + rewrite Hget, count_item_get. unfold occurrences. rewrite filter_cons.
      destruct (decide (item = k)); cbn [length]; lia.
    + rewrite Hkeys, count_item_keys, elem_of_cons.
      split; [intros [[?|?]|?]|intros [?|[?|?]]]; auto.
Qed.

(** The table holds every item once, with the number of its occurrences. *)
Lemma get_freq_table_spec items :
  NoDup (dict_keys (get_freq_table items))
  /\ forall k,
       default 0%nat (dict_get k (get_freq_table items)) = occurrences k items
       /\ (k ∈ dict_keys (get_freq_table items) <-> k ∈ items).
Proof.
  destruct (freq_table_from [] items (NoDup_nil_2)) as [Hnd Hk].
  split; [done|]. intros k. destruct (Hk k) as [Hget Hkeys]. split; [done|].
  rewrite Hkeys. split; [by intros [?%elem_of_nil|?]|auto].
Qed.

Lemma insert_by_count_perm (count : K -> nat) x l :
  insert_by_count count x l ≡ₚ x :: l.
Proof.
  induction l as [|y l IH]; cbn [insert_by_count]; [done|].
  destruct (count x <? count y)%nat; [|done].
  by rewrite IH, Permutation_swap.
Qed.

Lemma sorted_by_count_reverse_perm (count : K -> nat) keys :
  sorted_by_count_reverse count keys ≡ₚ keys.
Proof.
  unfold sorted_by_count_reverse.
  induction keys as [|k keys IH]; cbn [fold_right]; [done|].
  by rewrite insert_by_count_perm, IH.
Qed.

Lemma insert_by_count_sorted (count : K -> nat) x l :
  StronglySorted (fun a b => (count b <= count a)%nat) l ->
  StronglySorted (fun a b => (count b <= count a)%nat) (insert_by_count count x l).
Proof.
  induction 1 as [|y l Hs IH Hy]; cbn [insert_by_count].
  - repeat constructor.
  - destruct (Nat.ltb_spec (count x) (count y)).
    + constructor; [done|]. rewrite insert_by_count_perm.
      constructor; [lia|done].
    + constructor; [by constructor|]. constructor; [done|].
      eapply Forall_impl; [done|]. cbn. intros; lia.
Qed.

Lemma sorted_by_count_reverse_sorted (count : K -> nat) keys :
  StronglySorted (fun a b => (count b <= count a)%nat)
    (sorted_by_count_reverse count keys).
Proof.
  unfold sorted_by_count_reverse.
  induction keys as [|k keys IH]; cbn [fold_right]; [constructor|].
  by apply insert_by_count_sorted.
Qed.

End FreqTable.

(** X9. [get_most_common_month_year] raises [IndexError] on no dates; on
    one date or more it returns the month and year of one of the dates,
    no other month and year is that of more dates, and the flag says
    whether all the dates have that month and year.
    [guess_voting_month_year] does the same on the timestamps of the
    ballots. *)
Theorem get_most_common_month_year_most_common :
  get_most_common_month_year [] = Raise IndexError
  /\ guess_voting_month_year [] = Raise IndexError
  /\ (forall ballots,
        guess_voting_month_year ballots
        = get_most_common_month_year (map timestamp ballots))
  /\ forall date dates,
       exists m y is_unanimous,
         get_most_common_month_year (date :: dates) = Ok (m, y, is_unanimous)
         /\ (m, y) ∈ map (fun d => (month d, year d)) (date :: dates)
         /\ (forall my,
               (occurrences my (map (fun d => (month d, year d)) (date :: dates))
                <= occurrences (m, y)
                     (map (fun d => (month d, year d)) (date :: dates)))%nat)
         /\ (is_unanimous = true
             <-> forall d, d ∈ date :: dates -> (month d, year d) = (m, y)).
Proof.
  split; [done|]. split; [done|]. split; [done|]. intros date dates.
  unfold get_most_common_month_year.
  set (mys := map (fun d => (month d, year d)) (date :: dates)).
  destruct (get_freq_table_spec mys) as [Hnd Hk].
  set (table := get_freq_table mys) in *.
  set (count := fun my : Z * Z => default 0%nat (dict_get my table)).
  pose proof (sorted_by_count_reverse_perm count (dict_keys table)) as Hperm.
  pose proof (sorted_by_count_reverse_sorted count (dict_keys table)) as Hsorted.
  assert (Hcount : forall my, count my = occurrences my mys)
    by (intros my; apply Hk).
  assert (Hkeys : forall my, my ∈ dict_keys table <-> my ∈ mys)
    by (intros my; apply Hk).
  destruct (sorted_by_count_reverse count (dict_keys table))
    as [|[m y] rest] eqn:Hs.
  { apply Permutation_nil_l in Hperm.
    assert (Hin : (month date, year date) ∈ dict_keys table)
      by (apply Hkeys; left).
    rewrite <- Hperm in Hin. by apply elem_of_nil in Hin. }
  exists m, y, (bool_decide (length ((m, y) :: rest) = 1%nat)).
  split; [done|].
  assert (Hin : (m, y) ∈ mys) by (apply Hkeys; rewrite <- Hperm; left).
  split; [done|]. split.
  - intros my. rewrite <- !Hcount.
    destruct (decide (my ∈ mys)) as [Hmy|Hmy].
    + apply Hkeys in Hmy. rewrite <- Hperm in Hmy.
      apply elem_of_cons in Hmy as [->|Hmy]; [done|].
      apply StronglySorted_inv in Hsorted as [_ Hall].
      rewrite Forall_forall in Hall. by apply Hall.
    + rewrite (Hcount my), occurrences_not_in by done. lia.
  - rewrite bool_decide_eq_true. split.
    + intros Hlen d Hd. destruct rest; [|done].
      assert (Hd' : (month d, year d) ∈ dict_keys table).
      { apply Hkeys. unfold mys. apply list_elem_of_fmap. by exists d. }
      rewrite <- Hperm in Hd'. by apply list_elem_of_singleton in Hd'.
    + intros Hall. destruct rest as [|my rest]; [done|].
      assert (Hnd' : NoDup ((m, y) :: my :: rest)) by (by rewrite Hperm).
      assert (Hmy : my ∈ mys).
      { apply Hkeys. rewrite <- Hperm. right. left. }
      apply list_elem_of_fmap in Hmy as (d & -> & Hd).
      rewrite (Hall d Hd) in Hnd'.
      apply NoDup_cons in Hnd' as [Hnin _]. exfalso. apply Hnin. left.
Qed.

(** *** Durations without components, and with days *)

Lemma not_elem_of_slice_from c s lo : c ∉ s -> c ∉ slice_from s lo.
Proof.
  unfold slice_from. intros Hnin Hin. apply Hnin.
  by eapply (subseteq_drop (slice_bound s lo) s).
Qed.

(** X10. A text with none of the letters [H], [M] and [S] is not checked
    at all: [convert_iso8601_duration_to_seconds] returns 0 seconds for
    it, whatever it holds. *)
Theorem convert_iso8601_duration_to_seconds_no_designator s :
  "H"%char ∉ s -> "M"%char ∉ s -> "S"%char ∉ s ->
  convert_iso8601_duration_to_seconds s = Ok 0.
Proof.
  intros HH HM HS. unfold convert_iso8601_duration_to_seconds.
  set (t := if startswith (chars "PT") s then slice_from s 2 else s).
  assert (Ht : ("H"%char ∉ t) /\ ("M"%char ∉ t) /\ ("S"%char ∉ t)).
  { unfold t. destruct (startswith _ s); [|done].
    split_and!; by apply not_elem_of_slice_from. }
  destruct Ht as (HtH & HtM & HtS).
  rewrite (contains_false "H" t HtH). cbn [mbind result_bind Py.bind].
  rewrite (contains_false "M" t HtM). cbn [mbind result_bind Py.bind].
  by rewrite (contains_false "S" t HtS).
Qed.

Lemma convert_iso8601_duration_to_seconds_no_designator_witness :
  convert_iso8601_duration_to_seconds (chars "P1D") = Ok 0.
Proof.
  apply convert_iso8601_duration_to_seconds_no_designator;
    apply (bool_decide_unpack _); vm_compute; reflexivity.
Defined.

Lemma lstrip_keeps_last s c :
  is_space c = false -> exists u, lstrip (s ++ [c]) = u ++ [c].
Proof. apply lstrip_by_keeps_last. Qed.

(** [int] refuses a text that starts with the letter [P]. *)
Lemma int_P r :
  int ("P"%char :: r) = Raise (ValueError (InvalidLiteralForInt ("P"%char :: r))).
Proof.
  unfold int.
  assert (Hs : exists r', strip_by is_int_space ("P"%char :: r) = "P"%char :: r').
  { unfold strip_by.
    change (lstrip_by is_int_space ("P"%char :: r)) with ("P"%char :: r).
    unfold rstrip_by. cbn [rev].
    destruct (lstrip_by_keeps_last is_int_space (rev r) "P") as [u Hu]; [done|].
    rewrite Hu, rev_app_distr. by eexists. }
  destruct Hs as [r' ->]. done.
Qed.

Lemma split_P sep t :
  sep <> "P"%char ->
  exists part parts, split sep ("P"%char :: t) = ("P"%char :: part) :: parts.
Proof.
  intros Hsep. cbn [split].
  destruct (N.eq_dec "P"%char sep); [congruence|].
  destruct (split sep t) as [|part parts]; eauto.
Qed.

Lemma unpack_int_P sep t :
  sep <> "P"%char ->
  exists e,
    ('(part, rest) ← unpack2 (split sep ("P"%char :: t));
     value ← int part; Ok (value, rest))
    = Raise (ValueError e).
Proof.
  intros Hsep. destruct (split_P sep t Hsep) as (part & parts & ->).
  destruct parts as [|b [|? ?]]; cbn [unpack2 mbind result_bind Py.bind];
    [by eexists| |by eexists].
  rewrite int_P. by eexists.
Qed.

(** X11. A duration with a day part, as [P1DT2H3M4S], is not converted: a
    text that starts with [P] but not with [PT] and holds one of the
    letters [H], [M] and [S] makes
    [convert_iso8601_duration_to_seconds] raise [ValueError]. *)
Theorem convert_iso8601_duration_to_seconds_days t :
  startswith (chars "PT") ("P"%char :: t) = false ->
  ("H"%char ∈ t) \/ ("M"%char ∈ t) \/ ("S"%char ∈ t) ->
  exists e,
    convert_iso8601_duration_to_seconds ("P"%char :: t) = Raise (ValueError e).
Proof.
  intros Hstart Hin. unfold convert_iso8601_duration_to_seconds.
  rewrite Hstart. cbv zeta.
  destruct (decide ("H"%char ∈ t)) as [HH|HH].
  { rewrite contains_true by (by right).
    destruct (unpack_int_P "H" t) as [e He]; [done|].
    rewrite He. by eexists. }
  rewrite contains_false
    by (apply not_elem_of_cons; split; [done|done]).
  cbn [mbind result_bind Py.bind].
  destruct (decide ("M"%char ∈ t)) as [HM|HM].
  { rewrite contains_true by (by right).
    destruct (unpack_int_P "M" t) as [e He]; [done|].
    rewrite He. by eexists. }
  rewrite contains_false
    by (apply not_elem_of_cons; split; [done|done]).
  cbn [mbind result_bind Py.bind].
  destruct Hin as [?|[?|HS]]; [done|done|].
  rewrite contains_true by (by right).
  unfold remove_char. rewrite filter_cons.
  destruct (decide ("P"%char <> "S"%char)) as [_|Hn]; [|by destruct Hn].
  rewrite int_P. by eexists.
Qed.

Lemma convert_iso8601_duration_to_seconds_days_witness :
  exists e,
    convert_iso8601_duration_to_seconds ("P"%char :: chars "1DT2H3M4S")
    = Raise (ValueError e).
Proof.
  apply convert_iso8601_duration_to_seconds_days; [reflexivity|].
  left. apply (bool_decide_unpack _). vm_compute. reflexivity.
Defined.

End DateRestSpec.

(** ** Further properties of functions/top_10_calc.py *)

Module Top10CalcRestSpec.

Import Typing General Top10Calc Spec SpecRest PyFacts DictFacts Top10CalcSpec.

(** *** The shifted votes CSV *)

Lemma every_second_cells (cells : list (string * string)) :
  every_second (concat (map (fun cell => [cell.1; cell.2]) cells))
  = map fst cells.
Proof.
  induction cells as [|[t a] cells IH]; [done|].
  cbn [map concat app every_second fst snd]. by rewrite IH.
Qed.

(** X12. [process_shifted_voting_data] undoes the shift: of a header and
    rows that hold a timestamp, its annotation and every title followed
    by its annotation, it returns the titles of the rows, in order. *)
Theorem process_shifted_voting_data_titles header rows :
  process_shifted_voting_data (header :: map shifted_row rows)
  = map (fun row => map fst row.2) rows.
Proof.
  unfold process_shifted_voting_data. cbv zeta.
  change (drop 1 (header :: map shifted_row rows)) with (map shifted_row rows).
  rewrite map_map. apply map_ext. intros [[ts a] cells]. unfold shifted_row.
  cbn [fst snd].
  change (drop 2 (ts :: a :: ?l)) with l. apply every_second_cells.
Qed.

(** *** The mapping from titles to URLs *)

(** X13. Tables with different numbers of rows make
    [get_titles_to_urls_mapping] raise [ValueError], whatever the rows
    hold. *)
Theorem get_titles_to_urls_mapping_row_count title_rows url_rows :
  length title_rows <> length url_rows ->
  get_titles_to_urls_mapping title_rows url_rows
  = Raise (ValueError ZipArgumentLengthMismatch).
Proof. apply get_titles_to_urls_rows_mismatch. Qed.

Lemma get_titles_to_urls_mapping_row_count_witness :
  get_titles_to_urls_mapping [["a"]%string; []] [["u"]%string]
  = Raise (ValueError ZipArgumentLengthMismatch).
Proof. apply get_titles_to_urls_mapping_row_count. cbn. lia. Defined.

Lemma dict_get_fold_set (pairs d : list (string * string)) title :
  dict_get title (fold_left (fun d tu => dict_set tu.1 tu.2 d) pairs d)
  = match last_url pairs title with
    | Some url => Some url
    | None => dict_get title d
    end.
Proof.
  revert d. unfold last_url.
  induction pairs as [|[t u] pairs IH]; intros d; [done|].
  cbn [fold_left fst snd]. rewrite IH, filter_cons. cbn [fst].
  destruct (decide (t = title)) as [->|Hne].
  - destruct (filter _ pairs) as [|p l] eqn:Hf.
    + cbn. apply dict_get_set_eq.
    + rewrite (last_cons (title, u)).
      destruct (last (p :: l)) eqn:Hl; [done|]. by apply last_None in Hl.
  - destruct (last (filter _ pairs)); [done|].
    cbn. by rewrite dict_get_set_ne.
Qed.

Lemma dict_keys_fold_set (pairs d : list (string * string)) title :
  title ∈ dict_keys (fold_left (fun d tu => dict_set tu.1 tu.2 d) pairs d)
  <-> title ∈ dict_keys d \/ title ∈ pairs.*1.
Proof.
  revert d. induction pairs as [|[t u] pairs IH]; intros d.
  - cbn. split; [auto|]. by intros [?|?%elem_of_nil].
  - cbn [fold_left fst snd fmap list_fmap]. rewrite IH, dict_keys_set, elem_of_cons.
    case_decide as Hin.
    + split; [intros [?|?]; auto|]. intros [?|[->|?]]; auto.
    + rewrite elem_of_app, list_elem_of_singleton.
      split; [intros [[?|?]|?]; auto|]. intros [?|[?|?]]; auto.
Qed.

(** The mapping of two tables of the same shape. *)
Lemma titles_to_urls_of_tables title_rows url_rows :
  Forall2 (fun tr ur : list string => length tr = length ur) title_rows url_rows ->
  exists titles_to_urls,
    get_titles_to_urls_mapping title_rows url_rows = Ok titles_to_urls
    /\ (forall title,
          title ∈ dict_keys titles_to_urls <-> title ∈ concat title_rows)
    /\ forall title,
         dict_get title titles_to_urls
         = last_url (zip (concat title_rows) (concat url_rows)) title.
Proof.
  intros Hshape. unfold get_titles_to_urls_mapping.
  rewrite get_titles_to_urls_rows_same_shape by done.
  eexists. split; [done|]. split; intros title.
  - rewrite dict_keys_fold_set, fst_zip.
    + split; [by intros [?%elem_of_nil|?]|auto].
    + clear title. induction Hshape as [|tr ur trs urs Hlen _ IH]; [done|].
      cbn [concat]. rewrite !length_app. lia.
  - rewrite dict_get_fold_set. by destruct (last_url _ _).
Qed.

(** X14. For tables of the same shape, [get_titles_to_urls_mapping]
    returns a dictionary whose keys are the titles of the table, and a
    title that stands in several cells is mapped to the URL of its last
    cell. *)
Theorem get_titles_to_urls_mapping_last_wins title_rows url_rows :
  Forall2 (fun tr ur : list string => length tr = length ur) title_rows url_rows ->
  exists titles_to_urls,
    get_titles_to_urls_mapping title_rows url_rows = Ok titles_to_urls
    /\ (forall title,
          title ∈ dict_keys titles_to_urls <-> title ∈ concat title_rows)
    /\ forall title,
         dict_get title titles_to_urls
         = last_url (zip (concat title_rows) (concat url_rows)) title.
Proof. apply titles_to_urls_of_tables. Qed.

Lemma get_titles_to_urls_mapping_last_wins_witness :
  exists titles_to_urls,
    get_titles_to_urls_mapping [["a"; "b"]; ["a"]]%string
      [["u"; "v"]; ["w"]]%string
    = Ok titles_to_urls
    /\ (forall title,
          title ∈ dict_keys titles_to_urls
          <-> title ∈ concat [["a"; "b"]; ["a"]]%string)
    /\ forall title,
         dict_get title titles_to_urls
         = last_url (zip (concat [["a"; "b"]; ["a"]]%string)
                       (concat [["u"; "v"]; ["w"]]%string)) title.
Proof.
  apply get_titles_to_urls_mapping_last_wins.
  repeat constructor.
Defined.

(** *** The anniversaries *)

(** X15. When every archive record has an integer month and year, the
    month of the reference date is a month and every anniversary year
    lies in the years 1 to 9999, [get_history] returns: under each
    anniversary whose month has records in the archive, these records in
    archive order; nothing under any other number; and one warning for
    each anniversary without records, in the order of the anniversaries. *)
Theorem get_history_anniversaries archive from_date anniversaries :
  Forall (fun r => is_Some (month_year_of r)) archive ->
  1 <= Date.month from_date <= 12 ->
  Forall (fun n => 1 <= Date.year from_date - n <= 9999) anniversaries ->
  exists h,
    get_history archive from_date anniversaries = Ok h
    /\ (forall n,
          history_records h !! n
          = if decide (n ∈ anniversaries
                       /\ bucket archive (Date.month from_date,
                                          Date.year from_date - n) <> [])
            then Some (bucket archive (Date.month from_date,
                                       Date.year from_date - n))
            else None)
    /\ printed h
       = map (fun n => Messages.NoHistoricalEntriesFound
                         (Date.month from_date) (Date.year from_date - n))
           (filter (fun n => bucket archive (Date.month from_date,
                                             Date.year from_date - n) = [])
              anniversaries).
Proof.
  intros Harch Hm Hyears. unfold get_history.
  destruct (index_archive_records archive ∅ Harch) as (idx & -> & Hidx).
  cbn [mbind result_bind Py.bind].
  destruct (get_anniversaries_in_range (Date.month from_date)
              (Date.year from_date) idx anniversaries
              {| history_records := ∅; printed := [] |} Hm Hyears)
    as (h & -> & Hrec & Hpr).
  assert (Hlook : forall k, idx !! k
                    = match bucket archive k with [] => None | b => Some b end).
  { intros k. rewrite Hidx, lookup_empty. by destruct (bucket archive k). }
  exists h. split; [done|]. split.
  - intros n. rewrite Hrec, Hlook. cbn [history_records].
    destruct (bucket archive _) as [|r b] eqn:Hb.
    + rewrite lookup_empty. rewrite decide_False by (by intros [_ [? ?]]).
      by rewrite decide_False by (by intros [_ ?]).
    + destruct (decide (n ∈ anniversaries)) as [Hn|Hn].
      * rewrite decide_True by (split; [done|eauto]).
        by rewrite decide_True by done.
      * rewrite lookup_empty. rewrite decide_False by (by intros [? _]).
        by rewrite decide_False by (by intros [? _]).
  - rewrite Hpr. cbn [printed app]. f_equal.
    apply list_filter_iff. intros n. rewrite Hlook.
    by destruct (bucket archive _).
Qed.

Lemma get_history_anniversaries_witness :
  exists h,
    get_history [example_archive_record] (first_instant 2024 4 None) [5; 10]
    = Ok h
    /\ (forall n,
          history_records h !! n
          = if decide (n ∈ [5; 10]
                       /\ bucket [example_archive_record]
                            (Date.month (first_instant 2024 4 None),
                             Date.year (first_instant 2024 4 None) - n) <> [])
            then Some (bucket [example_archive_record]
                         (Date.month (first_instant 2024 4 None),
                          Date.year (first_instant 2024 4 None) - n))
            else None)
    /\ printed h
       = map (fun n => Messages.NoHistoricalEntriesFound
                         (Date.month (first_instant 2024 4 None))
                         (Date.year (first_instant 2024 4 None) - n))
           (filter (fun n => bucket [example_archive_record]
                               (Date.month (first_instant 2024 4 None),
                                Date.year (first_instant 2024 4 None) - n) = [])
              [5; 10]).
Proof.
  apply get_history_anniversaries.
  - repeat constructor. by eexists.
  - cbn. lia.
  - repeat constructor; cbn; lia.
Defined.

(** X16. One archive record whose month or year [int] does not read makes
    [get_history] raise [ValueError] for that text, the month first, with
    any anniversaries, even none. *)
Theorem get_history_malformed_record pre record post from_date anniversaries :
  Forall (fun r => is_Some (month_year_of r)) pre ->
  month_year_of record = None ->
  exists text,
    get_history (pre ++ record :: post) from_date anniversaries
    = Raise (ValueError (InvalidLiteralForInt (chars text)))
    /\ (text = month record
        \/ (is_ok (int (chars (month record))) = true /\ text = year record)).
Proof.
  intros Hpre Hrec. unfold get_history.
  assert (Hfold : forall idx0, exists text,
             foldM index_archive_record (pre ++ record :: post) idx0
             = Raise (ValueError (InvalidLiteralForInt (chars text)))
             /\ (text = month record
                 \/ (is_ok (int (chars (month record))) = true
                     /\ text = year record))).
  { induction Hpre as [|r pre [[m y] Hr] _ IH]; intros idx0.
    - cbn [app foldM]. unfold index_archive_record, month_year_of in *.
      unfold int in *.
      destruct (int_literal (strip_by is_int_space (chars (month record))))
        as [m|].
      + destruct (int_literal (strip_by is_int_space (chars (year record))))
          as [y|]; [done|].
        exists (year record). split; [done|]. by right.
      + exists (month record). split; [done|]. by left.
    - cbn [app foldM]. unfold index_archive_record at 1.
      unfold month_year_of in Hr.
      destruct (int (chars (month r))) as [m'|]; [|done].
      destruct (int (chars (year r))) as [y'|]; [|done].
      cbn [mbind result_bind Py.bind]. apply IH. }
  destruct (Hfold ∅) as (text & -> & Htext). by exists text.
Qed.

Lemma get_history_malformed_record_witness :
  exists text,
    get_history ([example_archive_record] ++ example_malformed_record :: [])
      (first_instant 2024 4 None) []
    = Raise (ValueError (InvalidLiteralForInt (chars text)))
    /\ (text = month example_malformed_record
        \/ (is_ok (int (chars (month example_malformed_record))) = true
            /\ text = year example_malformed_record)).
Proof.
  apply get_history_malformed_record; [|reflexivity].
  repeat constructor. by eexists.
Defined.

(** *** The votes of a record *)

Lemma count_title_get (d : list (string * nat)) x t :
  default 0%nat (dict_get t (count_title d x))
  = (default 0%nat (dict_get t d) + (if decide (x = t) then 1 else 0))%nat.
Proof.
  unfold count_title. destruct (decide (x = t)) as [->|Hne].
  - rewrite dict_get_set_eq. destruct (dict_get t d) as [c|] eqn:Hget.
    + by rewrite Hget.
    + by rewrite dict_get_set_eq.
  - rewrite dict_get_set_ne by done. destruct (dict_get x d).
    + cbn. lia.
    + rewrite dict_get_set_ne by done. cbn. lia.
Qed.

Lemma tally_get titles (d : list (string * nat)) t :
  default 0%nat (dict_get t (fold_left count_title titles d))
  = (default 0%nat (dict_get t d) + occurrences t titles)%nat.
Proof.
  revert d. induction titles as [|x titles IH]; intros d.
  - unfold occurrences. cbn. lia.
  - cbn [fold_left]. rewrite IH, count_title_get. unfold occurrences.
    rewrite filter_cons. destruct (decide (x = t)); cbn [length]; lia.
Qed.

Lemma title_counts_get title_rows t c :
  dict_get t (title_counts title_rows) = Some c ->
  t <> ""%string /\ c = occurrences t (concat title_rows) /\ (1 <= c)%nat.
Proof.
  intros Hget.
  assert (Hkey : t ∈ dict_keys (title_counts title_rows))
    by (by eapply dict_get_Some_keys).
  apply title_counts_keys in Hkey as (Hne & row & Hrow & Ht).
  split; [done|].
  assert (Hc : c = occurrences t (concat title_rows)).
  { unfold title_counts, count_titles in Hget.
    rewrite dict_get_del_ne, count_titles_concat in Hget by done.
    pose proof (tally_get (concat title_rows) [] t) as Htally.
    rewrite Hget in Htally. cbn in Htally. lia. }
  split; [done|]. subst c. unfold occurrences.
  assert (Hin : t ∈ filter (fun x => x = t) (concat title_rows)).
  { apply list_elem_of_filter. split; [done|].
    apply list_elem_of_In, in_concat. exists row.
    split; by apply list_elem_of_In. }
  destruct (filter _ _); [by apply elem_of_nil in Hin|cbn; lia].
Qed.

(** X17. Every record of a ranking has a non-blank title, its number of
    votes is the number of cells of the ballots that hold its title, which
    is at least one, and its URL is the one the mapping gives for the
    title. *)
Theorem calc_ranked_records_total_votes
    rand title_rows titles_to_urls titles_to_uploaders recs :
  calc_ranked_records rand title_rows titles_to_urls titles_to_uploaders
  = Ok recs ->
  Forall (fun r =>
            Title r <> ""%string
            /\ Total_Votes r = occurrences (Title r) (concat title_rows)
            /\ (1 <= Total_Votes r)%nat
            /\ dict_get (Title r) titles_to_urls = Some (URL r))
    recs.
Proof.
  intros (st & Hrecs & _)%calc_ranked_records_Ok_inv.
  apply Forall_forall. intros r Hr.
  destruct (Forall2_elem_of_r _ _ _ _ Hrecs Hr) as (t & _ & Hrt).
  apply ranked_record_Ok_inv in Hrt as (<- & _ & Hc & Hurl & _).
  apply title_counts_get in Hc as (? & ? & ?). done.
Qed.

Lemma calc_ranked_records_total_votes_witness :
  Forall (fun r =>
            Title r <> ""%string
            /\ Total_Votes r = occurrences (Title r) (concat example_title_rows)
            /\ (1 <= Total_Votes r)%nat
            /\ dict_get (Title r) example_titles_to_urls = Some (URL r))
    example_records.
Proof.
  apply (calc_ranked_records_total_votes example_rand example_title_rows
           example_titles_to_urls example_titles_to_uploaders).
  vm_compute. reflexivity.
Defined.

(** *** The random source *)

Lemma comprehension_Permutation {A B} (f : A -> result B) l l' ys :
  l ≡ₚ l' -> comprehension f l = Ok ys ->
  exists ys', comprehension f l' = Ok ys' /\ ys ≡ₚ ys'.
Proof.
  intros Hperm. revert ys.
  induction Hperm as [|x l l' _ IH|x y l|l l' l'' _ IH1 _ IH2]; intros ys.
  - intros [= <-]. by exists [].
  - cbn [comprehension]. destruct (f x) as [v|]; [|done].
    destruct (comprehension f l) as [vs|]; [|done]. intros [= <-].
    destruct (IH vs eq_refl) as (vs' & -> & Hvs). exists (v :: vs').
    split; [done|]. by constructor.
  - cbn [comprehension]. destruct (f y) as [v|]; [|done].
    destruct (f x) as [w|]; [|done].
    destruct (comprehension f l) as [vs|]; [|done]. intros [= <-].
    exists (w :: v :: vs). split; [done|]. apply Permutation_swap.
  - intros Hys. destruct (IH1 ys Hys) as (ys' & Hys' & Hp1).
    destruct (IH2 ys' Hys') as (ys'' & Hys'' & Hp2).
    exists ys''. split; [done|]. by etrans.
Qed.

Lemma comprehension_ext_in {A B} (f g : A -> result B) l :
  (forall x, x ∈ l -> f x = g x) -> comprehension f l = comprehension g l.
Proof.
  induction l as [|x l IH]; intros Hext; [done|]. cbn [comprehension].
  rewrite (Hext x) by left. rewrite IH; [done|].
  intros y Hy. apply Hext. by right.
Qed.

Lemma ranked_record_tie_broken T tp urls uploaders (tb tb' : gmap string bool) t :
  tb !! t = tb' !! t ->
  ranked_record T tp urls uploaders tb t = ranked_record T tp urls uploaders tb' t.
Proof. intros Heq. unfold ranked_record. by rewrite Heq. Qed.

(** Two runs on the same ballots rank the same titles and flag them
    alike, whatever their random sources. *)
Lemma calc_ranked_records_two_runs rand rand' title_rows urls uploaders recs :
  calc_ranked_records rand title_rows urls uploaders = Ok recs ->
  exists l l',
    l ≡ₚ l'
    /\ map Percentage recs
       = map (percentage_of_title
                (title_percentages title_rows (counted title_rows))) l
    /\ descending (map (percentage_of_title
                          (title_percentages title_rows (counted title_rows))) l)
    /\ descending (map (percentage_of_title
                          (title_percentages title_rows (counted title_rows))) l')
    /\ exists f,
         comprehension f l = Ok recs
         /\ calc_ranked_records rand' title_rows urls uploaders
            = comprehension f l'.
Proof.
  intros Hcalc.
  destruct (calc_ranked_records_Ok_counted _ _ _ _ _ Hcalc) as [n Hn].
  destruct (count_voters_Ok_inv _ _ _ _ Hn) as [_ ->]. cbn [Nat.add] in Hn.
  set (tp := title_percentages title_rows (counted title_rows)).
  destruct (ranking_anatomy rand title_rows _ Hn)
    as (st & Heq & Hnd & Hkeys & Hdesc & Hflag).
  destruct (ranking_anatomy rand' title_rows _ Hn)
    as (st' & Heq' & Hnd' & Hkeys' & Hdesc' & Hflag').
  rewrite Heq in Hcalc. fold tp in Hcalc, Hflag, Hflag', Hdesc, Hdesc'.
  pose proof (comprehension_Ok_inv _ _ _ Hcalc) as Hrecs.
  exists (ranked_titles st), (ranked_titles st').
  split.
  { apply NoDup_Permutation; [done|done|]. intros t. by rewrite Hkeys, Hkeys'. }
  split.
  { apply (Forall2_map_eq _ _ _ _ _ Hrecs).
    intros t r (_ & Hp & _)%ranked_record_Ok_inv.
    unfold percentage_of_title. by rewrite Hp. }
  split; [done|]. split; [done|].
  exists (ranked_record (title_counts title_rows) tp urls uploaders
            (tie_broken st)).
  split; [done|]. rewrite Heq'. fold tp. apply comprehension_ext_in.
  intros t Ht. apply ranked_record_tie_broken.
  assert (Ht1 : t ∈ ranked_titles st) by (by apply Hkeys, Hkeys').
  destruct (Forall2_elem_of_l _ _ _ _ Hrecs Ht1) as (r & _ & Hrt).
  apply ranked_record_Ok_inv in Hrt as (_ & Hp & _).
  by rewrite (Hflag _ _ Hp), (Hflag' _ _ Hp).
Qed.

(** X18. The random source only decides the order: if the ranking
    succeeds with one random source, it succeeds with every other one,
    and the records are the same up to their order. *)
Theorem calc_ranked_records_any_random_source
    rand rand' title_rows titles_to_urls titles_to_uploaders recs :
  calc_ranked_records rand title_rows titles_to_urls titles_to_uploaders
  = Ok recs ->
  exists recs',
    calc_ranked_records rand' title_rows titles_to_urls titles_to_uploaders
    = Ok recs'
    /\ recs ≡ₚ recs'.
Proof.
  intros Hcalc.
  destruct (calc_ranked_records_two_runs rand rand' _ _ _ _ Hcalc)
    as (l & l' & Hperm & _ & _ & _ & f & Hrecs & ->).
  by apply (comprehension_Permutation f l l').
Qed.

Lemma calc_ranked_records_any_random_source_witness :
  exists recs',
    calc_ranked_records (fun k => (7 * k + 3)%nat) example_title_rows
      example_titles_to_urls example_titles_to_uploaders
    = Ok recs'
    /\ example_records ≡ₚ recs'.
Proof.
  apply (calc_ranked_records_any_random_source example_rand).
  vm_compute. reflexivity.
Defined.

Lemma descending_unique {A} (f : A -> Qc) l l' :
  NoDup (map f l) -> descending (map f l) -> descending (map f l') ->
  l ≡ₚ l' -> l = l'.
Proof.
  revert l'. induction l as [|x l IH]; intros l' Hnd Hd Hd' Hperm.
  - by apply Permutation_nil_l in Hperm.
  - destruct l' as [|y l']; [by apply Permutation_nil_r in Hperm|].
    cbn [map] in *. apply NoDup_cons in Hnd as [Hx Hnd].
    apply StronglySorted_inv in Hd as [Hd Hall].
    apply StronglySorted_inv in Hd' as [Hd' Hall'].
    rewrite Forall_forall in Hall, Hall'.
    assert (Hxy : x = y).
    { destruct (decide (f x = f y)) as [Hf|Hf].
      - assert (Hy : y ∈ x :: l) by (rewrite Hperm; left).
        apply elem_of_cons in Hy as [->|Hy]; [done|].
        destruct Hx. rewrite Hf. apply list_elem_of_fmap. by exists y.
      - assert (Hy : y ∈ x :: l) by (rewrite Hperm; left).
        assert (Hx' : x ∈ y :: l') by (rewrite <- Hperm; left).
        apply elem_of_cons in Hy as [->|Hy]; [done|].
        apply elem_of_cons in Hx' as [->|Hx']; [done|].
        assert (f y <= f x)%Qc
          by (apply Hall, list_elem_of_fmap; by exists y).
        assert (f x <= f y)%Qc
          by (apply Hall', list_elem_of_fmap; by exists x).
        destruct Hf. by apply Qcle_antisym. }
    subst y. f_equal. apply IH; [done|done|done|].
    by apply (Permutation_cons_inv (a := x)).
Qed.

(** X19. Without ties nothing is left to chance: if no two records of a
    ranking have the same percentage, every random source gives the same
    records in the same order. *)
Theorem calc_ranked_records_no_ties_deterministic
    rand rand' title_rows titles_to_urls titles_to_uploaders recs :
  calc_ranked_records rand title_rows titles_to_urls titles_to_uploaders
  = Ok recs ->
  NoDup (map Percentage recs) ->
  calc_ranked_records rand' title_rows titles_to_urls titles_to_uploaders
  = Ok recs.
Proof.
  intros Hcalc Hnd.
  destruct (calc_ranked_records_two_runs rand rand' _ _ _ _ Hcalc)
    as (l & l' & Hperm & Hpcts & Hdesc & Hdesc' & f & Hrecs & ->).
  rewrite Hpcts in Hnd.
  by rewrite <- (descending_unique _ l l' Hnd Hdesc Hdesc' Hperm).
Qed.

Lemma calc_ranked_records_no_ties_deterministic_witness :
  calc_ranked_records (fun k => (7 * k + 3)%nat) example_untied_rows
    example_titles_to_urls example_titles_to_uploaders
  = Ok example_untied_records.
Proof.
  apply (calc_ranked_records_no_ties_deterministic example_rand).
  - vm_compute. reflexivity.
  - apply (bool_decide_unpack _). vm_compute. reflexivity.
Defined.

(** *** Votes and percentages *)

(** Among the same counted ballots, more votes are a higher percentage. *)
Lemma percent_le a b n :
  n <> 0%nat -> (percent a n <= percent b n)%Qc <-> (a <= b)%nat.
Proof.
  intros Hn. unfold percent, Qcle, Qcdiv, Qcmult, Qcinv, Qc_of_nat, Q2Qc.
  cbn [this]. rewrite !Qred_correct.
  assert (H100 : (0 < inject_Z (Z.of_nat 100))%Q) by done.
  assert (Hinv : (0 < / inject_Z (Z.of_nat n))%Q).
  { apply Qinv_lt_0_compat. rewrite <- (Zlt_Qlt 0). lia. }
  rewrite (Qmult_le_r _ _ _ H100), (Qmult_le_r _ _ _ Hinv), <- Zle_Qle. lia.
Qed.

Lemma percent_inj a b n : n <> 0%nat -> percent a n = percent b n <-> a = b.
Proof.
  intros Hn. split; [|by intros ->]. intros Heq.
  assert ((a <= b)%nat /\ (b <= a)%nat); [|lia].
  rewrite <- !(percent_le _ _ n Hn), Heq. split; apply Qcle_refl.
Qed.

Lemma calc_ranked_records_counted rand title_rows urls uploaders recs r :
  calc_ranked_records rand title_rows urls uploaders = Ok recs ->
  r ∈ recs -> counted title_rows <> 0%nat.
Proof.
  intros Hcalc Hr Hzero.
  destruct (calc_ranked_records_Ok_counted _ _ _ _ _ Hcalc) as [n Hn].
  destruct (count_voters_Ok_inv _ _ _ _ Hn) as [_ ->]. cbn [Nat.add] in Hn.
  rewrite Hzero in Hn. apply no_voters_no_titles in Hn.
  apply calc_ranked_records_Ok_inv in Hcalc as (st & Hrecs & _).
  destruct (Forall2_elem_of_r _ _ _ _ Hrecs Hr) as (t & _ & Hrt).
  apply ranked_record_Ok_inv in Hrt as (_ & _ & Hc & _).
  by rewrite Hn in Hc.
Qed.

(** X20. The records of a ranking stand by descending number of votes,
    and two records have the same percentage exactly when they have the
    same number of votes. *)
Theorem calc_ranked_records_by_votes
    rand title_rows titles_to_urls titles_to_uploaders recs :
  calc_ranked_records rand title_rows titles_to_urls titles_to_uploaders
  = Ok recs ->
  StronglySorted (fun r r' => (Total_Votes r' <= Total_Votes r)%nat) recs
  /\ forall r r', r ∈ recs -> r' ∈ recs ->
       (Percentage r = Percentage r' <-> Total_Votes r = Total_Votes r').
Proof.
  intros Hcalc.
  assert (Hpct : forall r, r ∈ recs ->
            Percentage r = percent (Total_Votes r) (counted title_rows)
            /\ counted title_rows <> 0%nat).
  { intros r Hr. split; [by eapply calc_ranked_records_percentage|].
    by eapply calc_ranked_records_counted. }
  split.
  - destruct (calc_ranked_records_two_runs rand rand _ _ _ _ Hcalc)
      as (l & _ & _ & Hpcts & Hdesc & _).
    rewrite <- Hpcts in Hdesc. clear Hpcts Hcalc l.
    induction recs as [|r recs IH]; [constructor|].
    cbn [map] in Hdesc. apply StronglySorted_inv in Hdesc as [Hd Hall].
    constructor.
    + apply IH; [|done]. intros r' Hr'. apply Hpct. by right.
    + apply Forall_forall. intros r' Hr'.
      rewrite Forall_forall in Hall.
      assert (Hle : (Percentage r' <= Percentage r)%Qc).
      { apply Hall, list_elem_of_fmap. by exists r'. }
      destruct (Hpct r) as [Hp Hn]; [left|].
      destruct (Hpct r') as [Hp' _]; [by right|].
      rewrite Hp, Hp' in Hle. by apply (percent_le _ _ _ Hn).
  - intros r r' Hr Hr'. destruct (Hpct r Hr) as [-> Hn].
    destruct (Hpct r' Hr') as [-> _]. by apply percent_inj.
Qed.

Lemma calc_ranked_records_by_votes_witness :
  StronglySorted (fun r r' => (Total_Votes r' <= Total_Votes r)%nat)
    example_records
  /\ forall r r', r ∈ example_records -> r' ∈ example_records ->
       (Percentage r = Percentage r' <-> Total_Votes r = Total_Votes r').
Proof.
  apply (calc_ranked_records_by_votes example_rand example_title_rows
           example_titles_to_urls example_titles_to_uploaders).
  vm_compute. reflexivity.
Defined.

(** *** From the tables to the records *)

Lemma fold_set_NoDup (pairs d : list (string * string)) :
  NoDup (dict_keys d) ->
  NoDup (dict_keys (fold_left (fun d tu => dict_set tu.1 tu.2 d) pairs d)).
Proof.
  revert d. induction pairs as [|[t u] pairs IH]; intros d Hnd; [done|].
  cbn [fold_left]. by apply IH, dict_set_NoDup.
Qed.

Lemma elem_of_dict_set (d : list (string * string)) t u x :
  x ∈ dict_set t u d -> x = (t, u) \/ x ∈ d.
Proof.
  induction d as [|[t' u'] d IH]; cbn [dict_set].
  - intros ->%list_elem_of_singleton. by left.
  - destruct (decide (t' = t)) as [->|Hne].
    + intros [->|Hx]%elem_of_cons; [by left|]. right. by right.
    + intros [->|Hx]%elem_of_cons; [right; left|].
      destruct (IH Hx) as [->|?]; [by left|]. right. by right.
Qed.

Lemma elem_of_fold_set (pairs d : list (string * string)) x :
  x ∈ fold_left (fun d tu => dict_set tu.1 tu.2 d) pairs d ->
  x ∈ pairs \/ x ∈ d.
Proof.
  revert d. induction pairs as [|[t u] pairs IH]; intros d; [by right|].
  cbn [fold_left fst snd]. intros [Hx|Hx]%IH; [left; by right|].
  apply elem_of_dict_set in Hx as [->|Hx]; [left; left|by right].
Qed.

(** X21. The three steps compose: for a title table and a URL table of
    the same shape, ballots that pass the validation and fetched data
    that have a key for every cell of the URL table (the blank cells
    too), the mapping, the uploaders and the ranking are all built; every
    record carries the URL of the last cell of its title and the
    uploader that the fetched data give for this URL, empty when there is
    none. *)
Theorem ranking_from_tables rand title_rows url_rows
    (videos_data : gmap string (option VideoData)) :
  Forall2 (fun tr ur : list string => length tr = length ur) title_rows url_rows ->
  Forall ballot_ok title_rows ->
  Forall (fun url => is_Some (videos_data !! url)) (concat url_rows) ->
  exists titles_to_urls titles_to_uploaders recs,
    get_titles_to_urls_mapping title_rows url_rows = Ok titles_to_urls
    /\ get_titles_to_uploaders titles_to_urls videos_data = Ok titles_to_uploaders
    /\ calc_ranked_records rand title_rows titles_to_urls titles_to_uploaders
       = Ok recs
    /\ Forall (fun r =>
                 last_url (zip (concat title_rows) (concat url_rows)) (Title r)
                 = Some (URL r)
                 /\ Uploader r
                    = shown_uploader (uploader_of (videos_data !! URL r)))
         recs.
Proof.
  intros Hshape Hvalid Hdata. rewrite Forall_forall in Hdata.
  destruct (titles_to_urls_of_tables title_rows url_rows Hshape)
    as (urls & Hmap & Hkeys & Hget).
  assert (Hurls : urls = fold_left (fun d tu => dict_set tu.1 tu.2 d)
                           (zip (concat title_rows) (concat url_rows)) []).
  { unfold get_titles_to_urls_mapping in Hmap.
    rewrite get_titles_to_urls_rows_same_shape in Hmap by done. congruence. }
  assert (Hnd : NoDup (dict_keys urls))
    by (rewrite Hurls; apply fold_set_NoDup, NoDup_nil_2).
  assert (Hall : Forall (fun tu : string * string =>
                           is_Some (videos_data !! tu.2)) urls).
  { apply Forall_forall. intros [t u] Htu. rewrite Hurls in Htu.
    apply elem_of_fold_set in Htu as [Htu|Htu]; [|by apply elem_of_nil in Htu].
    apply Hdata. by apply elem_of_zip_r in Htu. }
  destruct (get_titles_to_uploaders_loop urls videos_data [] Hnd Hall)
    as (uploaders & Hup & Hupget).
  destruct (calc_ranked_records_ok rand title_rows urls uploaders Hvalid)
    as [recs Hrecs].
  { intros t (Hne & row & Hrow & Ht)%title_counts_keys.
    assert (Hin : t ∈ dict_keys urls).
    { apply Hkeys, list_elem_of_In, in_concat. exists row.
      split; by apply list_elem_of_In. }
    apply dict_keys_is_Some in Hin as [url Hurl].
    split; [by eexists|]. rewrite Hupget, Hurl. by eexists. }
  exists urls, uploaders, recs. split; [done|]. split; [done|]. split; [done|].
  apply calc_ranked_records_Ok_inv in Hrecs as (st & Hrec & _).
  apply Forall_forall. intros r Hr.
  destruct (Forall2_elem_of_r _ _ _ _ Hrec Hr) as (t & _ & Hrt).
  apply ranked_record_Ok_inv in Hrt as (<- & _ & _ & Hurl & (u & Hu & Hshown) & _).
  split; [by rewrite <- Hget|].
  rewrite Hupget, Hurl in Hu. injection Hu as <-. done.
Qed.

Lemma ranking_from_tables_witness :
  exists titles_to_urls titles_to_uploaders recs,
    get_titles_to_urls_mapping example_title_rows example_url_rows
    = Ok titles_to_urls
    /\ get_titles_to_uploaders titles_to_urls example_fetched_data
       = Ok titles_to_uploaders
    /\ calc_ranked_records example_rand example_title_rows titles_to_urls
         titles_to_uploaders
       = Ok recs
    /\ Forall (fun r =>
                 last_url (zip (concat example_title_rows)
                             (concat example_url_rows)) (Title r)
                 = Some (URL r)
                 /\ Uploader r
                    = shown_uploader
                        (uploader_of (example_fetched_data !! URL r)))
         recs.
Proof.
  apply ranking_from_tables.
  - repeat constructor.
  - apply (bool_decide_unpack _). vm_compute. reflexivity.
  - apply (bool_decide_unpack _). vm_compute. reflexivity.
Defined.

End Top10CalcRestSpec.

(** ** Further properties of classes/fetch_services.py *)

Module FetchServicesRestSpec.

Import Typing Messages FetchServices Spec SpecRest PyFacts FetchServicesSpec.

Section YtDlpFetchService.

Variable netloc : str -> str.
Variable extract_info : str -> option extraction.
Variable sha256_hexdigest : string -> string.

(** *** The site of a URL *)

(** X22. A URL whose network location holds no dot makes [request] raise
    [IndexError], before anything is extracted. *)
Theorem request_netloc_without_dot url :
  "."%char ∉ netloc url ->
  request netloc extract_info sha256_hexdigest url = Raise IndexError.
Proof.
  intros Hdot. unfold request, site_of. by rewrite split_no_sep.
Qed.

(** X23. The site is the first label of a network location of two labels
    and the second label of a network location of three labels or more. *)
Theorem site_of_label url first second rest :
  ("."%char ∉ first) -> ("."%char ∉ second) ->
  netloc url = first ++ "."%char :: second ++ rest ->
  rest = [] \/ (exists labels, rest = "."%char :: labels) ->
  site_of netloc url = Ok (if bool_decide (rest = []) then first else second).
Proof.
  intros Hfirst Hsecond Hnet [->|[labels ->]]; unfold site_of; rewrite Hnet.
  - by rewrite app_nil_r, split_at_sep, split_no_sep.
  - rewrite !split_at_sep by done.
    pose proof (DateRestSpec.split_nonempty "." labels) as Hne.
    destruct (split "." labels) as [|p ps]; [done|].
    rewrite bool_decide_eq_false_2; [done|]. cbn. lia.
Qed.

(** *** The extraction *)

(** X24. When the site of the URL is found and the extraction does not
    return one video: of a collection only the first entry is used, and
    a collection without entries, like an extraction that fails, makes
    [request] raise [FetchRequestError] for the URL. *)
Theorem request_extraction url site :
  site_of netloc url = Ok site ->
  (forall response, extract_info url <> Some (Video response)) ->
  request netloc extract_info sha256_hexdigest url
  = match extract_info url with
    | Some (Entries (response :: _)) =>
        request netloc (fun _ => Some (Video response)) sha256_hexdigest url
    | _ => Raise (FetchRequestError url)
    end.
Proof.
  intros Hsite Hvideo. unfold request, extract. rewrite Hsite.
  destruct (extract_info url) as [[response|[|response others]]|]; try done.
  by destruct (Hvideo response).
Qed.

End YtDlpFetchService.

Lemma request_netloc_without_dot_witness :
  request (fun _ => chars "localhost") example_extract_info example_sha256
    (chars "http://localhost/video")
  = Raise IndexError.
Proof.
  apply request_netloc_without_dot.
  apply (bool_decide_unpack _). vm_compute. reflexivity.
Defined.

Lemma site_of_label_witness :
  site_of (fun _ => chars "www.newgrounds.com") example_url
  = Ok (if bool_decide (chars ".com" = []) then chars "www"
        else chars "newgrounds").
Proof.
  apply (site_of_label (fun _ => chars "www.newgrounds.com") example_url
           (chars "www") (chars "newgrounds") (chars ".com")).
  - apply (bool_decide_unpack _). vm_compute. reflexivity.
  - apply (bool_decide_unpack _). vm_compute. reflexivity.
  - reflexivity.
  - right. by eexists.
Defined.

Lemma request_extraction_witness :
  request example_netloc (fun _ => Some (Entries [example_response; ∅]))
    example_sha256 example_url
  = match (fun _ : str => Some (Entries [example_response; ∅])) example_url with
    | Some (Entries (response :: _)) =>
        request example_netloc (fun _ => Some (Video response))
          example_sha256 example_url
    | _ => Raise (FetchRequestError example_url)
    end.
Proof.
  apply (request_extraction example_netloc
           (fun _ => Some (Entries [example_response; ∅])) example_sha256
           example_url (chars "x")); [reflexivity|done].
Defined.

(** *** Posts on twitter, x and tiktok *)

Section Posts.

Variable netloc : str -> str.
Variable extract_info : str -> option extraction.
Variable sha256_hexdigest : string -> string.

(** What follows the last slash of [.../video/<tail>]. *)
Lemma video_tail_of_url (base tail : str) :
  ("/"%char ∉ tail) ->
  endswith (chars "/video")
    (slice (base ++ chars "/video/" ++ tail) 0
       (rfind "/" (base ++ chars "/video/" ++ tail))) = true
  /\ slice_from (base ++ chars "/video/" ++ tail)
       (rfind "/" (base ++ chars "/video/" ++ tail) + 1) = tail.
Proof.
  intros Hslash.
  assert (Hurl : base ++ chars "/video/" ++ tail
                 = (base ++ chars "/video") ++ "/"%char :: tail).
  { by rewrite <- app_assoc. }
  rewrite Hurl, rfind_last by done. split.
  - rewrite slice_prefix. apply endswith_app.
  - replace (Z.of_nat (length (base ++ chars "/video")) + 1)
      with (Z.of_nat (length ((base ++ chars "/video") ++ ["/"%char])))
      by (rewrite (length_app _ ["/"%char]); simpl; lia).
    rewrite (cons_middle "/"%char), app_assoc.
    by rewrite slice_from_suffix.
Qed.

(** X25. A twitter or x link [.../video/<tail>] whose tail is not a number
    for [int], as [1?s=20] or the empty text, makes [request] raise
    [ValueError], although the extraction succeeded. *)
Theorem request_twitter_video_index_not_a_number
    (url base tail : str) (response : gmap string pyval) (post_title : string) :
  url = base ++ chars "/video/" ++ tail ->
  ("/"%char ∉ tail) ->
  is_ok (int tail) = false ->
  site_of netloc url = Ok (chars "twitter")
  \/ site_of netloc url = Ok (chars "x") ->
  extract extract_info url = Ok response ->
  response !! "title" = Some (PStr post_title) ->
  request netloc extract_info sha256_hexdigest url
  = Raise (ValueError (InvalidLiteralForInt tail)).
Proof.
  intros -> Hslash Hint Hsite Hextract Htitle.
  destruct (video_tail_of_url base tail Hslash) as [Hends Htail].
  assert (Hraise : int tail = Raise (ValueError (InvalidLiteralForInt tail))).
  { unfold int in *.
    by destruct (int_literal (strip_by is_int_space tail)). }
  assert (Hget : get (<["channel":=get response "uploader_id"]> response) "title"
                 = PStr post_title).
  { unfold get. by rewrite lookup_insert_ne, Htitle. }
  eval_chars_in Hends. eval_chars_in Htail.
  unfold request. rewrite Hextract.
  destruct Hsite as [-> | ->]; cbn [mbind result_bind Py.bind];
    unfold handle_site; eval_chars; cbv beta iota zeta;
    rewrite Hget; cbn [hash_str mbind result_bind Py.bind];
    by rewrite Hends, Htail, Hraise.
Qed.

(** X26. A response without a text as title makes [request] raise
    [AttributeError] for the sites twitter, x and tiktok, whose titles
    are hashed. *)
Theorem request_hashed_title_missing
    (url site : str) (response : gmap string pyval) :
  site_of netloc url = Ok site ->
  site ∈ [chars "twitter"; chars "x"; chars "tiktok"] ->
  extract extract_info url = Ok response ->
  (forall text, response !! "title" <> Some (PStr text)) ->
  request netloc extract_info sha256_hexdigest url = Raise AttributeError.
Proof.
  intros Hsite Hin Hextract Htitle. unfold request.
  rewrite Hsite, Hextract. cbn [mbind result_bind Py.bind].
  assert (Hhash : forall channel,
            hash_str sha256_hexdigest
              (get (<["channel":=channel]> response) "title")
            = Raise AttributeError).
  { intros channel. unfold get. rewrite lookup_insert_ne by done.
    destruct (response !! "title") as [[|text|z]|] eqn:Hlook; try done.
    by destruct (Htitle text). }
  repeat (apply elem_of_cons in Hin as [->|Hin]);
    [| | |by apply elem_of_nil in Hin];
    unfold handle_site; eval_chars; cbv beta iota zeta;
    by rewrite Hhash.
Qed.

End Posts.

Lemma request_twitter_video_index_not_a_number_witness :
  request example_netloc example_extract_info example_sha256
    (chars "https://x.com/u/status/1/video/1?s=20")
  = Raise (ValueError (InvalidLiteralForInt (chars "1?s=20"))).
Proof.
  apply (request_twitter_video_index_not_a_number example_netloc
           example_extract_info example_sha256 _
           (chars "https://x.com/u/status/1") (chars "1?s=20")
           example_response "a post").
  - reflexivity.
  - apply (bool_decide_unpack _). vm_compute. reflexivity.
  - reflexivity.
  - right. reflexivity.
  - reflexivity.
  - reflexivity.
Defined.

Lemma request_hashed_title_missing_witness :
  request (fun _ => chars "www.tiktok.com") (fun _ => Some (Video ∅))
    example_sha256 (chars "https://www.tiktok.com/@u/video/1")
  = Raise AttributeError.
Proof.
  apply (request_hashed_title_missing (fun _ => chars "www.tiktok.com")
           (fun _ => Some (Video ∅)) example_sha256 _ (chars "tiktok") ∅).
  - reflexivity.
  - apply (bool_decide_unpack _). vm_compute. reflexivity.
  - reflexivity.
  - intros text. by rewrite lookup_empty.
Defined.

(** *** The other sites *)

Section Sites.

Variable netloc : str -> str.
Variable extract_info : str -> option extraction.
Variable sha256_hexdigest : string -> string.

(** X27. For the sites pony, thishorsie, newgrounds and bilibili the
    response is passed on: the record has the title, the upload date and
    the duration of the response, the uploader is the channel of the
    response for pony and thishorsie and its uploader for newgrounds and
    bilibili, and the platform is the capitalised site name, so
    [Ponytube] and [Thishorsierocks]; only newgrounds prints a
    diagnostic. *)
Theorem request_passed_on_sites
    (url : str) (response : gmap string pyval)
    (site label uploader_key : string) (diagnostics : list diagnostic) :
  (site, label, uploader_key, diagnostics) ∈ passed_on_sites ->
  site_of netloc url = Ok (chars site) ->
  extract extract_info url = Ok response ->
  request netloc extract_info sha256_hexdigest url
  = Ok ({| title := get response "title";
           uploader := get response uploader_key;
           upload_date := get response "upload_date";
           duration := get response "duration";
           platform := PStr label |},
        diagnostics).
Proof.
  intros Hin Hsite Hextract. unfold request.
  rewrite Hsite, Hextract. cbn [mbind result_bind Py.bind].
  unfold passed_on_sites in Hin.
  repeat (apply elem_of_cons in Hin as [[= -> -> -> ->]|Hin]);
    [| | | |by apply elem_of_nil in Hin];
    unfold handle_site; eval_chars; cbv beta iota zeta;
    cbn [mbind result_bind Py.bind]; unfold get;
    rewrite ?lookup_insert_eq, ?lookup_insert_ne by done; reflexivity.
Qed.

(** X28. For the site bsky, a response with a text as title and an
    uploader id with a dot gives a record whose uploader is the uploader
    id up to its first dot, whose title names this uploader and the hash
    of the title of the response, and whose platform is [Bluesky]; the
    duration of the response is kept and a diagnostic is printed. *)
Theorem request_bluesky
    (url handle domain : str) (response : gmap string pyval)
    (uploader_id post_title : string) :
  site_of netloc url = Ok (chars "bsky") ->
  extract extract_info url = Ok response ->
  response !! "uploader_id" = Some (PStr uploader_id) ->
  chars uploader_id = handle ++ "."%char :: domain ->
  ("."%char ∉ handle) ->
  response !! "title" = Some (PStr post_title) ->
  request netloc extract_info sha256_hexdigest url
  = Ok ({| title := PStr ("Bluesky post by " +:+ text handle
                          +:+ " ("
                          +:+ String.substring 0 5 (sha256_hexdigest post_title)
                          +:+ ")");
           uploader := PStr (text handle);
           upload_date := get response "upload_date";
           duration := get response "duration";
           platform := PStr "Bluesky" |},
        [BlueskyHasNoDuration]).
Proof.
  intros Hsite Hextract Hid Hchars Hdot Htitle. unfold request.
  rewrite Hsite, Hextract. cbn [mbind result_bind Py.bind].
  unfold handle_site. eval_chars. cbv beta iota zeta.
  unfold get. rewrite Hid. cbn [default from_option id].
  assert (Htruthy : truthy (PStr uploader_id) = true).
  { cbn. rewrite bool_decide_eq_false_2; [done|]. intros ->.
    by destruct handle. }
  rewrite Htruthy.
  assert (Hindex : index "." (chars uploader_id) = Ok (length handle)).
  { unfold chars in *. rewrite Hchars. clear -Hdot.
    induction handle as [|c handle IH]; cbn [app index length].
    - by destruct (N.eq_dec "."%char "."%char).
    - apply not_elem_of_cons in Hdot as [Hne Hdot].
      destruct (N.eq_dec c "."%char); [congruence|]. by rewrite IH. }
  unfold chars in *. rewrite Hindex. cbn [mbind result_bind Py.bind].
  rewrite Hchars, take_app_length.
  rewrite lookup_insert_ne, Htitle by done.
  cbn [hash_str mbind result_bind Py.bind format].
  by repeat (rewrite lookup_insert_eq || rewrite lookup_insert_ne by done).
Qed.

End Sites.

Lemma request_passed_on_sites_witness :
  request (fun _ => chars "pony.tube") example_extract_info example_sha256
    (chars "https://pony.tube/w/1")
  = Ok ({| title := get example_response "title";
           uploader := get example_response "channel";
           upload_date := get example_response "upload_date";
           duration := get example_response "duration";
           platform := PStr "Ponytube" |},
        []).
Proof.
  apply (request_passed_on_sites (fun _ => chars "pony.tube")
           example_extract_info example_sha256 _ example_response "pony").
  - left.
  - reflexivity.
  - reflexivity.
Defined.

Lemma request_bluesky_witness :
  request (fun _ => chars "bsky.app")
    (fun _ => Some (Video example_bluesky_response)) example_sha256
    (chars "https://bsky.app/profile/alice.bsky.social/post/1")
  = Ok ({| title := PStr ("Bluesky post by "
                          +:+ text (chars "alice")
                          +:+ " ("
                          +:+ String.substring 0 5 (example_sha256 "a post")
                          +:+ ")");
           uploader := PStr (text (chars "alice"));
           upload_date := get example_bluesky_response "upload_date";
           duration := get example_bluesky_response "duration";
           platform := PStr "Bluesky" |},
        [BlueskyHasNoDuration]).
Proof.
  apply (request_bluesky (fun _ => chars "bsky.app")
           (fun _ => Some (Video example_bluesky_response)) example_sha256 _
           (chars "alice") (chars "bsky.social") example_bluesky_response
           "alice.bsky.social" "a post").
  - reflexivity.
  - reflexivity.
  - reflexivity.
  - reflexivity.
  - apply (bool_decide_unpack _). vm_compute. reflexivity.
  - reflexivity.
Defined.

(** *** Which URLs a service takes *)

Lemma startswith_prefix p s : startswith p s = true <-> exists after, s = p ++ after.
Proof.
  revert s. induction p as [|a p IH]; intros s; cbn [startswith].
  - split; [intros _; by exists s|done].
  - destruct s as [|b s]; [split; [done|by intros [? ?]]|].
    destruct (N.eq_dec a b) as [->|Hne].
    + rewrite IH. split; intros [after Hs]; exists after.
      * by rewrite Hs.
      * by injection Hs.
    + split; [done|]. intros [after [= ? ?]]. done.
Qed.

Lemma contains_text_substring p s :
  contains_text p s = true <-> exists before after, s = before ++ p ++ after.
Proof.
  induction s as [|c s IH]; cbn [contains_text].
  - rewrite orb_false_r, startswith_prefix. split.
    + intros [after Hs]. by exists [], after.
    + intros (before & after & Hs). destruct before; [by exists after|done].
  - rewrite orb_true_iff, startswith_prefix, IH. split.
    + intros [[after Hs]|(before & after & Hs)].
      * by exists [], after.
      * exists (c :: before), after. by rewrite Hs.
    + intros ([|b before] & after & Hs).
      * left. by exists after.
      * right. injection Hs as _ Hs. by exists before, after.
Qed.

(** X29. The services test the whole text of the URL: the yt-dlp service
    takes a URL exactly when an accepted domain stands somewhere in it,
    and the YouTube service when [youtube.com] or [youtu.be] does; so a
    URL of another site that names an accepted domain in its path or
    query is taken too, and no URL is taken when no domain is accepted. *)
Theorem can_fetch_substring accepted_domains url :
  (can_fetch accepted_domains url = true
   <-> exists domain before after,
         domain ∈ accepted_domains /\ url = before ++ domain ++ after)
  /\ youtube_can_fetch url
     = can_fetch [chars "youtube.com"; chars "youtu.be"] url
  /\ can_fetch [] url = false.
Proof.
  split; [|split; [|done]].
  - unfold can_fetch. rewrite existsb_exists. split.
    + intros (domain & Hin%list_elem_of_In
              & (before & after & Hurl)%contains_text_substring).
      by exists domain, before, after.
    + intros (domain & before & after & Hin & Hurl). exists domain.
      split; [by apply list_elem_of_In|].
      apply contains_text_substring. by exists before, after.
  - unfold youtube_can_fetch, can_fetch. cbn [existsb]. by rewrite orb_false_r.
Qed.

(** *** Reading the upload date *)

Lemma strptime_upload_date_fields y m d vy vm vd :
  field_ok Date.re_Y y vy -> field_ok Date.re_m m vm -> field_ok Date.re_d d vd ->
  strptime_upload_date (y ++ m ++ d) = Date.datetime_new vy vm vd 0 0 0 None.
Proof.
  intros (Hy & _ & Fy) (Hm & _ & Fm) (Hd & _ & Fd).
  unfold strptime_upload_date, Re.match_items, upload_date_format.
  assert (Hmatch : head (Re.run_items [Date.re_Y; Date.re_m; Date.re_d]
                           (y ++ m ++ d)) = Some ([y; m; d], [])).
  { eapply DateRestSpec.head_run_items_cons; [apply Fy|].
    eapply DateRestSpec.head_run_items_cons; [apply Fm|].
    eapply DateRestSpec.head_run_items_cons; [|reflexivity].
    rewrite <- (app_nil_r d) at 1. apply Fd. }
  rewrite Hmatch, Hy, Hm, Hd. done.
Qed.

(** X30. [parse] reads an upload date of eight digits, the year, the
    month and the day of a date, as the first instant of that day in UTC
    and leaves the other fields as they are; without an upload date it
    raises [TypeError]. *)
Theorem parse_upload_date (video_data : VideoData) (y m d : Z) :
  is_datetime {| Date.year := y; Date.month := m; Date.day := d;
                 Date.hour := 0; Date.minute := 0; Date.second := 0;
                 Date.microsecond := 0;
                 Date.tzinfo_of := None |} = true ->
  upload_date video_data
  = PStr (text
            (zfill 4 (str_of_int y) ++ zfill 2 (str_of_int m)
             ++ zfill 2 (str_of_int d))) ->
  parse video_data
  = Returns {| parsed_title := title video_data;
               parsed_uploader := uploader video_data;
               parsed_upload_date :=
                 {| Date.year := y; Date.month := m; Date.day := d;
                    Date.hour := 0; Date.minute := 0; Date.second := 0;
                    Date.microsecond := 0;
                    Date.tzinfo_of := Some UTC |};
               parsed_duration := duration video_data;
               parsed_platform := platform video_data |}
  /\ parse {| title := title video_data; uploader := uploader video_data;
              upload_date := PNone; duration := duration video_data;
              platform := platform video_data |}
     = Raises (TypeError "strptime() argument 1 must be str").
Proof.
  intros Hvalid Hdate. split; [|done].
  destruct (DateRestSpec.is_datetime_ranges _ Hvalid) as (Hy & Hm & Hd & _).
  cbn [Date.year Date.month Date.day] in Hy, Hm, Hd.
  pose proof (DateRestSpec.days_in_month_le y m) as Hdim.
  destruct (DateRestSpec.year_field y) as [_ Fy]; [lia|].
  destruct (DateRestSpec.month_field (Z.to_nat m)) as [_ Fm]; [lia|].
  destruct (DateRestSpec.day_field (Z.to_nat d)) as [_ Fd]; [lia|].
  rewrite Z2Nat.id in * by lia.
  unfold parse. rewrite Hdate.
  rewrite chars_text
    by (repeat apply Forall_app_2; apply zfill_ascii, str_of_int_ascii).
  rewrite (strptime_upload_date_fields _ _ _ _ _ _ Fy Fm Fd).
  unfold Date.datetime_new, Date.datetime_of.
  rewrite !DateSpec.check_field_ok by lia. done.
Qed.

Lemma parse_upload_date_witness :
  parse example_video_data
  = Returns {| parsed_title := title example_video_data;
               parsed_uploader := uploader example_video_data;
               parsed_upload_date :=
                 {| Date.year := 2024; Date.month := 4; Date.day := 1;
                    Date.hour := 0; Date.minute := 0; Date.second := 0;
                    Date.microsecond := 0;
                    Date.tzinfo_of := Some UTC |};
               parsed_duration := duration example_video_data;
               parsed_platform := platform example_video_data |}
  /\ parse {| title := title example_video_data;
              uploader := uploader example_video_data;
              upload_date := PNone;
              duration := duration example_video_data;
              platform := platform example_video_data |}
     = Raises (TypeError "strptime() argument 1 must be str").
Proof.
  apply (parse_upload_date example_video_data 2024 4 1); reflexivity.
Defined.

End FetchServicesRestSpec.
